(** * jstaskZod: retry, cache and schema validation around three web services

    A shallow embedding of the TypeScript sources (user.schemas.ts,
    user-service.ts, user-weather-converter.ts, retry-helper.ts,
    api-helper.ts) and of the compiled JavaScript kept under dist/
    (user.schemas.js, user-service.js, user-weather-converter.js), followed
    by the properties proved about them.

    Conventions of the embedding.
    - A JavaScript string is a [string]: a sequence of code units, each
      [ascii] being the code unit of that number (0..255).
    - A JavaScript number is a [Z]; fractions, NaN and the infinities are
      outside the model. The one exception is the wait of
      [handleApiError], a rational ([Q]).
    - An async function is a state-passing function on the world it can
      observe; [await] is sequencing. A promise that rejects is the
      outcome [Throw], one that fulfils is [Return]. A call of a remote
      service acts on the outside world when it is made.
    - The batch conversion starts every conversion before it awaits any:
      each runs up to its first [await], and they resume in the order in
      which the answers arrive, which is a parameter of the model.
    - Logger calls only write to the console and are left out, except for
      the arguments they evaluate when those can throw.
    - The zod library, the URL parser, the three remote services and the
      application constants are not part of the sources; they enter as
      the classes [Platform], [Config] and [Services]. *)

From Stdlib Require Import ZArith List String Ascii Bool Lia.
From Stdlib Require QArith Qpower Qminmax.
From stdpp Require Import base tactics option list strings pretty gmap.

Open Scope Z_scope.

(* ===================================================================== *)
(** * JavaScript values, errors and outcomes *)
(* ===================================================================== *)

Module Js.

(** Plain data: what JSON.parse yields, plus [undefined]. *)
#[warnings="-register-all"]
Inductive Json : Type :=
| JUndefined
| JNull
| JBool (b : bool)
| JNum (n : Z)
| JStr (s : string)
| JArr (items : list Json)
| JObj (fields : list (string * Json)).

(** A step of the path zod reports with an issue. *)
Inductive PathElem : Type :=
| Key (k : string)
| Index (i : nat).

(** The [code] of a zod issue; the human-readable message is not kept. *)
Inductive IssueCode : Type :=
| invalid_type
| too_small
| invalid_string.

Record ZodIssue : Type := mkIssue { issue_path : list PathElem; issue_code : IssueCode }.

(** Error objects: [Err name message] is an instance of Error or of one of
    its built-in subclasses ([name] is the constructor's name); [ZodErr] is
    zod's ZodError with its issues. *)
Inductive JsError : Type :=
| Err (name : string) (message : string)
| ZodErr (issues : list ZodIssue).

(** Anything a [throw] can carry. [TErr] is exactly [instanceof Error]. *)
Inductive Thrown : Type :=
| TErr (e : JsError)
| TVal (v : Json).

Inductive Outcome (A : Type) : Type :=
| Return (a : A)
| Throw (t : Thrown).
Arguments Return {A} a.
Arguments Throw {A} t.

Definition is_throw {A} (o : Outcome A) : bool :=
  match o with Throw _ => true | Return _ => false end.

Definition instanceof_ZodError (t : Thrown) : bool :=
  match t with TErr (ZodErr _) => true | _ => false end.

(** Truthiness, as [!x] and [&&] read it. *)
Definition truthy (v : Json) : bool :=
  match v with
  | JUndefined | JNull => false
  | JBool b => b
  | JNum n => negb (n =? 0)
  | JStr s => negb (String.eqb s "")
  | JArr _ | JObj _ => true
  end.

Definition isArray (v : Json) : bool :=
  match v with JArr _ => true | _ => false end.

(** The elements of a value known to be an array. *)
Definition items_of (v : Json) : list Json :=
  match v with JArr items => items | _ => [] end.

Fixpoint obj_get (fields : list (string * Json)) (k : string) : Json :=
  match fields with
  | [] => JUndefined
  | (k', v) :: rest => if String.eqb k' k then v else obj_get rest k
  end.

(** [v.k] for a key that is no built-in property: a TypeError on null and
    undefined, [undefined] on every other value that has no such field. *)
Definition get_prop (v : Json) (k : string) : Outcome Json :=
  match v with
  | JUndefined =>
      Throw (TErr (Err "TypeError" ("Cannot read properties of undefined (reading '" +:+ k +:+ "')")))
  | JNull =>
      Throw (TErr (Err "TypeError" ("Cannot read properties of null (reading '" +:+ k +:+ "')")))
  | JObj fields => Return (obj_get fields k)
  | _ => Return JUndefined
  end.

Fixpoint join_comma (parts : list string) : string :=
  match parts with
  | [] => ""
  | [p] => p
  | p :: rest => p +:+ "," +:+ join_comma rest
  end.

(** [String(v)]. *)
Fixpoint js_String (v : Json) : string :=
  match v with
  | JUndefined => "undefined"
  | JNull => "null"
  | JBool true => "true"
  | JBool false => "false"
  | JNum n => pretty n
  | JStr s => s
  | JArr items =>
      join_comma
        (map (fun x => match x with JUndefined | JNull => "" | _ => js_String x end) items)
  | JObj _ => "[object Object]"
  end.

Definition is_ws (c : ascii) : bool :=
  let n := nat_of_ascii c in
  (((9 <=? n) && (n <=? 13)) || (n =? 32) || (n =? 160))%nat.

Fixpoint trimStart (s : string) : string :=
  match s with
  | EmptyString => EmptyString
  | String c rest => if is_ws c then trimStart rest else s
  end.

Fixpoint trimEnd (s : string) : string :=
  match s with
  | EmptyString => EmptyString
  | String c rest =>
      match trimEnd rest with
      | EmptyString => if is_ws c then EmptyString else String c EmptyString
      | rest' => String c rest'
      end
  end.

(** [s.trim()]. *)
Definition js_trim (s : string) : string := trimEnd (trimStart s).

(** [l.slice(0, count)] for an integer [count]: a negative [count] counts
    from the end. *)
Definition js_slice0 {A} (l : list A) (count : Z) : list A :=
  let len := Z.of_nat (length l) in
  let stop := if count <? 0 then Z.max (len + count) 0 else Z.min count len in
  take (Z.to_nat stop) l.

(** [error instanceof Error ? error : new Error(String(error))]. *)
Definition toError (error : Thrown) : JsError :=
  match error with
  | TErr e => e
  | TVal v => Err "Error" (js_String v)
  end.

End Js.
Export Js.

(** What the sources take from the platform and from zod without it being
    part of them: the URL check behind [z.string().url()] and the text of a
    ZodError's [message]. *)
Class Platform : Type := {
  isUrl : string -> bool;
  zodMessage : list ZodIssue -> string
}.

Definition error_message {platform : Platform} (e : JsError) : string :=
  match e with
  | Err _ m => m
  | ZodErr issues => zodMessage issues
  end.

(* ===================================================================== *)
(** * The part of zod the schemas use *)
(* ===================================================================== *)

Module Zod.

(** The result of running a schema: the parsed value, or every issue found
    (zod goes on after an issue and reports them all). *)
Inductive Parsed (A : Type) : Type :=
| Valid (a : A)
| Invalid (issues : list ZodIssue).
Arguments Valid {A} a.
Arguments Invalid {A} issues.

Definition Schema (A : Type) : Type := list PathElem -> Json -> Parsed A.

Definition both {A B C} (f : A -> B -> C) (x : Parsed A) (y : Parsed B) : Parsed C :=
  match x, y with
  | Valid a, Valid b => Valid (f a b)
  | Valid _, Invalid j => Invalid j
  | Invalid i, Valid _ => Invalid i
  | Invalid i, Invalid j => Invalid (i ++ j)
  end.

Definition pmap {A B} (f : A -> B) (x : Parsed A) : Parsed B :=
  match x with
  | Valid a => Valid (f a)
  | Invalid i => Invalid i
  end.

Definition both3 {A B C D} (f : A -> B -> C -> D)
    (x : Parsed A) (y : Parsed B) (z : Parsed C) : Parsed D :=
  both (fun g c => g c) (both f x y) z.

(** The checks chained on [z.string()]. zod runs them in the order they are
    written: [min n] and [url] add an issue and leave the value as it is,
    [trim] rewrites the value the later checks see. *)
Inductive StringCheck : Type :=
| min (n : nat)
| trim
| url.

Fixpoint run_checks {platform : Platform} (path : list PathElem) (checks : list StringCheck)
    (s : string) (issues : list ZodIssue) : string * list ZodIssue :=
  match checks with
  | [] => (s, issues)
  | min n :: rest =>
      run_checks path rest s
        (if (String.length s <? n)%nat then issues ++ [mkIssue path too_small] else issues)
  | trim :: rest => run_checks path rest (js_trim s) issues
  | url :: rest =>
      run_checks path rest s
        (if isUrl s then issues else issues ++ [mkIssue path invalid_string])
  end.

(** [z.string()] followed by [checks]. *)
Definition z_string {platform : Platform} (checks : list StringCheck) : Schema string :=
  fun path v =>
    match v with
    | JStr s =>
        match run_checks path checks s [] with
        | (s', []) => Valid s'
        | (_, issues) => Invalid issues
        end
    | _ => Invalid [mkIssue path invalid_type]
    end.

(** [z.object({...})]: the input must be an object; [shape] parses the
    listed keys (each under its own path) and unknown keys are dropped. *)
Definition z_object {A} (shape : list PathElem -> list (string * Json) -> Parsed A) : Schema A :=
  fun path v =>
    match v with
    | JObj fields => shape path fields
    | _ => Invalid [mkIssue path invalid_type]
    end.

Definition field {A} (schema : Schema A) (k : string)
    (path : list PathElem) (fields : list (string * Json)) : Parsed A :=
  schema (path ++ [Key k]) (obj_get fields k).

Fixpoint parse_items {A} (schema : Schema A) (path : list PathElem) (i : nat)
    (items : list Json) : Parsed (list A) :=
  match items with
  | [] => Valid []
  | x :: rest => both cons (schema (path ++ [Index i]) x) (parse_items schema path (S i) rest)
  end.

(** [z.array(schema).min(n)]. *)
Definition z_array_min {A} (schema : Schema A) (n : nat) : Schema (list A) :=
  fun path v =>
    match v with
    | JArr items =>
        both (fun _ xs => xs)
          (if (length items <? n)%nat then Invalid [mkIssue path too_small] else Valid tt)
          (parse_items schema path 0 items)
    | _ => Invalid [mkIssue path invalid_type]
    end.

(** [schema.parse(data)]: the value, or a thrown ZodError. *)
Definition parse {A} (schema : Schema A) (data : Json) : Outcome A :=
  match schema [] data with
  | Valid a => Return a
  | Invalid issues => Throw (TErr (ZodErr issues))
  end.

(** [schema.safeParse(data)]: zod's own result object. *)
Definition safeParse {A} (schema : Schema A) (data : Json) : Parsed A := schema [] data.

End Zod.
Export Zod.

(* ===================================================================== *)
(** * user.schemas.ts *)
(* ===================================================================== *)

Record UserName : Type := { first : string; last : string }.
Record UserLocation : Type := { city : string; country : string }.
Record UserPicture : Type := { large : string }.
Record User : Type := { name : UserName; location : UserLocation; picture : UserPicture }.
Record UserApiResponse : Type := { results : list User }.

(** A validated user seen again as a plain value. *)
Definition json_of_user (u : User) : Json :=
  JObj [ ("name", JObj [("first", JStr (first (name u))); ("last", JStr (last (name u)))]);
         ("location", JObj [("city", JStr (city (location u)));
                            ("country", JStr (country (location u)))]);
         ("picture", JObj [("large", JStr (large (picture u)))]) ].

Module Schemas.
Section Schemas.
Context {platform : Platform}.

(** The inline object schemas of [UserSchema], named as the compiled
    module names them. *)
Definition UserNameSchema : Schema UserName :=
  z_object (fun path fields =>
    both Build_UserName
      (field (z_string [min 1; trim]) "first" path fields)
      (field (z_string [min 1; trim]) "last" path fields)).

Definition UserLocationSchema : Schema UserLocation :=
  z_object (fun path fields =>
    both Build_UserLocation
      (field (z_string [min 1; trim]) "city" path fields)
      (field (z_string [min 1; trim]) "country" path fields)).

Definition UserPictureSchema : Schema UserPicture :=
  z_object (fun path fields =>
    pmap Build_UserPicture (field (z_string [url]) "large" path fields)).

Definition UserSchema : Schema User :=
  z_object (fun path fields =>
    both3 Build_User
      (field UserNameSchema "name" path fields)
      (field UserLocationSchema "location" path fields)
      (field UserPictureSchema "picture" path fields)).

Definition UserApiResponseSchema : Schema UserApiResponse :=
  z_object (fun path fields =>
    pmap Build_UserApiResponse (field (z_array_min UserSchema 1) "results" path fields)).

Definition validateUser (data : Json) : Outcome User := parse UserSchema data.

Definition validateApiResponse (data : Json) : Outcome UserApiResponse :=
  parse UserApiResponseSchema data.

Definition getFullName (user : User) : string :=
  first (name user) +:+ " " +:+ last (name user).

Definition getLocationDisplay (user : User) : string :=
  city (location user) +:+ ", " +:+ country (location user).

Definition getLocationQuery (user : User) : string :=
  city (location user) +:+ ", " +:+ country (location user).

End Schemas.
End Schemas.

(* ===================================================================== *)
(** * dist/services/user.schemas.js *)
(* ===================================================================== *)

(** The result objects of the non-throwing validators:
    [{success: true, data, error: null}] or
    [{success: false, data: null, error}]. *)
Inductive SafeResult (A : Type) : Type :=
| Success (data : A)
| Failure (error : string).
Arguments Success {A} data.
Arguments Failure {A} error.

Module DistSchemas.
Section DistSchemas.
Context {platform : Platform}.

(** The compiled schemas differ from the TypeScript ones only in the
    message texts they attach to the issues. *)
Definition UserSchema : Schema User := Schemas.UserSchema.

Definition UsersArraySchema : Schema (list User) := z_array_min UserSchema 1.

(** class UserValidator *)
Definition validateUser (data : Json) : Outcome User := parse UserSchema data.

Definition validateUsers (data : Json) : Outcome (list User) := parse UsersArraySchema data.

Definition safeValidateUser (data : Json) : SafeResult User :=
  match safeParse UserSchema data with
  | Valid d => Success d
  | Invalid issues => Failure ("User validation failed: " +:+ zodMessage issues)
  end.

Definition safeValidateUsers (data : Json) : SafeResult (list User) :=
  match safeParse UsersArraySchema data with
  | Valid d => Success d
  | Invalid issues => Failure ("Users validation failed: " +:+ zodMessage issues)
  end.

(** class UserUtils: every helper validates its argument again. *)
Definition getFullName (user : Json) : Outcome string :=
  match validateUser user with
  | Return validatedUser => Return (first (name validatedUser) +:+ " " +:+ last (name validatedUser))
  | Throw e => Throw e
  end.

Definition getLocationQuery (user : Json) : Outcome string :=
  match validateUser user with
  | Return validatedUser =>
      Return (city (location validatedUser) +:+ ", " +:+ country (location validatedUser))
  | Throw e => Throw e
  end.

End DistSchemas.
End DistSchemas.

(* ===================================================================== *)
(** * Effects: the world, the cache and the remote services *)
(* ===================================================================== *)

(** APP_CONSTANTS (config/constants) and CacheManager.CACHE_KEYS are not
    among the sources; their values are parameters. *)
Class Config : Type := {
  USERS : string;
  DEFAULT_USER_COUNT : Z;
  DEFAULT_RETRY_ATTEMPTS : Z;
  DEFAULT_RETRY_DELAY : Z
}.

(** The Response a resolved [fetch] yields: [ok], [status], [statusText]
    and the outcome of [response.json()]. *)
Record Response : Type := {
  ok : bool;
  status : Z;
  statusText : string;
  json : Outcome Json
}.

Record GeocodingResult (Num : Type) : Type := { lat : Num; lng : Num }.
Arguments lat {Num} _.
Arguments lng {Num} _.

(** The remote collaborators, each a function of the state [Env] of the
    outside world: the HTTP client, GeocodingService and WeatherService. *)
Class Services (Env Num Weather : Type) : Type := {
  fetch : string -> Env -> Outcome Response * Env;
  getCoordinates : string -> Env -> Outcome (GeocodingResult Num) * Env;
  getCurrentWeather : Num -> Num -> Env -> Outcome Weather * Env
}.

(** What a call leaves behind, in order. *)
Inductive Event : Type :=
| EvRemove (key : string)
| EvSet (key : string) (value : Json)
| EvFetch (url : string)
| EvGeocode (query : string)
| EvWeather.

Record World (Env : Type) : Type := mkWorld {
  cache : gmap string Json;
  env : Env;
  trace : list Event
}.
Arguments mkWorld {Env} cache env trace.
Arguments cache {Env} _.
Arguments env {Env} _.
Arguments trace {Env} _.

(** A computation that may throw, over a state [St]. *)
Definition Eff (St A : Type) : Type := St -> Outcome A * St.

Definition ret {St A} (a : A) : Eff St A := fun s => (Return a, s).

Definition throw {St A} (t : Thrown) : Eff St A := fun s => (Throw t, s).

Definition bind {St A B} (m : Eff St A) (k : A -> Eff St B) : Eff St B :=
  fun s =>
    match m s with
    | (Return a, s') => k a s'
    | (Throw t, s') => (Throw t, s')
    end.

(** [try { body } catch (error) { handler error }]. *)
Definition try_catch {St A} (body : Eff St A) (handler : Thrown -> Eff St A) : Eff St A :=
  fun s =>
    match body s with
    | (Return a, s') => (Return a, s')
    | (Throw t, s') => handler t s'
    end.

(** A synchronous call that may throw. *)
Definition pure_call {St A} (o : Outcome A) : Eff St A := fun s => (o, s).

Notation "x <- m ;; k" := (bind m (fun x => k))
  (at level 100, m at next level, right associativity).
Notation "m ;;; k" := (bind m (fun _ => k))
  (at level 100, right associativity).

Module CacheManager.
Section CacheManager.
Context {Env : Type}.

(** Modelled from the spec: CacheManager (utils/cache-manager) is not among
    the sources. Section 4.3 gives it as a key-value store with
    [get(key) -> T | null], [set(key, value) -> void] and
    [remove(key) -> void], none of which fails: [getItem] yields the
    stored value, or null when there is none. *)
Definition getItem (key : string) : Eff (World Env) Json :=
  fun w => (Return (default JNull (cache w !! key)), w).

(** Modelled from the spec: CacheManager.setItem, section 4.3's
    [set(key, value) -> void]; the write replaces the entry. *)
Definition setItem (key : string) (value : Json) : Eff (World Env) unit :=
  fun w => (Return tt, mkWorld (<[key := value]> (cache w)) (env w) (trace w ++ [EvSet key value])).

(** Modelled from the spec: CacheManager.removeItem, section 4.3's
    [remove(key) -> void]; removing an absent entry changes no entry. *)
Definition removeItem (key : string) : Eff (World Env) unit :=
  fun w => (Return tt, mkWorld (delete key (cache w)) (env w) (trace w ++ [EvRemove key])).

End CacheManager.
End CacheManager.

(* ===================================================================== *)
(** * utils/retry-helper.ts *)
(* ===================================================================== *)

Record RetryOptions : Type := { maxAttempts : Z; baseDelay : Z; maxDelay : Z }.

(** What the retry loop does besides running the operation: it invokes it
    (attempt number) and it sleeps (milliseconds). *)
Inductive RetryEvent : Type :=
| Invoke (attempt : Z)
| Delay (ms : Z).

Module RetryHelper.
Section RetryHelper.
Context {St T : Type}.
Variable operation : Eff St T.
Variable options : RetryOptions.

(** The body of [for (let attempt = 1; attempt <= maxAttempts; attempt++)].
    [remaining] is the number of iterations the loop condition still
    allows, [maxAttempts + 1 - attempt]; when none is left the statement
    after the loop, [throw lastError], runs. *)
Fixpoint retry_loop (remaining : nat) (attempt : Z) (lastError : JsError) (s : St)
    : Outcome T * St * list RetryEvent :=
  match remaining with
  | O => (Throw (TErr lastError), s, [])
  | S remaining' =>
      match operation s with
      | (Return value, s') => (Return value, s', [Invoke attempt])
      | (Throw error, s') =>
          let lastError := toError error in
          if attempt =? maxAttempts options then (Throw (TErr lastError), s', [Invoke attempt])
          else
            let delay := Z.min (baseDelay options * 2 ^ (attempt - 1)) (maxDelay options) in
            let '(r, s'', events) := retry_loop remaining' (attempt + 1) lastError s' in
            (r, s'', Invoke attempt :: Delay delay :: events)
      end
  end.

Definition retryApiCall (operationName : string) (s : St) : Outcome T * St * list RetryEvent :=
  retry_loop (Z.to_nat (maxAttempts options)) 1 (Err "Error" "Unknown error") s.

End RetryHelper.
End RetryHelper.

(* ===================================================================== *)
(** * utils/api-helper.ts *)
(* ===================================================================== *)

Module APIHelper.
Section APIHelper.
Context {Env Num Weather : Type} {services : Services Env Num Weather}.

(** [await fetch(url)]. *)
Definition platform_fetch (url : string) : Eff (World Env) Response :=
  fun w =>
    let '(r, e) := fetch url (env w) in
    (r, mkWorld (cache w) e (trace w ++ [EvFetch url])).

Definition fetchData (url : string) (errorMessage : string) : Eff (World Env) Json :=
  try_catch
    (response <- platform_fetch url ;;
     if negb (ok response) then
       let errorDetails := "HTTP " +:+ pretty (status response) +:+ ": " +:+ statusText response in
       throw (TErr (Err "Error" (errorMessage +:+ ": " +:+ errorDetails)))
     else
       data <- pure_call (json response) ;;
       ret data)
    (fun error => throw (TErr (toError error))).

End APIHelper.
End APIHelper.

(* ===================================================================== *)
(** * services/user-service.ts *)
(* ===================================================================== *)

Module UserService.
Section UserService.
Context {Env Num Weather : Type} {platform : Platform} {config : Config} {services : Services Env Num Weather}.
Import CacheManager.

(** [`https://randomuser.me/api/?results=${count}&inc=name,location,picture`] *)
Definition users_url (count : Z) : string :=
  "https://randomuser.me/api/?results=" +:+ pretty count +:+ "&inc=name,location,picture".

(** The arrow function handed to the retry helper. *)
Definition fetchFreshUsers_operation (count : Z) : Eff (World Env) (list User) :=
  let url := users_url count in
  try_catch
    (rawData <- APIHelper.fetchData url "Failed to fetch users from API" ;;
     validatedResponse <- pure_call (Schemas.validateApiResponse rawData) ;;
     let validatedUsers := results validatedResponse in
     setItem USERS (JArr (map json_of_user validatedUsers)) ;;;
     ret validatedUsers)
    (fun error =>
       match error with
       | TErr (ZodErr issues) =>
           throw (TErr (Err "Error" ("Invalid user data from API: " +:+ zodMessage issues)))
       | _ => throw error
       end).

Definition fetchFreshUsers_options : RetryOptions :=
  {| maxAttempts := DEFAULT_RETRY_ATTEMPTS;
     baseDelay := DEFAULT_RETRY_DELAY;
     maxDelay := 5000 |}.

(** The waits of the retry helper are no part of the world and are dropped
    from the result. *)
Definition fetchFreshUsers (count : Z) : Eff (World Env) (list User) :=
  (* Clear existing cache to ensure fresh data *)
  removeItem USERS ;;;
  (fun w =>
     let '(r, w', _) :=
       RetryHelper.retryApiCall (fetchFreshUsers_operation count)
         fetchFreshUsers_options "User API with validation" w in
     (r, w')).

(** [rawCached.length > 0 && rawCached[0].name && rawCached[0].location] *)
Definition looksLikeUsers (rawCached : list Json) : Outcome bool :=
  match rawCached with
  | [] => Return false
  | first :: _ =>
      match get_prop first "name" with
      | Throw t => Throw t
      | Return n =>
          if truthy n then
            match get_prop first "location" with
            | Throw t => Throw t
            | Return l => Return (truthy l)
            end
          else Return false
      end
  end.

Definition getCachedUsers : Eff (World Env) (option (list Json)) :=
  try_catch
    (rawCached <- getItem USERS ;;
     if negb (truthy rawCached) || negb (isArray rawCached) then ret None
     else
       (* Basic validation - check if it looks like user data *)
       looksValid <- pure_call (looksLikeUsers (items_of rawCached)) ;;
       if looksValid then ret (Some (items_of rawCached))
       else
         (* If validation fails, clear cache *)
         (removeItem USERS ;;; ret None))
    (fun error => removeItem USERS ;;; ret None).

Definition getUsers (count : Z) : Eff (World Env) (list Json) :=
  cachedUsers <- getCachedUsers ;;
  match cachedUsers with
  | Some cached =>
      if Z.of_nat (length cached) >=? count then ret (js_slice0 cached count)
      else (users <- fetchFreshUsers count ;; ret (map json_of_user users))
  | None => users <- fetchFreshUsers count ;; ret (map json_of_user users)
  end.

End UserService.
End UserService.

(* ===================================================================== *)
(** * dist/services/user-service.js *)
(* ===================================================================== *)

Module DistUserService.
Section DistUserService.
Context {Env : Type} {platform : Platform} {config : Config}.
Import CacheManager.

Definition getCachedUsers : Eff (World Env) (option (list User)) :=
  try_catch
    (rawCached <- getItem USERS ;;
     if negb (truthy rawCached) then ret None
     else
       match DistSchemas.safeValidateUsers rawCached with
       | Failure _ => removeItem USERS ;;; ret None
       | Success validatedUsers => ret (Some validatedUsers)
       end)
    (fun error => removeItem USERS ;;; ret None).

End DistUserService.
End DistUserService.

(* ===================================================================== *)
(** * converters/user-weather-converter.ts and its compiled form *)
(* ===================================================================== *)

(** ui/ui.types.ts. At run time [user] holds whatever the converter put
    there: a validated user or the caller's raw value. *)
Record UserWeatherData (Weather : Type) : Type := {
  user : Json;
  weather : option Weather
}.
Arguments Build_UserWeatherData {Weather} user weather.
Arguments user {Weather} _.
Arguments weather {Weather} _.

Module ServiceCalls.
Section ServiceCalls.
Context {Env Num Weather : Type} {services : Services Env Num Weather}.

(** [await GeocodingService.getCoordinates(query)] *)
Definition geocode (query : string) : Eff (World Env) (GeocodingResult Num) :=
  fun w =>
    let '(r, e) := getCoordinates query (env w) in
    (r, mkWorld (cache w) e (trace w ++ [EvGeocode query])).

(** [await WeatherService.getCurrentWeather(lat, lng)] *)
Definition currentWeather (latitude longitude : Num) : Eff (World Env) Weather :=
  fun w =>
    let '(r, e) := getCurrentWeather latitude longitude (env w) in
    (r, mkWorld (cache w) e (trace w ++ [EvWeather])).

(** A call that is made now and whose answer is looked at later: the call
    acts on the outside world when it is made, and its answer, a value or
    a rejection, is kept for the code that awaits it. *)
Definition attempt {A} (call : Eff (World Env) A) : Eff (World Env) (Outcome A) :=
  fun w => let '(answer, w') := call w in (Return answer, w').

(** What [Promise.all] makes of promises that have settled: the list of
    their values in the order of the promises, or a rejection when one of
    them rejected. *)
Fixpoint all_fulfilled {A} (outcomes : list (Outcome A)) : Outcome (list A) :=
  match outcomes with
  | [] => Return []
  | Throw t :: _ => Throw t
  | Return x :: rest =>
      match all_fulfilled rest with
      | Return xs => Return (x :: xs)
      | Throw t => Throw t
      end
  end.

End ServiceCalls.
End ServiceCalls.

Module UserWeatherConverter.
Section UserWeatherConverter.
Context {Env Num Weather : Type} {platform : Platform} {services : Services Env Num Weather}.
Import ServiceCalls.

Definition convertUserToUserWeatherData (user : Json)
    : Eff (World Env) (UserWeatherData Weather) :=
  try_catch
    (validatedUser <- pure_call (Schemas.validateUser user) ;;
     let locationQuery := Schemas.getLocationQuery validatedUser in
     geocodingResult <- geocode locationQuery ;;
     weather <- currentWeather (lat geocodingResult) (lng geocodingResult) ;;
     ret (Build_UserWeatherData (json_of_user validatedUser) (Some weather)))
    (fun error => ret (Build_UserWeatherData user None)).

End UserWeatherConverter.
End UserWeatherConverter.

Module DistUserWeatherConverter.
Section DistUserWeatherConverter.
Context {Env Num Weather : Type} {platform : Platform} {services : Services Env Num Weather}.
Import ServiceCalls.

Definition convertUserToUserWeatherData (user : Json)
    : Eff (World Env) (UserWeatherData Weather) :=
  try_catch
    (validatedUser <- pure_call (DistSchemas.validateUser user) ;;
     (* Logger.info(... UserUtils.getFullName(validatedUser) ...) *)
     pure_call (DistSchemas.getFullName (json_of_user validatedUser)) ;;;
     locationQuery <- pure_call (DistSchemas.getLocationQuery (json_of_user validatedUser)) ;;
     geocodingResult <- geocode locationQuery ;;
     weather <- currentWeather (lat geocodingResult) (lng geocodingResult) ;;
     (* Logger.success(... UserUtils.getFullName(validatedUser) ...) *)
     pure_call (DistSchemas.getFullName (json_of_user validatedUser)) ;;;
     ret (Build_UserWeatherData (json_of_user validatedUser) (Some weather)))
    (fun error =>
       if instanceof_ZodError error then ret (Build_UserWeatherData user None)
       else
         (* Logger.error(... UserUtils.getFullName(user) ...) *)
         pure_call (DistSchemas.getFullName user) ;;;
         ret (Build_UserWeatherData user None)).

(** The [catch] block of [convertUserToUserWeatherData]. *)
Definition conversionFailed (user : Json) (error : Thrown)
    : Eff (World Env) (UserWeatherData Weather) :=
  if instanceof_ZodError error then ret (Build_UserWeatherData user None)
  else
    pure_call (DistSchemas.getFullName user) ;;;
    ret (Build_UserWeatherData user None).

(** One conversion of a batch. [validatedUsers.map(...)] calls
    [convertUserToUserWeatherData] for every user before any answer is
    awaited: each call runs up to its first [await], where its geocoding
    call has been made, and is suspended there until the answer arrives.
    A conversion that fails before that point has settled at once. *)
Inductive Conversion : Type :=
| Suspended (user : Json) (validatedUser : User) (answer : Outcome (GeocodingResult Num))
| Settled (outcome : Outcome (UserWeatherData Weather)).

(** [convertUserToUserWeatherData(user)] up to its first [await]. *)
Definition startConversion (user : Json) (w : World Env) : Conversion * World Env :=
  let '(started, w') :=
    try_catch
      (validatedUser <- pure_call (DistSchemas.validateUser user) ;;
       pure_call (DistSchemas.getFullName (json_of_user validatedUser)) ;;;
       locationQuery <- pure_call (DistSchemas.getLocationQuery (json_of_user validatedUser)) ;;
       answer <- attempt (geocode locationQuery) ;;
       ret (Suspended user validatedUser answer))
      (fun error => result <- conversionFailed user error ;; ret (Settled (Return result))) w in
  match started with
  | Return conversion => (conversion, w')
  | Throw t => (Settled (Throw t), w')
  end.

(** The rest of [convertUserToUserWeatherData], from the arrival of the
    geocoding answer on: the weather call is made then. What follows the
    weather call touches nothing outside, so it is run with it. *)
Definition finishConversion (conversion : Conversion)
    : Eff (World Env) (UserWeatherData Weather) :=
  match conversion with
  | Settled outcome => pure_call outcome
  | Suspended user validatedUser answer =>
      try_catch
        (geocodingResult <- pure_call answer ;;
         weather <- currentWeather (lat geocodingResult) (lng geocodingResult) ;;
         pure_call (DistSchemas.getFullName (json_of_user validatedUser)) ;;;
         ret (Build_UserWeatherData (json_of_user validatedUser) (Some weather)))
        (conversionFailed user)
  end.

(** [validatedUsers.map((user) => this.convertUserToUserWeatherData(user))]:
    the conversions are started one after the other, in list order. *)
Fixpoint startAll (users : list Json) (w : World Env) : list Conversion * World Env :=
  match users with
  | [] => ([], w)
  | user :: rest =>
      let '(conversion, w1) := startConversion user w in
      let '(conversions, w2) := startAll rest w1 in
      (conversion :: conversions, w2)
  end.

(** The conversion at position [i] resumes; one that has settled stays as
    it is. *)
Definition resumeAt (i : nat) (conversions : list Conversion) (w : World Env)
    : list Conversion * World Env :=
  match conversions !! i with
  | Some conversion =>
      let '(outcome, w') := finishConversion conversion w in
      (<[i := Settled outcome]> conversions, w')
  | None => (conversions, w)
  end.

(** The geocoding answers arrive in an order the program does not choose:
    [arrival] lists the positions in the order of arrival. *)
Fixpoint resumeIn (arrival : list nat) (conversions : list Conversion) (w : World Env)
    : list Conversion * World Env :=
  match arrival with
  | [] => (conversions, w)
  | i :: later =>
      let '(conversions', w') := resumeAt i conversions w in
      resumeIn later conversions' w'
  end.

(** The conversions that [arrival] does not name resume last, in list
    order; then every promise has settled. *)
Fixpoint settleAll (conversions : list Conversion) (w : World Env)
    : list (Outcome (UserWeatherData Weather)) * World Env :=
  match conversions with
  | [] => ([], w)
  | conversion :: rest =>
      let '(outcome, w1) := finishConversion conversion w in
      let '(outcomes, w2) := settleAll rest w1 in
      (outcome :: outcomes, w2)
  end.

(** [await Promise.all(validatedUsers.map(...))]. Every geocoding call is
    made before any answer is looked at; the weather calls follow in the
    order in which the geocoding answers arrive. The world returned is
    the one in which every conversion has finished. *)
Definition promise_all (arrival : list nat) (users : list Json)
    : Eff (World Env) (list (UserWeatherData Weather)) :=
  fun w =>
    let '(conversionPromises, w1) := startAll users w in
    let '(resumed, w2) := resumeIn arrival conversionPromises w1 in
    let '(outcomes, w3) := settleAll resumed w2 in
    (all_fulfilled outcomes, w3).

(** The batch conversion, for the order [arrival] in which the geocoding
    answers come back. *)
Definition convertUsersToUserWeatherData (arrival : list nat) (users : Json)
    : Eff (World Env) (list (UserWeatherData Weather)) :=
  try_catch
    (validatedUsers <- pure_call (DistSchemas.validateUsers users) ;;
     results <- promise_all arrival (map json_of_user validatedUsers) ;;
     ret results)
    (fun error =>
       match error with
       | TErr (ZodErr issues) =>
           throw (TErr (Err "Error" ("Invalid users array: " +:+ zodMessage issues)))
       | _ => throw error
       end).

End DistUserWeatherConverter.
End DistUserWeatherConverter.

(* ===================================================================== *)
(** * utils/api-helper.ts: handleApiError *)
(* ===================================================================== *)

Module APIHelperRest.
Import QArith Qpower Qminmax.

(** [APIHelper.handleApiError(error, retryCount)] for an integer
    [retryCount]. [Math.pow(2, 3 - retryCount)] is a fraction once
    [retryCount] exceeds 3, so the wait is a rational number of
    milliseconds; JavaScript's numbers hold these powers of two exactly
    as long as they do not underflow, which takes a [retryCount] above
    1000. The result carries the waits made. [error] is whatever the
    caller passes in, an Error object or a string. *)
Definition handleApiError (error : Thrown) (retryCount : Z) : Outcome unit * list Q :=
  if (0 <? retryCount)%Z then
    let delay := Qmin (1000 * 2 ^ (3 - retryCount))%Q 5000%Q in
    (Return tt, [delay])
  else (Throw error, []).

End APIHelperRest.

(* ===================================================================== *)
(** * dist/services/user.schemas.js: the API response *)
(* ===================================================================== *)

Module DistResponse.

(** The optional metadata of an API response. *)
Record ApiInfo : Type := {
  seed : option string;
  info_results : option Z;
  page : option Z;
  version : option string
}.

Record UserApiResponse : Type := { results : list User; info : option ApiInfo }.

(** [z.number()] on the numbers of the model. *)
Definition z_number : Schema Z :=
  fun path v =>
    match v with
    | JNum n => Valid n
    | _ => Invalid [mkIssue path invalid_type]
    end.

(** [schema.optional()]: [undefined] is accepted as it is. *)
Definition z_optional {A} (schema : Schema A) : Schema (option A) :=
  fun path v =>
    match v with
    | JUndefined => Valid None
    | _ => pmap Some (schema path v)
    end.

Section DistResponse.
Context {platform : Platform}.

Definition InfoSchema : Schema ApiInfo :=
  z_object (fun path fields =>
    both (fun (f : option string -> ApiInfo) x => f x)
      (both3 Build_ApiInfo
         (field (z_optional (z_string [])) "seed" path fields)
         (field (z_optional z_number) "results" path fields)
         (field (z_optional z_number) "page" path fields))
      (field (z_optional (z_string [])) "version" path fields)).

Definition UserApiResponseSchema : Schema UserApiResponse :=
  z_object (fun path fields =>
    both Build_UserApiResponse
      (field (z_array_min DistSchemas.UserSchema 1) "results" path fields)
      (field (z_optional InfoSchema) "info" path fields)).

(** [UserValidator.validateApiResponse] *)
Definition validateApiResponse (data : Json) : Outcome UserApiResponse :=
  parse UserApiResponseSchema data.

(** [UserUtils.getLocationDisplay] and [UserUtils.sanitizeUserData] *)
Definition getLocationDisplay (user : Json) : Outcome string :=
  match DistSchemas.validateUser user with
  | Return validatedUser =>
      Return (city (location validatedUser) +:+ ", " +:+ country (location validatedUser))
  | Throw e => Throw e
  end.

Definition sanitizeUserData (userData : Json) : Outcome User := DistSchemas.validateUser userData.

End DistResponse.
End DistResponse.

(* ===================================================================== *)
(** * dist/services/user-service.js: fetching and single users *)
(* ===================================================================== *)

Module DistUserFetch.
Section DistUserFetch.
Context {Env Num Weather : Type} {platform : Platform} {config : Config} {services : Services Env Num Weather}.
Import CacheManager.

Definition fetchFreshUsers_operation (count : Z) : Eff (World Env) (list User) :=
  let url := "https://randomuser.me/api/?results=" +:+ pretty count
             +:+ "&inc=name,location,picture" in
  try_catch
    (rawData <- APIHelper.fetchData url "Failed to fetch users from randomuser.me API" ;;
     validatedResponse <- pure_call (DistResponse.validateApiResponse rawData) ;;
     let validatedUsers := DistResponse.results validatedResponse in
     (* a count other than the requested one is only logged *)
     setItem USERS (JArr (map json_of_user validatedUsers)) ;;;
     ret validatedUsers)
    (fun error =>
       match error with
       | TErr (ZodErr issues) =>
           throw (TErr (Err "Error" ("Invalid user data from API: " +:+ zodMessage issues)))
       | _ => throw error
       end).

Definition fetchFreshUsers (count : Z) : Eff (World Env) (list User) :=
  removeItem USERS ;;;
  (fun w =>
     let '(r, w', _) :=
       RetryHelper.retryApiCall (fetchFreshUsers_operation count)
         {| maxAttempts := DEFAULT_RETRY_ATTEMPTS;
            baseDelay := DEFAULT_RETRY_DELAY;
            maxDelay := 5000 |}
         "User API with Zod validation" w in
     (r, w')).

Definition getUsers (count : Z) : Eff (World Env) (list User) :=
  cachedUsers <- DistUserService.getCachedUsers ;;
  match cachedUsers with
  | Some cached =>
      if Z.of_nat (length cached) >=? count then ret (js_slice0 cached count)
      else fetchFreshUsers count
  | None => fetchFreshUsers count
  end.

Definition validateSingleUser (userData : Json) : Outcome User :=
  match DistSchemas.validateUser userData with
  | Return u => Return u
  | Throw (TErr (ZodErr issues)) =>
      Throw (TErr (Err "Error" ("Invalid user data: " +:+ zodMessage issues)))
  | Throw error => Throw error
  end.

(** The result object [{success, user, error}] as a [SafeResult]. *)
Definition safeValidateSingleUser (userData : Json) : SafeResult User :=
  match DistSchemas.safeValidateUser userData with
  | Success data => Success data
  | Failure error => Failure error
  end.

End DistUserFetch.
End DistUserFetch.

(* ===================================================================== *)
(** * dist/converters/user-weather-converter.js: the safe forms *)
(* ===================================================================== *)

Module DistConverterRest.
Section DistConverterRest.
Context {Env Num Weather : Type} {platform : Platform} {services : Services Env Num Weather}.

(** The result object [{success, data, error}] as a [SafeResult]. *)
Definition safeConvertUserToUserWeatherData (userData : Json)
    : Eff (World Env) (SafeResult (UserWeatherData Weather)) :=
  try_catch
    (match DistSchemas.safeValidateUser userData with
     | Failure error => ret (Failure ("User validation failed: " +:+ error))
     | Success data =>
         userWeatherData <-
           DistUserWeatherConverter.convertUserToUserWeatherData (json_of_user data) ;;
         ret (Success userWeatherData)
     end)
    (fun error =>
       ret (Failure match error with
                    | TErr e => error_message e
                    | TVal _ => "Unknown conversion error"
                    end)).

Definition validateUserWeatherData (userWeatherData : UserWeatherData Weather)
    : Outcome (UserWeatherData Weather) :=
  match DistSchemas.validateUser (user userWeatherData) with
  | Return validatedUser =>
      Return (Build_UserWeatherData (json_of_user validatedUser) (weather userWeatherData))
  | Throw (TErr (ZodErr issues)) =>
      Throw (TErr (Err "Error" ("Invalid UserWeatherData: " +:+ zodMessage issues)))
  | Throw error => Throw error
  end.

End DistConverterRest.
End DistConverterRest.

(* ===================================================================== *)
(** * Vocabulary of the statements *)
(* ===================================================================== *)

Module RetrySpec.
Section RetrySpec.
Context {St T : Type}.
Variable operation : Eff St T.
Variable options : RetryOptions.

(** The state after [k] runs of the operation (sleeping changes nothing the
    operation can observe). *)
Fixpoint after (k : nat) (s : St) : St :=
  match k with
  | O => s
  | S k' => after k' (snd (operation s))
  end.

(** The outcome of attempt number [k + 1]. *)
Definition outcome_of (k : nat) (s : St) : Outcome T := fst (operation (after k s)).

(** The wait that follows a failed attempt [k]. *)
Definition backoff (k : Z) : Z :=
  Z.min (baseDelay options * 2 ^ (k - 1)) (maxDelay options).

(** [n] attempts numbered from [start], with the wait after each but the last. *)
Fixpoint schedule (start : Z) (n : nat) : list RetryEvent :=
  match n with
  | O => []
  | S n' =>
      match n' with
      | O => [Invoke start]
      | S _ => Invoke start :: Delay (backoff start) :: schedule (start + 1) n'
      end
  end.

End RetrySpec.

Definition invocations (events : list RetryEvent) : list Z :=
  omap (fun e => match e with Invoke k => Some k | Delay _ => None end) events.

Definition delays (events : list RetryEvent) : list Z :=
  omap (fun e => match e with Delay d => Some d | Invoke _ => None end) events.

(** The result the retry loop reports for the outcome of its last attempt. *)
Definition reported {T} (o : Outcome T) : Outcome T :=
  match o with
  | Return v => Return v
  | Throw error => Throw (TErr (toError error))
  end.

End RetrySpec.

(** The value found by following [keys] into nested objects. *)
Definition at_path (v : Json) (keys : list string) : Json :=
  fold_left (fun v k => match v with JObj fields => obj_get fields k | _ => JUndefined end) keys v.

(** A string with no white space at either end. *)
Definition trimmed (s : string) : Prop := js_trim s = s.

(** A failed schema result names at least one issue. *)
Definition has_issues {A} (p : Parsed A) : Prop :=
  match p with
  | Valid _ => True
  | Invalid issues => issues <> []
  end.

(** The field is missing, is no string, or is the empty string. *)
Definition absent_or_empty (v : Json) : Prop := forall s, v = JStr s -> s = "".

(** The field is missing, is no string, or is a string the URL check rejects. *)
Definition not_a_url {platform : Platform} (v : Json) : Prop := forall s, v = JStr s -> isUrl s = false.

Module ConvertSpec.
Section ConvertSpec.
Context {Env Num Weather : Type} {platform : Platform} {services : Services Env Num Weather}.

(** The geocoding call for the validated user [v], made in world [w], fails. *)
Definition geocoding_fails (v : User) (w : World Env) : Prop :=
  is_throw (fst (getCoordinates (Schemas.getLocationQuery v) (env w))) = true.

(** The geocoding call succeeds and the weather call that follows it fails. *)
Definition weather_fails (v : User) (w : World Env) : Prop :=
  exists g e,
    getCoordinates (Schemas.getLocationQuery v) (env w) = (Return g, e) /\
    is_throw (fst (getCurrentWeather (lat g) (lng g) e)) = true.

(** What the conversion of the validated user [v] comes to when its
    geocoding call is made in [eg] and its weather call in [ew]: the user
    itself, with the reading of the weather call, or with no reading when
    [v] does not validate again, the geocoding call fails or the weather
    call fails. *)
Definition conversion_of (v : User) (eg ew : Env) : UserWeatherData Weather :=
  Build_UserWeatherData (json_of_user v)
    (if is_throw (Schemas.validateUser (json_of_user v)) then None
     else
       match fst (getCoordinates (Schemas.getLocationQuery v) eg) with
       | Throw _ => None
       | Return g =>
           match fst (getCurrentWeather (lat g) (lng g) ew) with
           | Return reading => Some reading
           | Throw _ => None
           end
       end).

(** The geocoding queries a batch makes for the validated users [vs]: one
    for each user that validates again, in list order. *)
Definition geocoding_queries (vs : list User) : list string :=
  omap (fun v => if is_throw (Schemas.validateUser (json_of_user v)) then None
                 else Some (Schemas.getLocationQuery v)) vs.

(** The number of conversions that wait for their geocoding answer. *)
Fixpoint suspended (cs : list (@DistUserWeatherConverter.Conversion Num Weather)) : nat :=
  match cs with
  | [] => 0
  | DistUserWeatherConverter.Suspended _ _ _ :: rest => S (suspended rest)
  | DistUserWeatherConverter.Settled _ :: rest => suspended rest
  end.

(** A conversion of the batch belongs to the validated user [v]: it is
    suspended on the answer of a geocoding call for [v], or it has
    settled with a conversion of [v]. *)
Definition conversion_for (v : User) (c : @DistUserWeatherConverter.Conversion Num Weather)
    : Prop :=
  match c with
  | DistUserWeatherConverter.Suspended user v' answer =>
      user = json_of_user v /\ v' = v /\
      Schemas.validateUser (json_of_user v) = Return v /\
      exists eg, answer = fst (getCoordinates (Schemas.getLocationQuery v) eg)
  | DistUserWeatherConverter.Settled outcome =>
      exists eg ew, outcome = Return (conversion_of v eg ew)
  end.

End ConvertSpec.
End ConvertSpec.

Module CacheSpec.
Section CacheSpec.
Context {Env Num Weather : Type} {platform : Platform} {config : Config} {services : Services Env Num Weather}.

(** The world once the users entry is removed from the cache. *)
Definition removed (w : World Env) : World Env :=
  mkWorld (delete USERS (cache w)) (env w) (trace w ++ [EvRemove USERS]).


End CacheSpec.
End CacheSpec.

(** The invariant of a validated user: name and location strings carry no
    surrounding white space. *)
Definition User_trimmed (u : User) : Prop :=
  trimmed (first (name u)) /\ trimmed (last (name u)) /\
  trimmed (city (location u)) /\ trimmed (country (location u)).

(* ===================================================================== *)
(** * Sample inputs *)
(* ===================================================================== *)

Module Samples.

(** The options of the spec's example: three attempts, 100 ms, capped at 5 s. *)
Definition options_3_100_5000 : RetryOptions :=
  {| maxAttempts := 3; baseDelay := 100; maxDelay := 5000 |}.

Definition options_none : RetryOptions :=
  {| maxAttempts := 0; baseDelay := 100; maxDelay := 5000 |}.

(** An operation that fails on its first two runs and then succeeds; the
    state counts the runs. *)
Definition flaky : Eff nat string :=
  fun calls =>
    (if (calls <? 2)%nat then Throw (TErr (Err "Error" "HTTP 503")) else Return "ok", S calls).

(** An operation that throws a string, not an Error. *)
Definition always_boom : Eff nat string :=
  fun calls => (Throw (TVal (JStr "boom")), S calls).

(** A stand-in for the platform, enough to run the model on the samples:
    the URL check accepts the strings that start with http:// or https://. *)
Definition samplePlatform : Platform :=
  {| isUrl := fun s => String.prefix "http://" s || String.prefix "https://" s;
     zodMessage := fun _ => "Validation failed" |}.

Definition raw_user (f l c k p : string) : Json :=
  JObj [ ("name", JObj [("first", JStr f); ("last", JStr l)]);
         ("location", JObj [("city", JStr c); ("country", JStr k)]);
         ("picture", JObj [("large", JStr p)]) ].

Definition portrait : string := "https://randomuser.me/api/portraits/men/1.jpg".

(** The valid user of the repository's validation example. *)
Definition john : Json := raw_user "John" "Doe" "New York" "United States" portrait.

(** The same user with a first name made of one space. *)
Definition blank_first : Json := raw_user " " "Doe" "New York" "United States" portrait.

(** The same user as an API might send it, with padding around the names. *)
Definition padded_john : Json := raw_user " John " "Doe" " New York" "United States" portrait.

(** Modelled from the spec: services/weather.types is not among the
    sources; section 3 gives WeatherData as
    [{temperature, condition, humidity, stale}]. *)
Record WeatherData : Type := {
  temperature : Z;
  condition : string;
  humidity : Z;
  stale : bool
}.

Definition sunny : WeatherData :=
  {| temperature := 21; condition := "Sunny"; humidity := 40; stale := false |}.

Definition sampleConfig : Config :=
  {| USERS := "users";
     DEFAULT_USER_COUNT := 10;
     DEFAULT_RETRY_ATTEMPTS := 3;
     DEFAULT_RETRY_DELAY := 1000 |}.

(** Remote services that are all down; the outside world counts the calls. *)
Definition servicesDown : Services nat Z WeatherData :=
  {| fetch := fun _ n => (Throw (TErr (Err "TypeError" "Failed to fetch")), S n);
     getCoordinates := fun _ n => (Throw (TErr (Err "Error" "Location not found")), S n);
     getCurrentWeather := fun _ _ n => (Throw (TErr (Err "Error" "Weather unavailable")), S n) |}.

Definition atlantis : Json := raw_user "Nemo" "Nobody" "Atlantis" "Nowhere" portrait.

(** Remote services that work, except that the geocoder does not know
    Atlantis; the user API answers with one user. *)
Definition servicesUp : Services nat Z WeatherData :=
  {| fetch := fun _ n =>
       (Return {| ok := true; status := 200; statusText := "OK";
                  json := Return (JObj [("results", JArr [padded_john])]) |}, S n);
     getCoordinates := fun query n =>
       (if String.eqb query "Atlantis, Nowhere"
        then Throw (TErr (Err "Error" "Location not found"))
        else Return {| lat := 40; lng := -74 |}, S n);
     getCurrentWeather := fun _ _ n => (Return sunny, S n) |}.

(** A user API that answers with one user whose first name is a single
    space; the other services work. *)
Definition servicesBlank : Services nat Z WeatherData :=
  {| fetch := fun _ n =>
       (Return {| ok := true; status := 200; statusText := "OK";
                  json := Return (JObj [("results", JArr [blank_first])]) |}, S n);
     getCoordinates := fun _ n => (Return {| lat := 40; lng := -74 |}, S n);
     getCurrentWeather := fun _ _ n => (Return sunny, S n) |}.

Definition emptyWorld : World nat := mkWorld ∅ 0%nat [].

(** A cache whose users entry is as given. *)
Definition cached (stored : Json) : World nat := mkWorld {[ "users" := stored ]} 0%nat [].

(** An array that looks like user data at its first element only. *)
Definition lookalike : Json := JArr [JObj [("name", JObj []); ("location", JObj [])]].

End Samples.

(* ===================================================================== *)
(** * Vocabulary of the further properties *)
(* ===================================================================== *)


(* ===================================================================== *)
(** * Proof tools *)
(* ===================================================================== *)

(** Case analysis on the innermost scrutinee of the matches in [H]. *)
Ltac destruct_innermost x :=
  lazymatch x with
  | context [match ?y with _ => _ end] => destruct_innermost y
  | _ => destruct x eqn:?
  end.

Ltac split_match_hyp H :=
  repeat match type of H with
         | context [match ?x with _ => _ end] =>
             destruct_innermost x; cbn in H; try discriminate H
         end.

(** Unfolds the combinators of [Eff] and the service calls. *)
Ltac eff_unfold :=
  unfold try_catch, bind, ret, throw, pure_call,
    ServiceCalls.geocode, ServiceCalls.currentWeather in *.

(* ===================================================================== *)
(** * Facts about the retry helper *)
(* ===================================================================== *)

Section RetryFacts.
Context {St T : Type}.
Variable operation : Eff St T.
Variable options : RetryOptions.
Import RetryHelper RetrySpec.

Lemma outcome_of_succ k s :
  outcome_of operation (S k) s = outcome_of operation k (snd (operation s)).
Proof. reflexivity. Qed.

Lemma schedule_succ start n :
  (1 <= n)%nat ->
  schedule options start (S n)
  = Invoke start :: Delay (backoff options start) :: schedule options (start + 1) n.
Proof. destruct n; [lia | reflexivity]. Qed.

(** The loop, run with [remaining] iterations left at attempt [attempt],
    stops after some [n] attempts: the first [n - 1] failed, and the last
    one succeeded or was attempt [maxAttempts]. *)
Lemma retry_loop_run remaining :
  forall attempt lastError s,
    (1 <= remaining)%nat ->
    Z.of_nat remaining = maxAttempts options + 1 - attempt ->
    exists n,
      (1 <= n <= remaining)%nat /\
      retry_loop operation options remaining attempt lastError s
      = (reported (outcome_of operation (n - 1) s), after operation n s,
         schedule options attempt n) /\
      (forall i, (i < n - 1)%nat -> is_throw (outcome_of operation i s) = true) /\
      (is_throw (outcome_of operation (n - 1) s) = true -> n = remaining).
Proof.
  induction remaining as [|r IH]; intros attempt lastError s Hpos Hinv; [lia|].
  cbn [retry_loop].
  destruct (operation s) as [o s1] eqn:Hop.
  destruct o as [value|error].
  - exists 1%nat. unfold outcome_of. cbn. rewrite Hop. cbn.
    split; [lia|]. split; [reflexivity|]. split; [intros i Hi; lia | discriminate].
  - destruct (Z.eqb_spec attempt (maxAttempts options)) as [Heq|Hne].
    + assert (r = 0%nat) by lia. subst r.
      exists 1%nat. unfold outcome_of. cbn. rewrite Hop. cbn.
      split; [lia|]. split; [reflexivity|]. split; [intros i Hi; lia | reflexivity].
    + assert (Hr : (1 <= r)%nat) by lia.
      destruct (IH (attempt + 1) (toError error) s1 Hr ltac:(lia))
        as (n & Hn & Hrun & Hfail & Hlast).
      rewrite Hrun.
      exists (S n). split; [lia|]. split; [|split].
      * rewrite schedule_succ by lia.
        replace (S n - 1)%nat with (S (n - 1)) by lia.
        rewrite outcome_of_succ. cbn [after]. rewrite Hop. reflexivity.
      * intros i Hi. destruct i as [|i].
        -- unfold outcome_of. cbn. rewrite Hop. reflexivity.
        -- rewrite outcome_of_succ, Hop. apply Hfail. lia.
      * replace (S n - 1)%nat with (S (n - 1)) by lia.
        rewrite outcome_of_succ, Hop. cbn [snd]. intros Hc. f_equal. auto.
Qed.

Lemma invocations_schedule start n :
  invocations (schedule options start n) = map (fun i => start + Z.of_nat i) (seq 0 n).
Proof.
  revert start. induction n as [|n IH]; intros start; [reflexivity|].
  destruct n as [|n].
  - cbn. f_equal. lia.
  - rewrite schedule_succ by lia. cbn [invocations omap list_omap]. 
    change (omap _ (schedule options (start + 1) (S n)))
      with (invocations (schedule options (start + 1) (S n))).
    rewrite IH. change (seq 0 (S (S n))) with (0%nat :: seq 1 (S n)).
    rewrite <- seq_shift. cbn [map]. rewrite map_map. f_equal; [lia|].
    apply map_ext. intros a. lia.
Qed.

Lemma delays_schedule start n :
  delays (schedule options start n)
  = map (fun i => backoff options (start + Z.of_nat i)) (seq 0 (n - 1)).
Proof.
  revert start. induction n as [|n IH]; intros start; [reflexivity|].
  destruct n as [|n].
  - reflexivity.
  - rewrite schedule_succ by lia. cbn [delays omap list_omap].
    change (omap _ (schedule options (start + 1) (S n)))
      with (delays (schedule options (start + 1) (S n))).
    rewrite IH. replace (S (S n) - 1)%nat with (S n) by lia.
    replace (S n - 1)%nat with n by lia.
    change (seq 0 (S n)) with (0%nat :: seq 1 n).
    rewrite <- seq_shift. cbn [map]. rewrite map_map. f_equal; [f_equal; lia|].
    apply map_ext. intros a. f_equal. lia.
Qed.

End RetryFacts.

Section RetryClaims.
Context {St T : Type}.
Variable operation : Eff St T.
Variable options : RetryOptions.
Import RetryHelper RetrySpec.

(** C2. With [maxAttempts >= 1] the retry helper runs the operation [n]
    times for some [1 <= n <= maxAttempts], numbered 1..n; after each
    failed attempt [k < n] it waits [min (baseDelay * 2^(k-1)) maxDelay]
    and nothing else happens in between; every attempt before the last
    failed, a last attempt that failed is attempt [maxAttempts], and the
    first attempt that succeeds ends the call with that attempt's value. *)
Theorem retryApiCall_backoff operationName s :
  1 <= maxAttempts options ->
  exists n : nat,
    (1 <= n)%nat /\ Z.of_nat n <= maxAttempts options /\
    retryApiCall operation options operationName s
    = (reported (outcome_of operation (n - 1) s), after operation n s, schedule options 1 n) /\
    invocations (schedule options 1 n) = map Z.of_nat (seq 1 n) /\
    delays (schedule options 1 n)
    = map (fun k => Z.min (baseDelay options * 2 ^ (Z.of_nat k - 1)) (maxDelay options))
          (seq 1 (n - 1)) /\
    (forall i, (i < n - 1)%nat -> is_throw (outcome_of operation i s) = true) /\
    (is_throw (outcome_of operation (n - 1) s) = true -> Z.of_nat n = maxAttempts options) /\
    (forall j value,
        Z.of_nat j < maxAttempts options ->
        (forall i, (i < j)%nat -> is_throw (outcome_of operation i s) = true) ->
        outcome_of operation j s = Return value ->
        n = S j /\
        retryApiCall operation options operationName s
        = (Return value, after operation (S j) s, schedule options 1 (S j))).
Proof.
  intros Hmax. unfold retryApiCall.
  destruct (retry_loop_run operation options (Z.to_nat (maxAttempts options)) 1
              (Err "Error" "Unknown error") s ltac:(lia) ltac:(lia))
    as (n & Hn & Hrun & Hfail & Hlast).
  exists n. split; [lia|]. split; [lia|]. split; [exact Hrun|].
  split.
  { rewrite invocations_schedule. rewrite <- seq_shift, map_map.
    apply map_ext. intros a. lia. }
  split.
  { rewrite delays_schedule. rewrite <- seq_shift, map_map.
    apply map_ext. intros a. unfold backoff. do 3 f_equal. lia. }
  split; [exact Hfail|].
  split; [intros Hthrow; specialize (Hlast Hthrow); lia|].
  intros j value Hj Hbefore Hsucc.
  assert (n = S j) as ->.
  { destruct (lt_eq_lt_dec (n - 1) j) as [[Hlt|Heq]|Hgt].
    - specialize (Hbefore _ Hlt). specialize (Hlast Hbefore). lia.
    - lia.
    - specialize (Hfail _ Hgt). rewrite Hsucc in Hfail. discriminate. }
  split; [reflexivity|]. rewrite Hrun.
  replace (S j - 1)%nat with j by lia. rewrite Hsucc. reflexivity.
Qed.

(** C3, as amended. When every one of the [maxAttempts >= 1] attempts fails,
    the call rejects with what the last attempt threw if that is an Error
    object (of any class), unchanged; a thrown value that is no Error
    object is re-raised as a new Error whose message is [String(value)]. *)
Theorem retryApiCall_exhausted operationName s :
  1 <= maxAttempts options ->
  (forall i, (i < Z.to_nat (maxAttempts options))%nat ->
             is_throw (outcome_of operation i s) = true) ->
  exists error,
    outcome_of operation (Z.to_nat (maxAttempts options) - 1) s = Throw error /\
    fst (fst (retryApiCall operation options operationName s)) = Throw (TErr (toError error)) /\
    (forall e, error = TErr e ->
               fst (fst (retryApiCall operation options operationName s)) = Throw error) /\
    (forall v, error = TVal v ->
               fst (fst (retryApiCall operation options operationName s))
               = Throw (TErr (Err "Error" (js_String v)))).
Proof.
  intros Hmax Hall. unfold retryApiCall.
  destruct (retry_loop_run operation options (Z.to_nat (maxAttempts options)) 1
              (Err "Error" "Unknown error") s ltac:(lia) ltac:(lia))
    as (n & Hn & Hrun & Hfail & Hlast).
  assert (Hthrow : is_throw (outcome_of operation (n - 1) s) = true)
    by (apply Hall; lia).
  specialize (Hlast Hthrow). subst n.
  destruct (outcome_of operation (Z.to_nat (maxAttempts options) - 1) s)
    as [value|error] eqn:Hout; [discriminate|].
  exists error. rewrite Hrun. cbn.
  split; [reflexivity|]. split; [reflexivity|].
  split; intros x ->; reflexivity.
Qed.

(** C10. With [maxAttempts <= 0] the operation is never run: the call
    rejects with the placeholder Error "Unknown error", in the state it
    was called in and without a single attempt or wait. *)
Theorem retryApiCall_no_attempts operationName s :
  maxAttempts options <= 0 ->
  retryApiCall operation options operationName s
  = (Throw (TErr (Err "Error" "Unknown error")), s, []).
Proof.
  intros Hmax. unfold retryApiCall.
  replace (Z.to_nat (maxAttempts options)) with 0%nat by lia. reflexivity.
Qed.

End RetryClaims.

(** The spec's example for C2: failing twice, then succeeding, under
    (3, 100, 5000) yields the value after waits of 100 and 200 ms. *)
Lemma retryApiCall_backoff_witness :
  1 <= maxAttempts Samples.options_3_100_5000 /\
  RetryHelper.retryApiCall Samples.flaky Samples.options_3_100_5000 "flaky" 0%nat
  = (Return "ok", 3%nat, [Invoke 1; Delay 100; Invoke 2; Delay 200; Invoke 3]).
Proof.
  assert (H : 1 <= maxAttempts Samples.options_3_100_5000) by (cbn; lia).
  split; [exact H|].
  destruct (retryApiCall_backoff Samples.flaky Samples.options_3_100_5000 "flaky" 0%nat H)
    as (n & _ & _ & _ & _ & _ & _ & _ & Hfirst).
  destruct (Hfirst 2%nat "ok") as [_ Hrun].
  - cbn; lia.
  - intros i Hi. destruct i as [|[|i]]; [reflexivity | reflexivity | lia].
  - reflexivity.
  - exact Hrun.
Defined.

(** C3 fails as stated: an operation that throws the string "boom" makes
    the call reject with a new Error object, not with that string. *)
Lemma retryApiCall_wraps_non_errors :
  RetrySpec.outcome_of Samples.always_boom 2 0%nat = Throw (TVal (JStr "boom")) /\
  fst (fst (RetryHelper.retryApiCall Samples.always_boom Samples.options_3_100_5000 "boom" 0%nat))
  = Throw (TErr (Err "Error" "boom")) /\
  @Throw string (TErr (Err "Error" "boom")) <> Throw (TVal (JStr "boom")).
Proof. split; [reflexivity|]. split; [reflexivity|]. discriminate. Qed.

Lemma retryApiCall_exhausted_witness :
  1 <= maxAttempts Samples.options_3_100_5000 /\
  fst (fst (RetryHelper.retryApiCall Samples.always_boom Samples.options_3_100_5000 "boom" 0%nat))
  = Throw (TErr (Err "Error" "boom")).
Proof.
  assert (H : 1 <= maxAttempts Samples.options_3_100_5000) by (cbn; lia).
  split; [exact H|].
  destruct (retryApiCall_exhausted Samples.always_boom Samples.options_3_100_5000 "boom" 0%nat H)
    as (error & Hlast & Hres & _).
  - intros i _. reflexivity.
  - rewrite Hres. cbn in Hlast. injection Hlast as <-. reflexivity.
Defined.

Lemma retryApiCall_no_attempts_witness :
  maxAttempts Samples.options_none <= 0 /\
  RetryHelper.retryApiCall Samples.flaky Samples.options_none "flaky" 0%nat
  = (Throw (TErr (Err "Error" "Unknown error")), 0%nat, []).
Proof.
  split; [cbn; lia|].
  apply (retryApiCall_no_attempts Samples.flaky Samples.options_none "flaky" 0%nat).
  cbn; lia.
Defined.

(* ===================================================================== *)
(** * Facts about trimming and the schemas *)
(* ===================================================================== *)

Lemma trimEnd_idem s : trimEnd (trimEnd s) = trimEnd s.
Proof.
  induction s as [|c r IH]; [reflexivity|].
  cbn [trimEnd]. destruct (trimEnd r) as [|c' r'] eqn:Hr.
  - destruct (is_ws c) eqn:Hc; cbn [trimEnd]; [reflexivity|]. rewrite Hc. reflexivity.
  - cbn [trimEnd] in *. rewrite IH. reflexivity.
Qed.

Lemma trimStart_head s c r : trimStart s = String c r -> is_ws c = false.
Proof.
  induction s as [|c0 r0 IH]; cbn; [discriminate|].
  destruct (is_ws c0) eqn:Hc; [exact IH|]. intros [= <- <-]. exact Hc.
Qed.

Lemma trimEnd_head c r : is_ws c = false -> exists r', trimEnd (String c r) = String c r'.
Proof.
  intros Hc. cbn [trimEnd]. destruct (trimEnd r); rewrite ?Hc; eauto.
Qed.

Lemma js_trim_idem s : js_trim (js_trim s) = js_trim s.
Proof.
  unfold js_trim. destruct (trimStart s) as [|c r] eqn:Hs; [reflexivity|].
  destruct (trimEnd_head c r (trimStart_head _ _ _ Hs)) as [r' Hr'].
  rewrite Hr'. cbn [trimStart]. rewrite (trimStart_head _ _ _ Hs).
  rewrite <- Hr'. apply trimEnd_idem.
Qed.

Lemma js_trim_trimmed s : trimmed (js_trim s).
Proof. apply js_trim_idem. Qed.

Lemma length_lt_1 s : (String.length s <? 1)%nat = true <-> s = "".
Proof.
  destruct s; cbn; split; intros Hs; try reflexivity; try discriminate.
Qed.

Lemma js_trim_nonempty s : js_trim s <> "" -> s <> "".
Proof. intros Hs ->. apply Hs. reflexivity. Qed.

Example js_String_values :
  map js_String [JNum (-5); JNull; JArr [JNum 1; JNull; JArr [JStr "a"; JBool true]]; JObj []]
  = ["-5"; "null"; "1,,a,true"; "[object Object]"].
Proof. reflexivity. Qed.

Example js_slice0_counts :
  (js_slice0 [1; 2; 3] 2, js_slice0 [1; 2; 3] 5, js_slice0 [1; 2; 3] (-1))
  = ([1; 2], [1; 2; 3], [1; 2]).
Proof. reflexivity. Qed.

Example js_trim_padded : js_trim "  New York " = "New York".
Proof. reflexivity. Qed.

Example js_trim_blank : js_trim " " = "".
Proof. reflexivity. Qed.

Section SchemaFacts.
Context {platform : Platform}.
Import Schemas.

(** [z.string().min(1).trim()]: the length is tested on the string as
    given, and the string is trimmed afterwards. *)
Lemma z_string_min1_trim path v :
  z_string [min 1; trim] path v
  = match v with
    | JStr s => if String.eqb s "" then Invalid [mkIssue path too_small] else Valid (js_trim s)
    | _ => Invalid [mkIssue path invalid_type]
    end.
Proof.
  destruct v; try reflexivity. destruct s; reflexivity.
Qed.

Lemma z_string_url path v :
  z_string [url] path v
  = match v with
    | JStr s => if isUrl s then Valid s else Invalid [mkIssue path invalid_string]
    | _ => Invalid [mkIssue path invalid_type]
    end.
Proof.
  destruct v; try reflexivity. cbn. destruct (isUrl s); reflexivity.
Qed.

Lemma has_issues_both {A B C} (f : A -> B -> C) x y :
  has_issues x -> has_issues y -> has_issues (both f x y).
Proof.
  destruct x as [a|i], y as [b|j]; cbn; auto.
  intros Hi _ Happ. apply app_eq_nil in Happ. tauto.
Qed.

Lemma has_issues_pmap {A B} (f : A -> B) x : has_issues x -> has_issues (pmap f x).
Proof. destruct x; cbn; auto. Qed.

Lemma has_issues_min1_trim path v : has_issues (z_string [min 1; trim] path v).
Proof.
  rewrite z_string_min1_trim. destruct v; cbn; try discriminate.
  destruct (String.eqb s ""); cbn; [discriminate | exact I].
Qed.

Lemma has_issues_url path v : has_issues (z_string [url] path v).
Proof.
  rewrite z_string_url. destruct v; cbn; try discriminate.
  destruct (isUrl s); cbn; [exact I | discriminate].
Qed.

Lemma has_issues_UserSchema path v : has_issues (UserSchema path v).
Proof.
  unfold UserSchema, z_object. destruct v; cbn; try discriminate.
  unfold both3. apply has_issues_both; [apply has_issues_both|]; unfold field.
  - unfold UserNameSchema, z_object.
    destruct (obj_get fields "name"); cbn; try discriminate.
    apply has_issues_both; apply has_issues_min1_trim.
  - unfold UserLocationSchema, z_object.
    destruct (obj_get fields "location"); cbn; try discriminate.
    apply has_issues_both; apply has_issues_min1_trim.
  - unfold UserPictureSchema, z_object.
    destruct (obj_get fields "picture"); cbn; try discriminate.
    apply has_issues_pmap, has_issues_url.
Qed.

Lemma UserNameSchema_Valid path v n :
  UserNameSchema path v = Valid n ->
  exists f l,
    at_path v ["first"] = JStr f /\ at_path v ["last"] = JStr l /\
    f <> "" /\ l <> "" /\ n = Build_UserName (js_trim f) (js_trim l).
Proof.
  unfold UserNameSchema, z_object, field. destruct v; try discriminate.
  rewrite !z_string_min1_trim. cbn [at_path fold_left].
  intros Hv. split_match_hyp Hv.
  injection Hv as <-. do 2 eexists. repeat split; intros ->; discriminate.
Qed.

Lemma UserLocationSchema_Valid path v n :
  UserLocationSchema path v = Valid n ->
  exists c k,
    at_path v ["city"] = JStr c /\ at_path v ["country"] = JStr k /\
    c <> "" /\ k <> "" /\ n = Build_UserLocation (js_trim c) (js_trim k).
Proof.
  unfold UserLocationSchema, z_object, field. destruct v; try discriminate.
  rewrite !z_string_min1_trim. cbn [at_path fold_left].
  intros Hv. split_match_hyp Hv.
  injection Hv as <-. do 2 eexists. repeat split; intros ->; discriminate.
Qed.

Lemma UserPictureSchema_Valid path v n :
  UserPictureSchema path v = Valid n ->
  exists p, at_path v ["large"] = JStr p /\ isUrl p = true /\ n = Build_UserPicture p.
Proof.
  unfold UserPictureSchema, z_object, field. destruct v; try discriminate.
  rewrite !z_string_url. cbn [at_path fold_left].
  intros Hv. split_match_hyp Hv.
  injection Hv as <-. eexists. repeat split; assumption.
Qed.

(** What a successful validation says about its input and its result. *)
Lemma UserSchema_Valid path raw u :
  UserSchema path raw = Valid u ->
  exists f l c k p,
    at_path raw ["name"; "first"] = JStr f /\ at_path raw ["name"; "last"] = JStr l /\
    at_path raw ["location"; "city"] = JStr c /\ at_path raw ["location"; "country"] = JStr k /\
    at_path raw ["picture"; "large"] = JStr p /\
    f <> "" /\ l <> "" /\ c <> "" /\ k <> "" /\ isUrl p = true /\
    u = Build_User (Build_UserName (js_trim f) (js_trim l))
                   (Build_UserLocation (js_trim c) (js_trim k))
                   (Build_UserPicture p).
Proof.
  unfold UserSchema, z_object, both3, field. destruct raw; try discriminate.
  intros Hv.
  destruct (UserNameSchema _ _) as [n|] eqn:Hn;
    destruct (UserLocationSchema _ _) as [loc|] eqn:Hl;
    destruct (UserPictureSchema _ _) as [pic|] eqn:Hp;
    cbn in Hv; try discriminate Hv.
  injection Hv as <-.
  apply UserNameSchema_Valid in Hn as (f & l & Hf & Hl' & Hfe & Hle & ->).
  apply UserLocationSchema_Valid in Hl as (c & k & Hc & Hk & Hce & Hke & ->).
  apply UserPictureSchema_Valid in Hp as (p & Hp & Hurl & ->).
  exists f, l, c, k, p. cbn [at_path fold_left] in *.
  repeat split; assumption.
Qed.

(** The converse: five string fields, four of them not empty and the fifth
    a URL, validate to their trimmed forms. *)
Lemma UserSchema_accepts path raw f l c k p :
  at_path raw ["name"; "first"] = JStr f -> at_path raw ["name"; "last"] = JStr l ->
  at_path raw ["location"; "city"] = JStr c -> at_path raw ["location"; "country"] = JStr k ->
  at_path raw ["picture"; "large"] = JStr p ->
  f <> "" -> l <> "" -> c <> "" -> k <> "" -> isUrl p = true ->
  UserSchema path raw
  = Valid (Build_User (Build_UserName (js_trim f) (js_trim l))
                      (Build_UserLocation (js_trim c) (js_trim k))
                      (Build_UserPicture p)).
Proof.
  intros Hf Hl Hc Hk Hp Hfe Hle Hce Hke Hurl.
  destruct raw; try discriminate Hf. cbn [at_path fold_left] in *.
  unfold UserSchema, z_object, both3, field.
  unfold UserNameSchema, UserLocationSchema, UserPictureSchema, z_object, field.
  destruct (obj_get fields "name"); try discriminate Hf.
  destruct (obj_get fields "location"); try discriminate Hc.
  destruct (obj_get fields "picture"); try discriminate Hp.
  rewrite !z_string_min1_trim, z_string_url, Hf, Hl, Hc, Hk, Hp, Hurl.
  apply String.eqb_neq in Hfe, Hle, Hce, Hke. rewrite Hfe, Hle, Hce, Hke.
  reflexivity.
Qed.

Lemma validateUser_throws_ZodError raw t :
  validateUser raw = Throw t -> exists issues, issues <> [] /\ t = TErr (ZodErr issues).
Proof.
  unfold validateUser, parse. pose proof (has_issues_UserSchema [] raw) as Hi.
  destruct (UserSchema [] raw) as [u|issues]; [discriminate|].
  intros [= <-]. eauto.
Qed.

End SchemaFacts.

Section SchemaClaims.
Context {platform : Platform}.
Import Schemas.

(** The part of the validation contract that the code keeps. If the four
    name and location fields are strings that
    are not empty after trimming and [picture.large] is a string the URL
    check accepts, [validateUser] returns the user whose name and location
    strings are the given ones trimmed, each free of surrounding white
    space and not empty, and whose [picture.large] is the given string. If
    one of the four fields is missing, is no string or is the empty
    string, or [picture.large] is no string that passes the URL check,
    [validateUser] throws a ZodError with at least one issue and returns
    nothing. *)
Theorem validateUser_contract raw :
  (forall f l c k p,
      at_path raw ["name"; "first"] = JStr f -> at_path raw ["name"; "last"] = JStr l ->
      at_path raw ["location"; "city"] = JStr c ->
      at_path raw ["location"; "country"] = JStr k ->
      at_path raw ["picture"; "large"] = JStr p ->
      js_trim f <> "" -> js_trim l <> "" -> js_trim c <> "" -> js_trim k <> "" ->
      isUrl p = true ->
      exists u,
        validateUser raw = Return u /\
        first (name u) = js_trim f /\ last (name u) = js_trim l /\
        city (location u) = js_trim c /\ country (location u) = js_trim k /\
        large (picture u) = p /\
        trimmed (first (name u)) /\ trimmed (last (name u)) /\
        trimmed (city (location u)) /\ trimmed (country (location u)) /\
        first (name u) <> "" /\ last (name u) <> "" /\
        city (location u) <> "" /\ country (location u) <> "") /\
  (absent_or_empty (at_path raw ["name"; "first"]) \/
   absent_or_empty (at_path raw ["name"; "last"]) \/
   absent_or_empty (at_path raw ["location"; "city"]) \/
   absent_or_empty (at_path raw ["location"; "country"]) \/
   not_a_url (at_path raw ["picture"; "large"]) ->
   exists issues, issues <> [] /\ validateUser raw = Throw (TErr (ZodErr issues))).
Proof.
  split.
  - intros f l c k p Hf Hl Hc Hk Hp Hfe Hle Hce Hke Hurl.
    eexists. split.
    + unfold validateUser, parse.
      rewrite (UserSchema_accepts [] raw f l c k p) by eauto using js_trim_nonempty.
      reflexivity.
    + cbn. repeat split; auto using js_trim_trimmed.
  - intros Hbad. destruct (validateUser raw) as [u|t] eqn:Hv.
    + exfalso. unfold validateUser, parse in Hv.
      destruct (UserSchema [] raw) as [u'|] eqn:Hs; [|discriminate].
      apply UserSchema_Valid in Hs
        as (f & l & c & k & p & Hf & Hl & Hc & Hk & Hp & Hfe & Hle & Hce & Hke & Hurl & _).
      destruct Hbad as [Hb|[Hb|[Hb|[Hb|Hb]]]].
      * apply Hfe, Hb, Hf.
      * apply Hle, Hb, Hl.
      * apply Hce, Hb, Hc.
      * apply Hke, Hb, Hk.
      * rewrite (Hb _ Hp) in Hurl. discriminate.
    + apply validateUser_throws_ZodError in Hv as (issues & Hne & ->). eauto.
Qed.

(** A first name of white space passes [min(1)] before [trim] empties it. *)
Lemma validateUser_blank_first_name l c k p :
  l <> "" -> c <> "" -> k <> "" -> isUrl p = true ->
  validateUser (Samples.raw_user " " l c k p)
  = Return (Build_User (Build_UserName "" (js_trim l))
                       (Build_UserLocation (js_trim c) (js_trim k))
                       (Build_UserPicture p)).
Proof.
  intros Hl Hc Hk Hp. unfold validateUser, parse.
  rewrite (UserSchema_accepts [] _ " " l c k p); auto; discriminate.
Qed.

End SchemaClaims.

(** C1. The code breaks the claim at a first name of one space: the name
    is empty after trimming, yet the user validates, because [min(1)] is
    tested before [trim] runs, and the validated first name is the empty
    string that "First name cannot be empty" is there to exclude. *)
Lemma validateUser_accepts_blank_name :
  js_trim " " = "" /\
  @Schemas.validateUser Samples.samplePlatform Samples.blank_first
  = Return (Build_User (Build_UserName "" "Doe")
                       (Build_UserLocation "New York" "United States")
                       (Build_UserPicture Samples.portrait)).
Proof. split; reflexivity. Qed.

Example validateUser_john :
  @Schemas.validateUser Samples.samplePlatform Samples.padded_john
  = Return (Build_User (Build_UserName "John" "Doe")
                       (Build_UserLocation "New York" "United States")
                       (Build_UserPicture Samples.portrait)).
Proof. reflexivity. Qed.

Example validateUser_missing_country :
  @Schemas.validateUser Samples.samplePlatform
    (JObj [ ("name", JObj [("first", JStr ""); ("last", JStr "Doe")]);
            ("location", JObj [("city", JStr "New York")]);
            ("picture", JObj [("large", JStr "not-a-valid-url")]) ])
  = Throw (TErr (ZodErr [ mkIssue [Key "name"; Key "first"] too_small;
                          mkIssue [Key "location"; Key "country"] invalid_type;
                          mkIssue [Key "picture"; Key "large"] invalid_string ])).
Proof. reflexivity. Qed.

(* ===================================================================== *)
(** * Facts about the converters *)
(* ===================================================================== *)

Section ConverterFacts.
Context {Env Num Weather : Type} {platform : Platform} {services : Services Env Num Weather}.
Import ConvertSpec.

Lemma validateUser_trimmed raw v : Schemas.validateUser raw = Return v -> User_trimmed v.
Proof.
  unfold Schemas.validateUser, parse.
  destruct (Schemas.UserSchema [] raw) as [u|] eqn:Hs; [|discriminate]. intros [= <-].
  apply UserSchema_Valid in Hs as (f & l & c & k & p & _ & _ & _ & _ & _ & _ & _ & _ & _ & _ & ->).
  repeat split; apply js_trim_trimmed.
Qed.

(** Validating a validated user again changes nothing (when it succeeds). *)
Lemma revalidate_same v v' :
  User_trimmed v -> Schemas.validateUser (json_of_user v) = Return v' -> v' = v.
Proof.
  intros (Hf & Hl & Hc & Hk). unfold Schemas.validateUser, parse.
  destruct (Schemas.UserSchema [] (json_of_user v)) as [u|] eqn:Hs; [|discriminate].
  intros [= <-].
  apply UserSchema_Valid in Hs
    as (f & l & c & k & p & Ef & El & Ec & Ek & Ep & _ & _ & _ & _ & _ & ->).
  cbn in Ef, El, Ec, Ek, Ep.
  injection Ef as <-. injection El as <-. injection Ec as <-. injection Ek as <-.
  injection Ep as <-.
  unfold trimmed in *. rewrite Hf, Hl, Hc, Hk.
  destruct v as [[] [] []]. reflexivity.
Qed.

(** The TypeScript converter never rejects; its [weather] is null exactly
    when one of its three steps failed, and then [user] is the argument. *)
Lemma ts_convert raw w :
  exists r w',
    UserWeatherConverter.convertUserToUserWeatherData raw w = (Return r, w') /\
    (weather r = None <->
       is_throw (Schemas.validateUser raw) = true \/
       exists v, Schemas.validateUser raw = Return v /\
                 (geocoding_fails v w \/ weather_fails v w)) /\
    (weather r = None -> user r = raw) /\
    (weather r <> None ->
       exists v, Schemas.validateUser raw = Return v /\ user r = json_of_user v).
Proof.
  unfold UserWeatherConverter.convertUserToUserWeatherData. eff_unfold.
  unfold geocoding_fails, weather_fails.
  destruct (Schemas.validateUser raw) as [v|t] eqn:Hv; cbn.
  - destruct (getCoordinates (Schemas.getLocationQuery v) (env w)) as [[g|t] e1] eqn:Hg; cbn.
    + destruct (getCurrentWeather (lat g) (lng g) e1) as [[wd|t] e2] eqn:Hw; cbn.
      * do 2 eexists. split; [reflexivity|]. cbn. split; [|split].
        -- split; [discriminate|].
           intros [Hc|(v0 & [= <-] & [Hc|(g0 & e0 & Hg0 & Hc)])]; [discriminate| |].
           ++ rewrite Hg in Hc. discriminate.
           ++ rewrite Hg in Hg0. injection Hg0 as <- <-. rewrite Hw in Hc. discriminate.
        -- discriminate.
        -- intros _. eauto.
      * do 2 eexists. split; [reflexivity|]. cbn. split; [|split].
        -- split; [|reflexivity]. intros _. right. exists v. split; [reflexivity|].
           right. exists g, e1. rewrite Hw. auto.
        -- reflexivity.
        -- intros Hc. contradiction.
    + do 2 eexists. split; [reflexivity|]. cbn. split; [|split].
      * split; [|reflexivity]. intros _. right. exists v. split; [reflexivity|]. left.
        rewrite Hg. reflexivity.
      * reflexivity.
      * intros Hc. contradiction.
  - do 2 eexists. split; [reflexivity|]. cbn. split; [|split].
    + split; [|reflexivity]. intros _. left. reflexivity.
    + reflexivity.
    + intros Hc. contradiction.
Qed.

(** The compiled converter never rejects either. It validates the validated
    user again before it geocodes, so its [weather] is null exactly when a
    validation, the geocoding or the weather call failed. *)
Lemma dist_convert raw w :
  exists r w',
    DistUserWeatherConverter.convertUserToUserWeatherData raw w = (Return r, w') /\
    (weather r = None <->
       is_throw (Schemas.validateUser raw) = true \/
       exists v, Schemas.validateUser raw = Return v /\
                 (is_throw (Schemas.validateUser (json_of_user v)) = true \/
                  geocoding_fails v w \/ weather_fails v w)) /\
    (weather r = None -> user r = raw) /\
    (weather r <> None ->
       exists v, Schemas.validateUser raw = Return v /\ user r = json_of_user v).
Proof.
  unfold DistUserWeatherConverter.convertUserToUserWeatherData. eff_unfold.
  unfold geocoding_fails, weather_fails.
  unfold DistSchemas.getFullName, DistSchemas.getLocationQuery, DistSchemas.validateUser.
  change DistSchemas.UserSchema with Schemas.UserSchema.
  change (parse Schemas.UserSchema) with Schemas.validateUser.
  destruct (Schemas.validateUser raw) as [v|t] eqn:Hv; cbn.
  - destruct (Schemas.validateUser (json_of_user v)) as [v'|t] eqn:Hv'; cbn.
    + assert (v' = v) as -> by eauto using revalidate_same, validateUser_trimmed.
      fold (Schemas.getLocationQuery v).
      destruct (getCoordinates (Schemas.getLocationQuery v) (env w)) as [[g|t] e1] eqn:Hg; cbn.
      * destruct (getCurrentWeather (lat g) (lng g) e1) as [[wd|t] e2] eqn:Hw; cbn.
        -- do 2 eexists. split; [reflexivity|]. cbn. split; [|split].
           ++ split; [discriminate|].
              intros [Hc|(v0 & [= <-] & [Hc|[Hc|(g0 & e0 & Hg0 & Hc)]])]; [discriminate| | |].
              ** rewrite Hv' in Hc. discriminate.
              ** rewrite Hg in Hc. discriminate.
              ** rewrite Hg in Hg0. injection Hg0 as <- <-. rewrite Hw in Hc. discriminate.
           ++ discriminate.
           ++ intros _. eauto.
        -- destruct (instanceof_ZodError t); cbn; rewrite ?Hv; cbn;
             (do 2 eexists; split; [reflexivity|]; cbn; split; [|split];
              [ split; [|reflexivity]; intros _; right; exists v; split; [reflexivity|];
                right; right; exists g, e1; rewrite Hw; auto
              | reflexivity
              | intros Hc; contradiction ]).
      * destruct (instanceof_ZodError t); cbn; rewrite ?Hv; cbn;
          (do 2 eexists; split; [reflexivity|]; cbn; split; [|split];
           [ split; [|reflexivity]; intros _; right; exists v; split; [reflexivity|];
             right; left; rewrite Hg; reflexivity
           | reflexivity
           | intros Hc; contradiction ]).
    + destruct (validateUser_throws_ZodError _ _ Hv') as (issues & _ & ->). cbn.
      do 2 eexists. split; [reflexivity|]. cbn. split; [|split].
      * split; [|reflexivity]. intros _. right. exists v. split; [reflexivity|]. left.
        rewrite Hv'. reflexivity.
      * reflexivity.
      * intros Hc. contradiction.
  - destruct (validateUser_throws_ZodError _ _ Hv) as (issues & _ & ->). cbn.
    do 2 eexists. split; [reflexivity|]. cbn. split; [|split].
    + split; [|reflexivity]. intros _. left. reflexivity.
    + reflexivity.
    + intros Hc. contradiction.
Qed.

End ConverterFacts.

Section ConverterClaims.
Context {Env Num Weather : Type} {platform : Platform} {services : Services Env Num Weather}.
Import ConvertSpec.

(** C4. On every input and in every world, both converters return (never
    reject) a UserWeatherData; its [user] is the validated user when there
    is a weather reading and the argument otherwise; and its [weather] is
    null exactly when the user validation, the geocoding call or the
    weather call failed. The compiled converter validates the validated
    user a second time, which is part of its user validation. *)
Theorem convert_never_raises raw (w : World Env) :
  (exists r w',
      UserWeatherConverter.convertUserToUserWeatherData raw w = (Return r, w') /\
      (user r = raw \/
       exists v, Schemas.validateUser raw = Return v /\ user r = json_of_user v) /\
      (weather r = None <->
         is_throw (Schemas.validateUser raw) = true \/
         exists v, Schemas.validateUser raw = Return v /\
                   (geocoding_fails v w \/ weather_fails v w))) /\
  (exists r w',
      DistUserWeatherConverter.convertUserToUserWeatherData raw w = (Return r, w') /\
      (user r = raw \/
       exists v, Schemas.validateUser raw = Return v /\ user r = json_of_user v) /\
      (weather r = None <->
         is_throw (Schemas.validateUser raw) = true \/
         exists v, Schemas.validateUser raw = Return v /\
                   (is_throw (Schemas.validateUser (json_of_user v)) = true \/
                    geocoding_fails v w \/ weather_fails v w))).
Proof.
  split.
  - destruct (ts_convert raw w) as (r & w' & Hrun & Hiff & Hnull & Hsome).
    exists r, w'. split; [exact Hrun|]. split; [|exact Hiff].
    destruct (weather r) eqn:Hw; [right; apply Hsome; discriminate | left; auto].
  - destruct (dist_convert raw w) as (r & w' & Hrun & Hiff & Hnull & Hsome).
    exists r, w'. split; [exact Hrun|]. split; [|exact Hiff].
    destruct (weather r) eqn:Hw; [right; apply Hsome; discriminate | left; auto].
Qed.

(** C5, as amended. When the input passes validation and the geocoding call
    or the weather call then fails, both converters return
    [{user, weather: null}] where [user] is the argument as it was passed
    in, not the validated user. *)
Theorem convert_failure_keeps_argument raw (w : World Env) v :
  Schemas.validateUser raw = Return v ->
  geocoding_fails v w \/ weather_fails v w ->
  (exists w', UserWeatherConverter.convertUserToUserWeatherData raw w
              = (Return (Build_UserWeatherData raw None), w')) /\
  (exists w', DistUserWeatherConverter.convertUserToUserWeatherData raw w
              = (Return (Build_UserWeatherData raw None), w')).
Proof.
  intros Hv Hfail. split.
  - destruct (ts_convert raw w) as (r & w' & Hrun & Hiff & Hnull & _).
    assert (Hw : weather r = None) by (apply Hiff; right; eauto).
    exists w'. rewrite Hrun. destruct r as [u wd]. cbn in *.
    rewrite (Hnull Hw), Hw. reflexivity.
  - destruct (dist_convert raw w) as (r & w' & Hrun & Hiff & Hnull & _).
    assert (Hw : weather r = None).
    { apply Hiff. right. exists v. split; [exact Hv|]. right. exact Hfail. }
    exists w'. rewrite Hrun. destruct r as [u wd]. cbn in *.
    rewrite (Hnull Hw), Hw. reflexivity.
Qed.

End ConverterClaims.

Example convert_john :
  fst (@UserWeatherConverter.convertUserToUserWeatherData _ _ _
         Samples.samplePlatform Samples.servicesUp Samples.padded_john Samples.emptyWorld)
  = Return (Build_UserWeatherData Samples.john (Some Samples.sunny)).
Proof. reflexivity. Qed.

Example convert_atlantis :
  @UserWeatherConverter.convertUserToUserWeatherData _ _ _
     Samples.samplePlatform Samples.servicesUp Samples.atlantis Samples.emptyWorld
  = (Return (Build_UserWeatherData Samples.atlantis None),
     mkWorld ∅ 1%nat [EvGeocode "Atlantis, Nowhere"]).
Proof. reflexivity. Qed.

(** The compiled converter on a first name of white space: the validated
    user does not pass the second validation, and no service is called. *)
Example dist_convert_blank_first :
  @DistUserWeatherConverter.convertUserToUserWeatherData _ _ _
     Samples.samplePlatform Samples.servicesUp Samples.blank_first Samples.emptyWorld
  = (Return (Build_UserWeatherData Samples.blank_first None), Samples.emptyWorld).
Proof. reflexivity. Qed.

(** C5 fails as stated: the padded user validates to its trimmed form, the
    geocoder is down, and both converters answer with the padded argument,
    which is not the validated user. *)
Lemma convert_failure_returns_raw_user :
  let validated :=
    Build_User (Build_UserName "John" "Doe")
               (Build_UserLocation "New York" "United States")
               (Build_UserPicture Samples.portrait) in
  @Schemas.validateUser Samples.samplePlatform Samples.padded_john = Return validated /\
  fst (@UserWeatherConverter.convertUserToUserWeatherData _ _ _
         Samples.samplePlatform Samples.servicesDown Samples.padded_john Samples.emptyWorld)
  = Return (Build_UserWeatherData Samples.padded_john None) /\
  fst (@DistUserWeatherConverter.convertUserToUserWeatherData _ _ _
         Samples.samplePlatform Samples.servicesDown Samples.padded_john Samples.emptyWorld)
  = Return (Build_UserWeatherData Samples.padded_john None) /\
  Samples.padded_john <> json_of_user validated.
Proof.
  cbv zeta. split; [reflexivity|]. split; [reflexivity|]. split; [reflexivity|].
  discriminate.
Qed.

Lemma convert_failure_keeps_argument_witness :
  (exists w', @UserWeatherConverter.convertUserToUserWeatherData _ _ _
                Samples.samplePlatform Samples.servicesDown Samples.padded_john Samples.emptyWorld
              = (Return (Build_UserWeatherData Samples.padded_john None), w')) /\
  (exists w', @DistUserWeatherConverter.convertUserToUserWeatherData _ _ _
                Samples.samplePlatform Samples.servicesDown Samples.padded_john Samples.emptyWorld
              = (Return (Build_UserWeatherData Samples.padded_john None), w')).
Proof.
  apply (@convert_failure_keeps_argument _ _ _ Samples.samplePlatform Samples.servicesDown
           Samples.padded_john Samples.emptyWorld
           (Build_User (Build_UserName "John" "Doe")
                       (Build_UserLocation "New York" "United States")
                       (Build_UserPicture Samples.portrait))).
  - reflexivity.
  - left. reflexivity.
Defined.

(* ===================================================================== *)
(** * Facts about the batch conversion *)
(* ===================================================================== *)

Section BatchFacts.
Context {Env Num Weather : Type} {platform : Platform} {services : Services Env Num Weather}.
Import ConvertSpec ServiceCalls.

(** Whether a user validates does not depend on the path it is reported
    under. *)
Lemma UserSchema_path path raw v :
  Schemas.UserSchema path raw = Valid v -> Schemas.validateUser raw = Return v.
Proof.
  intros Hs. apply UserSchema_Valid in Hs
    as (f & l & c & k & p & Hf & Hl & Hc & Hk & Hp & Hfe & Hle & Hce & Hke & Hurl & ->).
  unfold Schemas.validateUser, parse.
  rewrite (UserSchema_accepts [] raw f l c k p); auto.
Qed.

Lemma parse_items_Valid path i items vs :
  parse_items Schemas.UserSchema path i items = Valid vs ->
  Forall2 (fun item v => Schemas.validateUser item = Return v) items vs.
Proof.
  revert i vs. induction items as [|x rest IH]; intros i vs; cbn.
  - intros [= <-]. constructor.
  - destruct (Schemas.UserSchema (path ++ [Index i]) x) as [v|] eqn:Hx;
      destruct (parse_items Schemas.UserSchema path (S i) rest) as [vs'|] eqn:Hrest;
      cbn; try discriminate.
    intros [= <-]. constructor; eauto using UserSchema_path.
Qed.

(** What [validateUsers] accepts: a non-empty array whose every element
    validates, element by element and in order. *)
Lemma validateUsers_Return users vs :
  DistSchemas.validateUsers users = Return vs ->
  exists items,
    users = JArr items /\ items <> [] /\
    Forall2 (fun item v => Schemas.validateUser item = Return v) items vs.
Proof.
  unfold DistSchemas.validateUsers, parse, DistSchemas.UsersArraySchema, z_array_min.
  destruct users; try discriminate.
  destruct items as [|x rest]; cbn [length Nat.ltb Nat.leb].
  - cbn. discriminate.
  - change DistSchemas.UserSchema with Schemas.UserSchema.
    destruct (parse_items Schemas.UserSchema [] 0 (x :: rest)) as [vs'|] eqn:Hp;
      cbn; [|discriminate].
    intros [= <-]. exists (x :: rest). split; [reflexivity|]. split; [discriminate|].
    eauto using parse_items_Valid.
Qed.

Lemma validateUsers_Throw users t :
  DistSchemas.validateUsers users = Throw t -> exists issues, t = TErr (ZodErr issues).
Proof.
  unfold DistSchemas.validateUsers, parse.
  destruct (DistSchemas.UsersArraySchema [] users); [discriminate|].
  intros [= <-]. eauto.
Qed.


(** Converting a validated user: the result carries that very user. *)
Lemma dist_convert_validated v (w : World Env) :
  User_trimmed v ->
  exists r w',
    DistUserWeatherConverter.convertUserToUserWeatherData (json_of_user v) w = (Return r, w') /\
    user r = json_of_user v /\
    (weather r = None <->
       is_throw (Schemas.validateUser (json_of_user v)) = true \/
       geocoding_fails v w \/ weather_fails v w).
Proof.
  intros Hv.
  destruct (dist_convert (json_of_user v) w) as (r & w' & Hrun & Hiff & Hnull & Hsome).
  exists r, w'. split; [exact Hrun|]. split.
  - destruct (weather r) eqn:Hw; [|auto].
    destruct Hsome as (v0 & Hv0 & ->); [discriminate|].
    rewrite (revalidate_same v v0 Hv Hv0). reflexivity.
  - rewrite Hiff. split.
    + intros [Hc|(v0 & Hv0 & Hc)]; [auto|].
      pose proof (revalidate_same v v0 Hv Hv0) as ->.
      destruct Hc as [Hc|Hc]; [|auto]. rewrite Hv0 in Hc. discriminate.
    + intros [Hc|Hc]; [auto|].
      destruct (Schemas.validateUser (json_of_user v)) as [v0|t] eqn:Hv0; [|auto].
      pose proof (revalidate_same v v0 Hv Hv0) as ->. right. eauto.
Qed.

(** The helpers of the compiled schemas module on a user that validates
    again. *)
Lemma revalidated_helpers v :
  Schemas.validateUser (json_of_user v) = Return v ->
  DistSchemas.validateUser (json_of_user v) = Return v /\
  DistSchemas.getFullName (json_of_user v) = Return (Schemas.getFullName v) /\
  DistSchemas.getLocationQuery (json_of_user v) = Return (Schemas.getLocationQuery v).
Proof.
  intros Hv. unfold DistSchemas.getFullName, DistSchemas.getLocationQuery,
    DistSchemas.validateUser.
  change DistSchemas.UserSchema with Schemas.UserSchema.
  change (parse Schemas.UserSchema) with Schemas.validateUser. rewrite Hv. auto.
Qed.

(** The [catch] block on a user that validates again: the argument, with
    no reading, and nothing done. *)
Lemma conversionFailed_validated v t (w : World Env) :
  Schemas.validateUser (json_of_user v) = Return v ->
  DistUserWeatherConverter.conversionFailed (Weather := Weather) (json_of_user v) t w
  = (Return (Build_UserWeatherData (json_of_user v) None), w).
Proof.
  intros Hv. destruct (revalidated_helpers v Hv) as (_ & Hname & _).
  unfold DistUserWeatherConverter.conversionFailed. eff_unfold.
  destruct (instanceof_ZodError t); [reflexivity|]. rewrite Hname. reflexivity.
Qed.

(** A single conversion is its start followed by its finish. *)
Lemma convert_split raw (w : World Env) :
  DistUserWeatherConverter.convertUserToUserWeatherData raw w
  = (let '(conversion, w1) := DistUserWeatherConverter.startConversion raw w in
     DistUserWeatherConverter.finishConversion conversion w1).
Proof.
  unfold DistUserWeatherConverter.convertUserToUserWeatherData,
    DistUserWeatherConverter.startConversion, DistUserWeatherConverter.finishConversion,
    DistUserWeatherConverter.conversionFailed, attempt.
  eff_unfold.
  destruct (DistSchemas.validateUser raw) as [v|t]; cbn [fst snd].
  - destruct (DistSchemas.getFullName (json_of_user v)) as [n|t] eqn:Hn; cbn [fst snd].
    + destruct (DistSchemas.getLocationQuery (json_of_user v)) as [q|t]; cbn [fst snd].
      * destruct (getCoordinates q (env w)) as [[g|t] e1]; cbn [fst snd env cache trace];
          [|reflexivity].
        destruct (getCurrentWeather (lat g) (lng g) e1) as [[wd|t] e2];
          cbn [fst snd env cache trace]; rewrite ?Hn; reflexivity.
      * destruct (instanceof_ZodError t); cbn [fst snd]; [reflexivity|].
        destruct (DistSchemas.getFullName raw); reflexivity.
    + destruct (instanceof_ZodError t); cbn [fst snd]; [reflexivity|].
      destruct (DistSchemas.getFullName raw); reflexivity.
  - destruct (instanceof_ZodError t); cbn [fst snd]; [reflexivity|].
    destruct (DistSchemas.getFullName raw); reflexivity.
Qed.

(** Starting the conversion of a validated user: the geocoding call is
    made when the user validates again, and nothing is done otherwise. *)
Lemma startConversion_validated v (w : World Env) :
  User_trimmed v ->
  exists c w1,
    DistUserWeatherConverter.startConversion (json_of_user v) w = (c, w1) /\
    conversion_for v c /\
    cache w1 = cache w /\
    trace w1 = trace w ++ map EvGeocode (geocoding_queries [v]) /\
    (suspended [c] <= length (geocoding_queries [v]))%nat.
Proof.
  intros Hv. unfold geocoding_queries. cbn [omap list_omap].
  destruct (Schemas.validateUser (json_of_user v)) as [v'|t] eqn:Hre.
  - assert (v' = v) as -> by eauto using revalidate_same.
    destruct (revalidated_helpers v Hre) as (Hval & Hname & Hquery).
    unfold DistUserWeatherConverter.startConversion, attempt. eff_unfold.
    rewrite Hval. cbn. rewrite Hname. cbn. rewrite Hquery. cbn.
    destruct (getCoordinates (Schemas.getLocationQuery v) (env w)) as [answer e1] eqn:Hg.
    cbn. do 2 eexists. split; [reflexivity|]. cbn. split; [|auto].
    split; [reflexivity|]. split; [reflexivity|]. split; [exact Hre|].
    exists (env w). rewrite Hg. reflexivity.
  - destruct (validateUser_throws_ZodError _ _ Hre) as (issues & _ & ->).
    unfold DistUserWeatherConverter.startConversion, DistUserWeatherConverter.conversionFailed,
      DistSchemas.validateUser.
    change DistSchemas.UserSchema with Schemas.UserSchema.
    change (parse Schemas.UserSchema) with Schemas.validateUser.
    eff_unfold. rewrite Hre. cbn.
    do 2 eexists. split; [reflexivity|]. cbn. rewrite app_nil_r. split; [|auto].
    exists (env w), (env w). unfold conversion_of. rewrite Hre. reflexivity.
Qed.

(** Finishing a conversion: it settles with a conversion of its user; a
    suspended one whose geocoding call was answered makes its weather
    call, and nothing else is done. *)
Lemma finishConversion_for v c (w : World Env) :
  conversion_for v c ->
  exists eg ew w1 k,
    DistUserWeatherConverter.finishConversion c w = (Return (conversion_of v eg ew), w1) /\
    cache w1 = cache w /\
    trace w1 = trace w ++ repeat EvWeather k /\
    (k <= suspended [c])%nat.
Proof.
  destruct c as [raw v' answer|outcome]; cbn [conversion_for].
  - intros (-> & -> & Hre & eg & ->).
    destruct (revalidated_helpers v Hre) as (_ & Hname & _).
    unfold DistUserWeatherConverter.finishConversion. eff_unfold.
    destruct (fst (getCoordinates (Schemas.getLocationQuery v) eg)) as [g|t] eqn:Hg; cbn.
    + destruct (getCurrentWeather (lat g) (lng g) (env w)) as [[reading|t] e2] eqn:Hw; cbn.
      * rewrite Hname. cbn. exists eg, (env w). eexists. exists 1%nat. split.
        { unfold conversion_of. rewrite Hre, Hg, Hw. reflexivity. }
        cbn. auto.
      * rewrite conversionFailed_validated by exact Hre.
        exists eg, (env w). eexists. exists 1%nat. split.
        { unfold conversion_of. rewrite Hre, Hg, Hw. reflexivity. }
        cbn. auto.
    + rewrite conversionFailed_validated by exact Hre.
      exists eg, (env w), w, 0%nat. split.
      { unfold conversion_of. rewrite Hre, Hg. reflexivity. }
      cbn. rewrite app_nil_r. auto with lia.
  - intros (eg & ew & ->). exists eg, ew, w, 0%nat. cbn. rewrite app_nil_r. auto with lia.
Qed.

Lemma geocoding_queries_cons v vs :
  geocoding_queries (v :: vs) = geocoding_queries [v] ++ geocoding_queries vs.
Proof.
  unfold geocoding_queries. cbn [omap list_omap].
  destruct (is_throw (Schemas.validateUser (json_of_user v))); reflexivity.
Qed.

Lemma suspended_cons (c : @DistUserWeatherConverter.Conversion Num Weather) cs :
  suspended (c :: cs) = (suspended [c] + suspended cs)%nat.
Proof. destruct c; cbn; lia. Qed.

(** [map] starts every conversion: the geocoding calls are made in list
    order, and each conversion belongs to its user. *)
Lemma startAll_validated vs :
  forall w : World Env,
    Forall User_trimmed vs ->
    exists cs w1,
      DistUserWeatherConverter.startAll (map json_of_user vs) w = (cs, w1) /\
      Forall2 conversion_for vs cs /\
      cache w1 = cache w /\
      trace w1 = trace w ++ map EvGeocode (geocoding_queries vs) /\
      (suspended cs <= length (geocoding_queries vs))%nat.
Proof.
  induction vs as [|v rest IH]; intros w Hvs.
  - exists [], w. cbn. rewrite app_nil_r. auto.
  - inversion Hvs as [|? ? Hv Hrest]; subst.
    destruct (startConversion_validated v w Hv) as (c & w1 & Hstart & Hc & Hcache & Htrace & Hn).
    destruct (IH w1 Hrest) as (cs & w2 & Hall & Hcs & Hcache2 & Htrace2 & Hn2).
    exists (c :: cs), w2. cbn [map DistUserWeatherConverter.startAll].
    rewrite Hstart, Hall. split; [reflexivity|]. split; [constructor; assumption|].
    split; [congruence|]. rewrite geocoding_queries_cons, suspended_cons, map_app, length_app.
    split; [|lia]. rewrite Htrace2, Htrace, app_assoc. reflexivity.
Qed.

Lemma suspended_settle i (c : @DistUserWeatherConverter.Conversion Num Weather) outcome cs :
  cs !! i = Some c ->
  (suspended (<[i := DistUserWeatherConverter.Settled outcome]> cs) + suspended [c]
   = suspended cs)%nat.
Proof.
  revert i. induction cs as [|c0 rest IH]; intros i Hi; [discriminate|].
  destruct i as [|i]; cbn [lookup list_lookup] in Hi.
  - injection Hi as ->.
    change (<[0%nat := DistUserWeatherConverter.Settled outcome]> (c :: rest))
      with (DistUserWeatherConverter.Settled outcome :: rest).
    rewrite (suspended_cons c rest). cbn [suspended]. lia.
  - change (<[S i := DistUserWeatherConverter.Settled outcome]> (c0 :: rest))
      with (c0 :: <[i := DistUserWeatherConverter.Settled outcome]> rest).
    rewrite (suspended_cons c0 rest), (suspended_cons c0 (<[i := _]> rest)).
    specialize (IH i Hi). lia.
Qed.

(** The conversion at one position resumes. *)
Lemma resumeAt_for vs i cs (w : World Env) :
  Forall2 conversion_for vs cs ->
  exists cs' w1 k,
    DistUserWeatherConverter.resumeAt i cs w = (cs', w1) /\
    Forall2 conversion_for vs cs' /\
    cache w1 = cache w /\
    trace w1 = trace w ++ repeat EvWeather k /\
    (k + suspended cs' <= suspended cs)%nat.
Proof.
  intros Hcs. unfold DistUserWeatherConverter.resumeAt.
  destruct (cs !! i) as [c|] eqn:Hi.
  - destruct (Forall2_lookup_r _ _ _ _ _ Hcs Hi) as (v & Hv & Hc).
    destruct (finishConversion_for v c w Hc) as (eg & ew & w1 & k & Hrun & Hcache & Htrace & Hk).
    rewrite Hrun. do 3 eexists. split; [reflexivity|]. split.
    { rewrite <- (list_insert_id vs i v Hv). apply Forall2_insert; [exact Hcs|].
      cbn. eauto. }
    split; [exact Hcache|]. split; [exact Htrace|].
    pose proof (suspended_settle i c (Return (conversion_of v eg ew)) cs Hi). lia.
  - exists cs, w, 0%nat. cbn. rewrite app_nil_r. auto with lia.
Qed.

(** The conversions resume in the order of arrival. *)
Lemma resumeIn_for vs arrival :
  forall cs (w : World Env),
    Forall2 conversion_for vs cs ->
    exists cs' w1 k,
      DistUserWeatherConverter.resumeIn arrival cs w = (cs', w1) /\
      Forall2 conversion_for vs cs' /\
      cache w1 = cache w /\
      trace w1 = trace w ++ repeat EvWeather k /\
      (k + suspended cs' <= suspended cs)%nat.
Proof.
  induction arrival as [|i later IH]; intros cs w Hcs.
  - exists cs, w, 0%nat. cbn. rewrite app_nil_r. auto with lia.
  - destruct (resumeAt_for vs i cs w Hcs) as (cs1 & w1 & k1 & Hrun1 & Hcs1 & Hc1 & Ht1 & Hk1).
    destruct (IH cs1 w1 Hcs1) as (cs2 & w2 & k2 & Hrun2 & Hcs2 & Hc2 & Ht2 & Hk2).
    exists cs2, w2, (k1 + k2)%nat. cbn [DistUserWeatherConverter.resumeIn].
    rewrite Hrun1, Hrun2. split; [reflexivity|]. split; [exact Hcs2|].
    split; [congruence|]. split; [|lia].
    rewrite Ht2, Ht1, repeat_app, app_assoc. reflexivity.
Qed.

(** The conversions that are left resume; every one has then settled with
    a conversion of its user. *)
Lemma settleAll_for vs :
  forall cs (w : World Env),
    Forall2 conversion_for vs cs ->
    exists outcomes w1 k,
      DistUserWeatherConverter.settleAll cs w = (outcomes, w1) /\
      Forall2 (fun v outcome => exists eg ew, outcome = Return (conversion_of v eg ew))
        vs outcomes /\
      cache w1 = cache w /\
      trace w1 = trace w ++ repeat EvWeather k /\
      (k <= suspended cs)%nat.
Proof.
  induction vs as [|v rest IH]; intros cs w Hcs; inversion Hcs as [|? c ? cs' Hc Hrest]; subst.
  - exists [], w, 0%nat. cbn. rewrite app_nil_r. auto.
  - destruct (finishConversion_for v c w Hc) as (eg & ew & w1 & k1 & Hrun & Hc1 & Ht1 & Hk1).
    destruct (IH cs' w1 Hrest) as (outcomes & w2 & k2 & Hrun2 & Hall & Hc2 & Ht2 & Hk2).
    exists (Return (conversion_of v eg ew) :: outcomes), w2, (k1 + k2)%nat.
    cbn [DistUserWeatherConverter.settleAll]. rewrite Hrun, Hrun2.
    split; [reflexivity|]. split; [constructor; eauto|]. split; [congruence|].
    rewrite (suspended_cons c cs'). split; [|lia].
    rewrite Ht2, Ht1, repeat_app, app_assoc. reflexivity.
Qed.

Lemma all_fulfilled_conversions vs outcomes :
  Forall2 (fun v outcome => exists eg ew, outcome = Return (conversion_of v eg ew)) vs outcomes ->
  exists results,
    all_fulfilled outcomes = Return results /\
    Forall2 (fun v r => exists eg ew, r = conversion_of v eg ew) vs results.
Proof.
  induction 1 as [|v outcome vs' outcomes' (eg & ew & ->) _ (results & Hall & Hres)].
  - exists []. split; [reflexivity | constructor].
  - exists (conversion_of v eg ew :: results). cbn [all_fulfilled]. rewrite Hall.
    split; [reflexivity|]. constructor; eauto.
Qed.

(** [Promise.all] over the conversions of validated users, whatever the
    order of arrival: one result per user, in list order, each a
    conversion of its own user; every geocoding call is made before any
    weather call. *)
Lemma promise_all_validated arrival vs (w : World Env) :
  Forall User_trimmed vs ->
  exists results w' m,
    DistUserWeatherConverter.promise_all arrival (map json_of_user vs) w = (Return results, w') /\
    Forall2 (fun v r => exists eg ew, r = conversion_of v eg ew) vs results /\
    cache w' = cache w /\
    trace w' = trace w ++ map EvGeocode (geocoding_queries vs) ++ repeat EvWeather m /\
    (m <= length (geocoding_queries vs))%nat.
Proof.
  intros Hvs. unfold DistUserWeatherConverter.promise_all.
  destruct (startAll_validated vs w Hvs) as (cs & w1 & Hstart & Hcs & Hc1 & Ht1 & Hn1).
  destruct (resumeIn_for vs arrival cs w1 Hcs) as (cs2 & w2 & k2 & Hrun2 & Hcs2 & Hc2 & Ht2 & Hk2).
  destruct (settleAll_for vs cs2 w2 Hcs2) as (outcomes & w3 & k3 & Hrun3 & Hall & Hc3 & Ht3 & Hk3).
  destruct (all_fulfilled_conversions vs outcomes Hall) as (results & Hres & Hconv).
  rewrite Hstart, Hrun2, Hrun3, Hres.
  exists results, w3, (k2 + k3)%nat. split; [reflexivity|]. split; [exact Hconv|].
  split; [congruence|]. split; [|lia].
  rewrite Ht3, Ht2, Ht1, repeat_app, <- !app_assoc. reflexivity.
Qed.

End BatchFacts.

Section BatchClaims.
Context {Env Num Weather : Type} {platform : Platform} {services : Services Env Num Weather}.
Import ConvertSpec.


End BatchClaims.


(** The spec's example: of three users the second lives where the geocoder
    finds nothing; the batch returns three results in order, the second
    with a null weather and the others with a reading, and the three
    geocoding calls come before the two weather calls. *)
Example convertUsers_three :
  DistUserWeatherConverter.convertUsersToUserWeatherData
    (platform := Samples.samplePlatform) (services := Samples.servicesUp)
    [2; 0; 1]%nat (JArr [Samples.john; Samples.atlantis; Samples.padded_john])
    Samples.emptyWorld
  = (Return [ Build_UserWeatherData Samples.john (Some Samples.sunny);
              Build_UserWeatherData Samples.atlantis None;
              Build_UserWeatherData Samples.john (Some Samples.sunny) ],
     mkWorld ∅ 5%nat
       [ EvGeocode "New York, United States"; EvGeocode "Atlantis, Nowhere";
         EvGeocode "New York, United States"; EvWeather; EvWeather ]).
Proof. reflexivity. Qed.

Example convertUsers_empty :
  fst (DistUserWeatherConverter.convertUsersToUserWeatherData
         (platform := Samples.samplePlatform) (services := Samples.servicesUp)
         [] (JArr []) Samples.emptyWorld)
  = Throw (TErr (Err "Error" "Invalid users array: Validation failed")).
Proof. reflexivity. Qed.

(* ===================================================================== *)
(** * Facts about the user service *)
(* ===================================================================== *)

Section ServiceFacts.
Context {Env Num Weather : Type} {platform : Platform} {config : Config} {services : Services Env Num Weather}.
Import CacheManager UserService CacheSpec RetrySpec.

(** One run of the operation makes one request. It either throws an Error
    object and leaves the cache alone, or stores the validated users and
    returns them. *)
Lemma operation_outcome count (w : World Env) :
  exists e,
    (exists err,
        fetchFreshUsers_operation count w
        = (Throw (TErr err), mkWorld (cache w) e (trace w ++ [EvFetch (users_url count)]))) \/
    (exists us,
        fetchFreshUsers_operation count w
        = (Return us,
           mkWorld (<[USERS := JArr (map json_of_user us)]> (cache w)) e
                   ((trace w ++ [EvFetch (users_url count)])
                    ++ [EvSet USERS (JArr (map json_of_user us))]))).
Proof.
  unfold fetchFreshUsers_operation, APIHelper.fetchData, APIHelper.platform_fetch, setItem.
  eff_unfold.
  destruct (fetch (users_url count) (env w)) as [[response|t] e] eqn:Hf; exists e; cbn.
  - destruct (ok response); cbn.
    + destruct (json response) as [data|t]; cbn.
      * unfold Schemas.validateApiResponse, parse.
        destruct (Schemas.UserApiResponseSchema [] data) as [resp|issues]; cbn.
        -- right. eauto.
        -- left. eauto.
      * left. destruct t as [[]|]; cbn; eauto.
    + left. eauto.
  - left. destruct t as [[]|]; cbn; eauto.
Qed.

Lemma after_last {St T} (operation : Eff St T) k s :
  after operation (S k) s = snd (operation (after operation k s)).
Proof.
  revert s. induction k as [|k IH]; intros s; [reflexivity|].
  change (after operation (S (S k)) s) with (after operation (S k) (snd (operation s))).
  rewrite IH. reflexivity.
Qed.

(** Failed attempts leave the cache as it was and add one request each. *)
Lemma failed_attempts count k :
  forall w : World Env,
    (forall i, (i < k)%nat ->
               is_throw (outcome_of (fetchFreshUsers_operation count) i w) = true) ->
    cache (after (fetchFreshUsers_operation count) k w) = cache w /\
    trace (after (fetchFreshUsers_operation count) k w)
    = trace w ++ repeat (EvFetch (users_url count)) k.
Proof.
  induction k as [|k IH]; intros w Hfail.
  - cbn. rewrite app_nil_r. auto.
  - pose proof (Hfail 0%nat ltac:(lia)) as Hfirst.
    unfold outcome_of in Hfirst. cbn [after] in Hfirst.
    destruct (operation_outcome count w) as (e & [(err & Hop)|(us & Hop)]);
      rewrite Hop in Hfirst; [|discriminate].
    cbn [after]. rewrite Hop. cbn [snd].
    destruct (IH (mkWorld (cache w) e (trace w ++ [EvFetch (users_url count)]))) as [Hc Ht].
    { intros i Hi. specialize (Hfail (S i) ltac:(lia)).
      rewrite outcome_of_succ, Hop in Hfail. exact Hfail. }
    rewrite Hc, Ht. cbn. rewrite <- app_assoc. auto.
Qed.

(** The whole of [fetchFreshUsers]: the entry is removed first; then the
    call either fails, with the entry still absent, or succeeds, with the
    entry set to the users it returns. *)
Lemma fetchFreshUsers_run count (w : World Env) :
  exists n r w',
    fetchFreshUsers count w = (r, w') /\
    (Z.of_nat n <= Z.max 0 DEFAULT_RETRY_ATTEMPTS) /\
    ((exists t,
         r = Throw t /\
         cache w' = delete USERS (cache w) /\
         trace w' = (trace w ++ [EvRemove USERS]) ++ repeat (EvFetch (users_url count)) n /\
         (DEFAULT_RETRY_ATTEMPTS <= 0 -> t = TErr (Err "Error" "Unknown error")) /\
         (1 <= DEFAULT_RETRY_ATTEMPTS ->
            Z.of_nat n = DEFAULT_RETRY_ATTEMPTS /\
            exists w_last, fetchFreshUsers_operation count w_last = (Throw t, w'))) \/
     (exists us,
         r = Return us /\
         (1 <= n)%nat /\
         cache w' = <[USERS := JArr (map json_of_user us)]> (cache w) /\
         trace w' = (trace w ++ [EvRemove USERS]) ++ repeat (EvFetch (users_url count)) n
                    ++ [EvSet USERS (JArr (map json_of_user us))])).
Proof.
  unfold fetchFreshUsers, removeItem. eff_unfold.
  set (w1 := mkWorld (delete USERS (cache w)) (env w) (trace w ++ [EvRemove USERS])).
  destruct (Z_le_gt_dec DEFAULT_RETRY_ATTEMPTS 0) as [Hle|Hgt].
  - unfold RetryHelper.retryApiCall. cbn [maxAttempts fetchFreshUsers_options].
    replace (Z.to_nat DEFAULT_RETRY_ATTEMPTS) with 0%nat by lia. cbn.
    exists 0%nat. do 2 eexists. split; [reflexivity|]. split; [lia|]. left.
    eexists. split; [reflexivity|]. cbn. rewrite app_nil_r.
    split; [reflexivity|]. split; [reflexivity|]. split; [reflexivity|]. lia.
  - unfold RetryHelper.retryApiCall.
    destruct (retry_loop_run (fetchFreshUsers_operation count) fetchFreshUsers_options
                (Z.to_nat (maxAttempts fetchFreshUsers_options)) 1
                (Err "Error" "Unknown error") w1)
      as (n & Hn & Hrun & Hfail & Hlast); [cbn; lia | cbn; lia |].
    rewrite Hrun. cbn [maxAttempts fetchFreshUsers_options] in *.
    destruct n as [|k]; [lia|]. replace (S k - 1)%nat with k in * by lia.
    destruct (failed_attempts count k w1 Hfail) as [Hc Ht].
    rewrite after_last. unfold outcome_of in *.
    destruct (operation_outcome count (after (fetchFreshUsers_operation count) k w1))
      as (e & [(err & Hop)|(us & Hop)]); rewrite Hop in *; cbn [fst snd reported toError].
    + exists (S k). do 2 eexists. split; [reflexivity|]. split; [lia|]. left.
      eexists. split; [reflexivity|]. cbn [cache trace]. rewrite Hc, Ht.
      split; [reflexivity|]. split.
      { cbn [repeat]. rewrite repeat_cons, !app_assoc. reflexivity. }
      split; [lia|]. intros _. split; [specialize (Hlast eq_refl); lia|].
      exists (after (fetchFreshUsers_operation count) k w1). rewrite Hop, Hc, Ht. reflexivity.
    + exists (S k). do 2 eexists. split; [reflexivity|]. split; [lia|]. right.
      eexists. split; [reflexivity|]. split; [lia|]. cbn [cache trace]. rewrite Hc, Ht.
      split.
      { unfold w1. cbn [cache]. apply insert_delete_eq. }
      cbn [repeat]. rewrite repeat_cons, !app_assoc. reflexivity.
Qed.

(** The call as a run of the retry loop in the world without the users
    entry: it stops after some [n] attempts, of which the first [n - 1]
    failed, and a failing last attempt is attempt [DEFAULT_RETRY_ATTEMPTS]. *)
Lemma fetchFreshUsers_retry count (w : World Env) :
  (DEFAULT_RETRY_ATTEMPTS <= 0 /\
   fetchFreshUsers count w = (Throw (TErr (Err "Error" "Unknown error")), removed w)) \/
  exists n,
    (1 <= n)%nat /\ Z.of_nat n <= DEFAULT_RETRY_ATTEMPTS /\
    fetchFreshUsers count w
    = (reported (outcome_of (fetchFreshUsers_operation count) (n - 1) (removed w)),
       after (fetchFreshUsers_operation count) n (removed w)) /\
    (forall i, (i < n - 1)%nat ->
               is_throw (outcome_of (fetchFreshUsers_operation count) i (removed w)) = true) /\
    (is_throw (outcome_of (fetchFreshUsers_operation count) (n - 1) (removed w)) = true ->
     Z.of_nat n = DEFAULT_RETRY_ATTEMPTS).
Proof.
  unfold fetchFreshUsers, removeItem. eff_unfold. fold (removed w).
  unfold RetryHelper.retryApiCall. cbn [maxAttempts fetchFreshUsers_options].
  destruct (Z_le_gt_dec DEFAULT_RETRY_ATTEMPTS 0) as [Hle|Hgt].
  - left. split; [exact Hle|].
    replace (Z.to_nat DEFAULT_RETRY_ATTEMPTS) with 0%nat by lia. reflexivity.
  - right.
    destruct (retry_loop_run (fetchFreshUsers_operation count) fetchFreshUsers_options
                (Z.to_nat (maxAttempts fetchFreshUsers_options)) 1
                (Err "Error" "Unknown error") (removed w))
      as (n & Hn & Hrun & Hfail & Hlast); [cbn; lia | cbn; lia |].
    cbn [maxAttempts fetchFreshUsers_options] in *. rewrite Hrun.
    exists n. split; [lia|]. split; [lia|]. split; [reflexivity|]. split; [exact Hfail|].
    intros Hthrow. specialize (Hlast Hthrow). lia.
Qed.

(** An attempt throws Error objects only. *)
Lemma operation_throws_Error count (w : World Env) t :
  fst (fetchFreshUsers_operation count w) = Throw t -> exists err, t = TErr err.
Proof.
  destruct (operation_outcome count w) as (e & [(err & ->)|(us & ->)]); cbn.
  - intros [= <-]. eauto.
  - discriminate.
Qed.

End ServiceFacts.

Section ServiceClaims.
Context {Env Num Weather : Type} {platform : Platform} {config : Config} {services : Services Env Num Weather}.
Import CacheManager UserService CacheSpec.

(** C9. [fetchFreshUsers] removes the users entry before anything else it
    does. When every attempt it is allowed fails, the call rejects, with
    what the last attempt threw (with Error("Unknown error") when no
    attempt is allowed), and the cache holds no users entry. Whenever the
    call rejects, the cache holds no users entry (every other entry is as
    before), the only things that happened after the removal are the
    requests of the attempts, one per attempt, and the error is the one
    the last run of the operation threw. The call returns only when one
    of its attempts returned. *)
Theorem fetchFreshUsers_invalidates_first count (w : World Env) :
  (exists rest,
      trace (snd (fetchFreshUsers count w)) = trace w ++ EvRemove USERS :: rest) /\
  ((forall i, (i < Z.to_nat DEFAULT_RETRY_ATTEMPTS)%nat ->
              is_throw (RetrySpec.outcome_of (fetchFreshUsers_operation count) i (removed w))
              = true) ->
   exists t w',
     fetchFreshUsers count w = (Throw t, w') /\
     cache w' !! USERS = None /\
     (DEFAULT_RETRY_ATTEMPTS <= 0 -> t = TErr (Err "Error" "Unknown error")) /\
     (1 <= DEFAULT_RETRY_ATTEMPTS ->
      RetrySpec.outcome_of (fetchFreshUsers_operation count)
        (Z.to_nat DEFAULT_RETRY_ATTEMPTS - 1) (removed w) = Throw t)) /\
  (forall t w',
      fetchFreshUsers count w = (Throw t, w') ->
      cache w' !! USERS = None /\
      (forall key, key <> USERS -> cache w' !! key = cache w !! key) /\
      (exists n,
          Z.of_nat n = Z.max 0 DEFAULT_RETRY_ATTEMPTS /\
          trace w' = trace w ++ EvRemove USERS :: repeat (EvFetch (users_url count)) n) /\
      (1 <= DEFAULT_RETRY_ATTEMPTS ->
       exists w_last, fetchFreshUsers_operation count w_last = (Throw t, w'))) /\
  (forall us w',
      fetchFreshUsers count w = (Return us, w') ->
      exists i,
        (i < Z.to_nat DEFAULT_RETRY_ATTEMPTS)%nat /\
        RetrySpec.outcome_of (fetchFreshUsers_operation count) i (removed w) = Return us).
Proof.
  destruct (fetchFreshUsers_run count w) as (n & r & w1 & Hrun & Hn & Hcases).
  split; [|split; [|split]].
  - rewrite Hrun. cbn [snd].
    destruct Hcases as [(t & _ & _ & Ht & _)|(us & _ & _ & _ & Ht)];
      rewrite Ht, <- app_assoc; eauto.
  - intros Hall.
    assert (Hnone : forall t, r = Throw t -> cache w1 !! USERS = None).
    { intros t ->.
      destruct Hcases as [(t0 & _ & Hc & _)|(us & Hr & _)]; [|discriminate].
      rewrite Hc. apply lookup_delete_eq. }
    destruct (fetchFreshUsers_retry count w) as [[Hle Hrun']|(k & Hk & Hkmax & Hrun' & _ & Hlast)];
      rewrite Hrun in Hrun'; injection Hrun' as -> ->.
    + do 2 eexists. split; [exact Hrun|]. split; [eauto|]. split; [reflexivity | lia].
    + specialize (Hall (k - 1)%nat ltac:(lia)).
      destruct (RetrySpec.outcome_of (fetchFreshUsers_operation count) (k - 1) (removed w))
        as [us|thrown] eqn:Hout; [discriminate|].
      destruct (operation_throws_Error count _ _ Hout) as (err & ->).
      specialize (Hlast eq_refl). cbn [RetrySpec.reported toError] in *.
      do 2 eexists. split; [exact Hrun|]. split; [eauto|]. split; [lia|].
      intros _. replace (Z.to_nat DEFAULT_RETRY_ATTEMPTS - 1)%nat with (k - 1)%nat by lia.
      exact Hout.
  - rewrite Hrun. intros t w' [= -> ->].
    destruct Hcases as [(t0 & [= <-] & Hc & Ht & Hnone & Hsome)|(us & Hr & _)];
      [|discriminate].
    rewrite Hc. split; [apply lookup_delete_eq|].
    split; [intros key Hkey; apply lookup_delete_ne; congruence|].
    split.
    + exists n. split; [|rewrite Ht, <- app_assoc; reflexivity].
      destruct (Z_le_gt_dec DEFAULT_RETRY_ATTEMPTS 0); [lia|].
      destruct Hsome as [Hn' _]; lia.
    + intros Hpos. apply Hsome, Hpos.
  - intros us w' Hret.
    destruct (fetchFreshUsers_retry count w) as [[Hle Hrun']|(k & Hk & Hkmax & Hrun' & _)];
      rewrite Hret in Hrun'; [discriminate|].
    exists (k - 1)%nat. split; [lia|].
    destruct (RetrySpec.outcome_of (fetchFreshUsers_operation count) (k - 1) (removed w));
      cbn in Hrun'; congruence.
Qed.

End ServiceClaims.

(** With the user API down and a stale entry in the cache, every one of
    the three attempts fails: the call rejects with the error of the
    third attempt and leaves no entry behind. *)
Lemma fetchFreshUsers_invalidates_first_witness :
  let run :=
    @UserService.fetchFreshUsers nat Z Samples.WeatherData Samples.samplePlatform
      Samples.sampleConfig Samples.servicesDown 5 (Samples.cached (JArr [Samples.john])) in
  fst run = Throw (TErr (Err "TypeError" "Failed to fetch")) /\
  cache (snd run) !! "users" = None /\
  trace (snd run)
  = [ EvRemove "users";
      EvFetch "https://randomuser.me/api/?results=5&inc=name,location,picture";
      EvFetch "https://randomuser.me/api/?results=5&inc=name,location,picture";
      EvFetch "https://randomuser.me/api/?results=5&inc=name,location,picture" ].
Proof.
  cbv zeta.
  destruct (@fetchFreshUsers_invalidates_first nat Z Samples.WeatherData Samples.samplePlatform
              Samples.sampleConfig Samples.servicesDown 5 (Samples.cached (JArr [Samples.john])))
    as (_ & Hexhausted & Hfail & _).
  destruct Hexhausted as (t & w' & Hrun & Hnone & _ & Hlast).
  { intros i Hi. destruct i as [|[|[|i]]]; [reflexivity | reflexivity | reflexivity |].
    cbn in Hi. lia. }
  specialize (Hlast ltac:(cbn; lia)). vm_compute in Hlast. injection Hlast as <-.
  destruct (Hfail _ _ Hrun) as (_ & _ & (n & Hn & Htrace) & _).
  rewrite Hrun. cbn [fst snd]. split; [reflexivity|]. split; [exact Hnone|].
  rewrite Htrace. assert (n = 3%nat) as -> by (cbn in Hn; lia). reflexivity.
Defined.

Section CacheFacts.
Context {Env Num Weather : Type} {platform : Platform} {config : Config} {services : Services Env Num Weather}.
Import CacheManager CacheSpec.


(** The TypeScript [getCachedUsers], by the shape of what is stored. *)
Lemma ts_getCachedUsers (w : World Env) :
  UserService.getCachedUsers w
  = match cache w !! USERS with
    | None => (Return None, w)
    | Some stored =>
        if negb (truthy stored) || negb (isArray stored) then (Return None, w)
        else
          match UserService.looksLikeUsers (items_of stored) with
          | Return true => (Return (Some (items_of stored)), w)
          | _ => (Return None, removed w)
          end
    end.
Proof.
  unfold UserService.getCachedUsers, getItem, removeItem, removed. eff_unfold.
  destruct (cache w !! USERS) as [stored|]; cbn; [|reflexivity].
  destruct (negb (truthy stored) || negb (isArray stored)); [reflexivity|].
  destruct (UserService.looksLikeUsers (items_of stored)) as [[|]|]; reflexivity.
Qed.

(** The compiled [getCachedUsers], by what is stored. *)
Lemma dist_getCachedUsers (w : World Env) :
  DistUserService.getCachedUsers w
  = match cache w !! USERS with
    | None => (Return None, w)
    | Some stored =>
        if negb (truthy stored) then (Return None, w)
        else
          match DistSchemas.validateUsers stored with
          | Return validatedUsers => (Return (Some validatedUsers), w)
          | Throw _ => (Return None, removed w)
          end
    end.
Proof.
  unfold DistUserService.getCachedUsers, getItem, removeItem, removed. eff_unfold.
  unfold DistSchemas.safeValidateUsers, DistSchemas.validateUsers, parse, safeParse.
  destruct (cache w !! USERS) as [stored|]; cbn; [|reflexivity].
  destruct (negb (truthy stored)); [reflexivity|].
  destruct (DistSchemas.UsersArraySchema [] stored); reflexivity.
Qed.

End CacheFacts.

Section CacheClaims.
Context {Env Num Weather : Type} {platform : Platform} {config : Config} {services : Services Env Num Weather}.
Import CacheManager UserService CacheSpec.


(** C8, as amended. When the stored users value fails the users-list
    schema, the compiled [getCachedUsers] returns null, and it removes the
    entry unless the value is falsy (null, false, 0, the empty string), in
    which case the cache is left as it is; whatever it returns other than
    null is the validated form of the stored value. The TypeScript
    [getCachedUsers] returns null and leaves the cache as it is for a
    value that is falsy or no array, returns null and removes the entry
    for an array that fails its first-element check, and returns the
    stored array for one that passes it. *)
Theorem getCachedUsers_on_invalid (w : World Env) stored :
  cache w !! USERS = Some stored ->
  (is_throw (DistSchemas.validateUsers stored) = true ->
   (truthy stored = true -> DistUserService.getCachedUsers w = (Return None, removed w)) /\
   (truthy stored = false -> DistUserService.getCachedUsers w = (Return None, w))) /\
  (forall validatedUsers w',
      DistUserService.getCachedUsers w = (Return (Some validatedUsers), w') ->
      DistSchemas.validateUsers stored = Return validatedUsers /\ w' = w) /\
  (truthy stored = false \/ isArray stored = false ->
   UserService.getCachedUsers w = (Return None, w)) /\
  (forall items,
      stored = JArr items ->
      (looksLikeUsers items <> Return true ->
       UserService.getCachedUsers w = (Return None, removed w)) /\
      (looksLikeUsers items = Return true ->
       UserService.getCachedUsers w = (Return (Some items), w))).
Proof.
  intros Hc. split; [|split; [|split]].
  - intros Hbad. rewrite dist_getCachedUsers, Hc.
    destruct (DistSchemas.validateUsers stored); [discriminate|].
    split; intros ->; reflexivity.
  - intros vs w'. rewrite dist_getCachedUsers, Hc.
    destruct (negb (truthy stored)); [discriminate|].
    destruct (DistSchemas.validateUsers stored); [|discriminate].
    intros [= <- <-]. auto.
  - intros Hshape. rewrite ts_getCachedUsers, Hc.
    destruct Hshape as [-> | ->]; cbn; [reflexivity|].
    rewrite orb_true_r. reflexivity.
  - intros items ->. rewrite ts_getCachedUsers, Hc. cbn.
    destruct (looksLikeUsers items) as [[|]|]; split; intros Hl;
      try reflexivity; try discriminate; congruence.
Qed.

End CacheClaims.



(** The spec's two examples for [getUsers 5]: a valid cache of ten entries
    is served without a request; a cache of three entries is replaced by
    what the API returns. *)
Example getUsers_ten_cached :
  @UserService.getUsers nat Z Samples.WeatherData Samples.samplePlatform Samples.sampleConfig
    Samples.servicesUp 5 (Samples.cached (JArr (repeat Samples.john 10)))
  = (Return (repeat Samples.john 5), Samples.cached (JArr (repeat Samples.john 10))).
Proof. reflexivity. Qed.

Example getUsers_three_cached :
  let run :=
    @UserService.getUsers nat Z Samples.WeatherData Samples.samplePlatform Samples.sampleConfig
      Samples.servicesUp 5 (Samples.cached (JArr (repeat Samples.atlantis 3))) in
  fst run = Return [Samples.john] /\
  cache (snd run) !! "users" = Some (JArr [Samples.john]) /\
  trace (snd run)
  = [ EvRemove "users";
      EvFetch "https://randomuser.me/api/?results=5&inc=name,location,picture";
      EvSet "users" (JArr [Samples.john]) ].
Proof. cbv zeta. split; [reflexivity|]. split; reflexivity. Qed.

(** C8 fails as stated. In the compiled service a stored [false] fails the
    schema and is answered with null, but the entry stays in the cache. In
    the TypeScript service an array that fails the schema but looks like
    user data at its first element is returned as it is. *)
Lemma getCachedUsers_keeps_or_returns_invalid :
  is_throw (@DistSchemas.validateUsers Samples.samplePlatform (JBool false)) = true /\
  @DistUserService.getCachedUsers nat Samples.samplePlatform Samples.sampleConfig
    (Samples.cached (JBool false))
  = (Return None, Samples.cached (JBool false)) /\
  cache (Samples.cached (JBool false)) !! "users" = Some (JBool false) /\
  is_throw (@DistSchemas.validateUsers Samples.samplePlatform Samples.lookalike) = true /\
  @UserService.getCachedUsers nat Samples.sampleConfig (Samples.cached Samples.lookalike)
  = (Return (Some (items_of Samples.lookalike)), Samples.cached Samples.lookalike).
Proof. repeat split; reflexivity. Qed.

Lemma getCachedUsers_on_invalid_witness :
  is_throw (@DistSchemas.validateUsers Samples.samplePlatform (JStr "garbage")) = true /\
  @DistUserService.getCachedUsers nat Samples.samplePlatform Samples.sampleConfig
    (Samples.cached (JStr "garbage"))
  = (Return None, mkWorld ∅ 0%nat [EvRemove "users"]).
Proof.
  split; [reflexivity|].
  destruct (@getCachedUsers_on_invalid nat Samples.samplePlatform Samples.sampleConfig
              (Samples.cached (JStr "garbage")) (JStr "garbage") eq_refl)
    as [Hdist _].
  destruct (Hdist eq_refl) as [Hremoved _].
  rewrite (Hremoved eq_refl). reflexivity.
Defined.

Lemma validateUser_contract_witness :
  exists u,
    @Schemas.validateUser Samples.samplePlatform Samples.padded_john = Return u /\
    first (name u) = "John" /\ city (location u) = "New York".
Proof.
  destruct (@validateUser_contract Samples.samplePlatform Samples.padded_john) as [Hok _].
  destruct (Hok " John " "Doe" " New York" "United States" Samples.portrait)
    as (u & Hu & Hf & _ & Hc & _); try reflexivity; try discriminate.
  exists u. split; [exact Hu|]. split; [exact Hf | exact Hc].
Defined.

(* ===================================================================== *)
(** * Further properties: the schemas *)
(* ===================================================================== *)

Section SchemaExtras.
Context {platform : Platform}.
Import Schemas.

Lemma validateUser_url raw v : validateUser raw = Return v -> isUrl (large (picture v)) = true.
Proof.
  unfold validateUser, parse.
  destruct (UserSchema [] raw) as [u|] eqn:Hs; [|discriminate]. intros [= <-].
  apply UserSchema_Valid in Hs
    as (f & l & c & k & p & _ & _ & _ & _ & _ & _ & _ & _ & _ & Hurl & ->).
  exact Hurl.
Qed.

(** A user whose strings are trimmed and whose picture is a URL validates
    to itself when no name or location string is empty, and does not
    validate when one is. *)
Lemma revalidate_trimmed v :
  User_trimmed v -> isUrl (large (picture v)) = true ->
  (first (name v) <> "" /\ last (name v) <> "" /\
   city (location v) <> "" /\ country (location v) <> "" ->
   validateUser (json_of_user v) = Return v) /\
  (first (name v) = "" \/ last (name v) = "" \/
   city (location v) = "" \/ country (location v) = "" ->
   is_throw (validateUser (json_of_user v)) = true).
Proof.
  intros (Tf & Tl & Tc & Tk) Hurl. destruct v as [[f l] [c k] [p]].
  cbn [first last city country large name location picture] in *. split.
  - intros (Hf & Hl & Hc & Hk). unfold validateUser, parse.
    rewrite (UserSchema_accepts [] _ f l c k p); auto.
    unfold trimmed in *. rewrite Tf, Tl, Tc, Tk. reflexivity.
  - intros Hempty. unfold validateUser, parse.
    destruct (UserSchema [] _) as [u|] eqn:Hs; [|reflexivity]. exfalso.
    apply UserSchema_Valid in Hs
      as (f' & l' & c' & k' & p' & Ef & El & Ec & Ek & _ & Hf & Hl & Hc & Hk & _).
    cbn in Ef, El, Ec, Ek.
    injection Ef as <-. injection El as <-. injection Ec as <-. injection Ek as <-.
    tauto.
Qed.

(** X1. Validating the result of a validation again returns the same user
    when none of its name and location strings is empty, and fails when
    one of them is: validation is idempotent exactly on the users without
    an empty field. *)
Theorem validated_user_revalidates raw v :
  validateUser raw = Return v ->
  (first (name v) <> "" /\ last (name v) <> "" /\
   city (location v) <> "" /\ country (location v) <> "" ->
   validateUser (json_of_user v) = Return v) /\
  (first (name v) = "" \/ last (name v) = "" \/
   city (location v) = "" \/ country (location v) = "" ->
   is_throw (validateUser (json_of_user v)) = true).
Proof.
  intros Hv. apply revalidate_trimmed; eauto using validateUser_trimmed, validateUser_url.
Qed.

Lemma UserSchema_any_path path raw v :
  validateUser raw = Return v -> UserSchema path raw = Valid v.
Proof.
  unfold validateUser, parse.
  destruct (UserSchema [] raw) as [u|] eqn:Hs; [|discriminate]. intros [= <-].
  apply UserSchema_Valid in Hs
    as (f & l & c & k & p & Hf & Hl & Hc & Hk & Hp & Hfe & Hle & Hce & Hke & Hurl & ->).
  apply UserSchema_accepts; assumption.
Qed.

Lemma parse_items_Forall2 path i items vs :
  Forall2 (fun item v => validateUser item = Return v) items vs ->
  parse_items UserSchema path i items = Valid vs.
Proof.
  intros Hall. revert i. induction Hall as [|x v rest vs' Hx _ IH]; intros i; [reflexivity|].
  cbn [parse_items]. rewrite (UserSchema_any_path _ x v Hx), IH. reflexivity.
Qed.

(** The array schema of both response schemas, under any path. *)
Lemma users_array_Valid path value vs :
  z_array_min UserSchema 1 path value = Valid vs <->
  exists items,
    value = JArr items /\ items <> [] /\
    Forall2 (fun item v => validateUser item = Return v) items vs.
Proof.
  unfold z_array_min. split.
  - destruct value as [| | | | |items|]; try discriminate.
    destruct items as [|x rest]; cbn [length Nat.ltb Nat.leb].
    { cbn. discriminate. }
    destruct (parse_items UserSchema path 0 (x :: rest)) as [vs'|] eqn:Hp; cbn; [|discriminate].
    intros [= <-]. exists (x :: rest). split; [reflexivity|]. split; [discriminate|].
    eauto using parse_items_Valid.
  - intros (items & -> & Hne & Hall).
    destruct items as [|x rest]; [congruence|]. cbn [length Nat.ltb Nat.leb].
    rewrite (parse_items_Forall2 _ 0 _ _ Hall). reflexivity.
Qed.

(** X2. [validateApiResponse] returns exactly when [results] is a
    non-empty array whose every element validates, and what it returns
    are the validated elements, one per element and in order; in
    particular an empty [results] is rejected. *)
Theorem validateApiResponse_results data r :
  validateApiResponse data = Return r <->
  exists items,
    at_path data ["results"] = JArr items /\ items <> [] /\
    Forall2 (fun item v => validateUser item = Return v) items (results r).
Proof.
  unfold validateApiResponse, parse, UserApiResponseSchema, z_object, field.
  cbn [at_path fold_left]. rewrite <- (users_array_Valid ([] ++ [Key "results"])).
  destruct data; try (split; discriminate).
  destruct (z_array_min UserSchema 1 _ (obj_get fields "results")) as [vs|]; cbn.
  - destruct r as [us]. cbn. split; intros [= ->]; reflexivity.
  - split; discriminate.
Qed.

(** X3. The compiled response schema is the TypeScript one with an
    optional [info] added. A body it accepts is accepted by the
    TypeScript schema with the same users; a body the TypeScript schema
    accepts is accepted with the same users when it has no [info], and is
    rejected when its [info] is there and is not an object ([null]
    included). *)
Theorem dist_validateApiResponse_stricter data :
  (forall r,
      DistResponse.validateApiResponse data = Return r ->
      validateApiResponse data = Return {| results := DistResponse.results r |}) /\
  (forall r,
      validateApiResponse data = Return r ->
      (at_path data ["info"] = JUndefined ->
       DistResponse.validateApiResponse data
       = Return {| DistResponse.results := results r; DistResponse.info := None |}) /\
      (at_path data ["info"] <> JUndefined ->
       (forall fields, at_path data ["info"] <> JObj fields) ->
       is_throw (DistResponse.validateApiResponse data) = true)).
Proof.
  unfold DistResponse.validateApiResponse, validateApiResponse, parse,
    DistResponse.UserApiResponseSchema, UserApiResponseSchema, z_object, field.
  change DistSchemas.UserSchema with UserSchema. cbn [at_path fold_left].
  destruct data; try (split; intros r; discriminate).
  destruct (z_array_min UserSchema 1 _ (obj_get fields "results")) as [vs|]; cbn.
  - split.
    + intros r.
      destruct (DistResponse.z_optional _ _ _) as [i|]; cbn; [|discriminate].
      intros [= <-]. reflexivity.
    + intros r [= <-]. split.
      * intros ->. reflexivity.
      * intros Hundef Hobj. unfold DistResponse.z_optional, DistResponse.InfoSchema, z_object.
        destruct (obj_get fields "info"); try reflexivity; [congruence|].
        exfalso. eapply Hobj. reflexivity.
  - split; intros r.
    + destruct (DistResponse.z_optional _ _ _); discriminate.
    + discriminate.
Qed.

End SchemaExtras.

Lemma validated_user_revalidates_witness :
  @Schemas.validateUser Samples.samplePlatform Samples.john
  = @Schemas.validateUser Samples.samplePlatform Samples.padded_john.
Proof.
  destruct (@validated_user_revalidates Samples.samplePlatform Samples.padded_john
              (Build_User (Build_UserName "John" "Doe")
                          (Build_UserLocation "New York" "United States")
                          (Build_UserPicture Samples.portrait)) eq_refl)
    as [Hsame _].
  refine (eq_trans (Hsame _) _); [|reflexivity]. cbn. repeat split; discriminate.
Defined.

(* ===================================================================== *)
(** * Further properties: the helpers of api-helper.ts and retry-helper.ts *)
(* ===================================================================== *)

Section ApiHelperExtras.
Context {Env Num Weather : Type} {services : Services Env Num Weather}.
Import APIHelper.

(** X4. [fetchData] makes exactly one request and touches nothing else. It
    returns the decoded body exactly when the response is [ok] and its
    body decodes. Whatever else happens it rejects with an Error object: a
    response that is not [ok] gives "<errorMessage>: HTTP <status>:
    <statusText>" whatever its body, and a thrown value that is no Error
    object is wrapped as [new Error(String(value))]. *)
Theorem fetchData_one_request url errorMessage (w : World Env) :
  snd (fetchData url errorMessage w)
  = mkWorld (cache w) (snd (fetch url (env w))) (trace w ++ [EvFetch url]) /\
  (forall data,
      fst (fetchData url errorMessage w) = Return data <->
      exists response,
        fst (fetch url (env w)) = Return response /\
        ok response = true /\ json response = Return data) /\
  (forall t, fst (fetchData url errorMessage w) = Throw t -> exists err, t = TErr err) /\
  (forall response,
      fst (fetch url (env w)) = Return response ->
      ok response = false ->
      fst (fetchData url errorMessage w)
      = Throw (TErr (Err "Error" (errorMessage +:+ ": " +:+ "HTTP "
                                  +:+ pretty (status response) +:+ ": "
                                  +:+ statusText response)))) /\
  (forall v,
      fst (fetch url (env w)) = Throw (TVal v) ->
      fst (fetchData url errorMessage w) = Throw (TErr (Err "Error" (js_String v)))).
Proof.
  unfold fetchData, platform_fetch. eff_unfold.
  destruct (fetch url (env w)) as [[response|t] e] eqn:Hf; cbn.
  - destruct (ok response) eqn:Hok; cbn.
    + destruct (json response) as [data|t] eqn:Hj; cbn.
      * split; [reflexivity|]. split; [|split; [|split]].
        -- intros d. split.
           ++ intros [= <-]. eauto.
           ++ intros (r & [= <-] & _ & Hd). congruence.
        -- discriminate.
        -- intros r [= <-]. congruence.
        -- discriminate.
      * split; [reflexivity|]. split; [|split; [|split]].
        -- intros d. split; [discriminate|].
           intros (r & [= <-] & _ & Hd). congruence.
        -- intros t0 [= <-]. eauto.
        -- intros r [= <-]. congruence.
        -- discriminate.
    + split; [reflexivity|]. split; [|split; [|split]].
      * intros d. split; [discriminate|].
        intros (r & [= <-] & Hc & _). congruence.
      * intros t0 [= <-]. eauto.
      * intros r [= <-] _. reflexivity.
      * discriminate.
  - split; [reflexivity|]. split; [|split; [|split]].
    + intros d. split; [discriminate|]. intros (r & Hc & _). discriminate.
    + intros t0 [= <-]. eauto.
    + discriminate.
    + intros v [= ->]. reflexivity.
Qed.

End ApiHelperExtras.

Module HandleApiErrorFacts.
Import QArith Qpower Qminmax APIHelperRest.

(** X5. [handleApiError] with no retry left ([retryCount <= 0]) rethrows
    what it was given, unchanged and without waiting. With retries left
    (up to 1000, where the arithmetic is exact) it waits once and
    returns; the wait is [1000 * 2^(3 - retryCount)] milliseconds, which
    is positive and never above 4000: the cap of 5000 is never reached. *)
Theorem handleApiError_wait error retryCount :
  ((retryCount <= 0)%Z -> handleApiError error retryCount = (Throw error, [])) /\
  ((0 < retryCount <= 1000)%Z ->
   exists delay,
     handleApiError error retryCount = (Return tt, [delay]) /\
     delay == 1000 * 2 ^ (3 - retryCount) /\ 0 < delay /\ delay <= 4000).
Proof.
  unfold handleApiError. split.
  - intros Hrc. destruct (Z.ltb_spec 0 retryCount); [lia | reflexivity].
  - intros [Hrc _]. destruct (Z.ltb_spec 0 retryCount); [|lia].
    eexists. split; [reflexivity|].
    assert (Hpow : 2 ^ (3 - retryCount) <= 2 ^ 2).
    { apply Qpower_le_compat_l; [lia | discriminate]. }
    assert (Hpos : 0 < 2 ^ (3 - retryCount)) by (apply Qpower_0_lt; reflexivity).
    assert (Hle : 1000 * 2 ^ (3 - retryCount) <= 4000).
    { apply Qle_trans with (1000 * 2 ^ 2); [|discriminate].
      apply Qmult_le_l; [reflexivity | exact Hpow]. }
    assert (Hmin : Qmin (1000 * 2 ^ (3 - retryCount)) 5000 == 1000 * 2 ^ (3 - retryCount)).
    { apply Q.min_l. eapply Qle_trans; [exact Hle | discriminate]. }
    split; [exact Hmin|]. rewrite Hmin. split; [|exact Hle].
    apply Qmult_lt_0_compat; [reflexivity | exact Hpos].
Qed.

End HandleApiErrorFacts.

Section RetryExtras.
Context {St T : Type}.
Variable operation : Eff St T.
Variable options : RetryOptions.
Import RetryHelper RetrySpec.



End RetryExtras.

(* ===================================================================== *)
(** * Further properties: fetching users *)
(* ===================================================================== *)

(** The retry loop around an operation that behaves like the two
    [fetchFreshUsers] operations: one request per run; a failed run throws
    a plain Error object and leaves the cache alone; a successful run
    returns a non-empty list of validated users and stores it. *)
Section RetriedFetch.
Context {Env : Type} {platform : Platform} {config : Config}.
Variable operation : Eff (World Env) (list User).
Variable url : string.
Import CacheManager RetrySpec.

Hypothesis operation_step : forall w : World Env,
  exists e,
    (exists name message,
        operation w
        = (Throw (TErr (Err name message)),
           mkWorld (cache w) e (trace w ++ [EvFetch url]))) \/
    (exists us,
        us <> [] /\
        Forall (fun u => exists raw, Schemas.validateUser raw = Return u) us /\
        operation w
        = (Return us,
           mkWorld (<[USERS := JArr (map json_of_user us)]> (cache w)) e
                   ((trace w ++ [EvFetch url]) ++ [EvSet USERS (JArr (map json_of_user us))]))).

Lemma retried_failed_attempts k :
  forall w : World Env,
    (forall i, (i < k)%nat -> is_throw (outcome_of operation i w) = true) ->
    cache (after operation k w) = cache w /\
    trace (after operation k w) = trace w ++ repeat (EvFetch url) k.
Proof.
  induction k as [|k IH]; intros w Hfail.
  - cbn. rewrite app_nil_r. auto.
  - pose proof (Hfail 0%nat ltac:(lia)) as Hfirst.
    unfold outcome_of in Hfirst. cbn [after] in Hfirst.
    destruct (operation_step w) as (e & [(name & message & Hop)|(us & _ & _ & Hop)]);
      rewrite Hop in Hfirst; [|discriminate].
    cbn [after]. rewrite Hop. cbn [snd].
    destruct (IH (mkWorld (cache w) e (trace w ++ [EvFetch url]))) as [Hc Ht].
    { intros i Hi. specialize (Hfail (S i) ltac:(lia)).
      rewrite outcome_of_succ, Hop in Hfail. exact Hfail. }
    rewrite Hc, Ht. cbn. rewrite <- app_assoc. auto.
Qed.

Lemma retried_fetch_run options operationName (w : World Env) :
  exists n r w' events,
    RetryHelper.retryApiCall operation options operationName w = (r, w', events) /\
    Z.of_nat n = Z.of_nat (length (invocations events)) /\
    Z.of_nat n <= Z.max 0 (maxAttempts options) /\
    ((exists name message,
         r = Throw (TErr (Err name message)) /\
         Z.of_nat n = Z.max 0 (maxAttempts options) /\
         cache w' = cache w /\
         trace w' = trace w ++ repeat (EvFetch url) n) \/
     (exists us,
         r = Return us /\ (1 <= n)%nat /\ us <> [] /\
         Forall (fun u => exists raw, Schemas.validateUser raw = Return u) us /\
         cache w' = <[USERS := JArr (map json_of_user us)]> (cache w) /\
         trace w' = trace w ++ repeat (EvFetch url) n
                    ++ [EvSet USERS (JArr (map json_of_user us))])).
Proof.
  unfold RetryHelper.retryApiCall.
  destruct (Z_le_gt_dec (maxAttempts options) 0) as [Hle|Hgt].
  - replace (Z.to_nat (maxAttempts options)) with 0%nat by lia. cbn.
    exists 0%nat. do 3 eexists. split; [reflexivity|]. split; [reflexivity|].
    split; [lia|]. left. do 2 eexists. split; [reflexivity|]. cbn.
    rewrite app_nil_r. split; [lia|]. auto.
  - destruct (retry_loop_run operation options (Z.to_nat (maxAttempts options)) 1
                (Err "Error" "Unknown error") w)
      as (n & Hn & Hrun & Hfail & Hlast); [lia | lia |].
    rewrite Hrun. exists n. do 3 eexists. split; [reflexivity|].
    split; [rewrite invocations_schedule, length_map, length_seq; reflexivity|].
    split; [lia|].
    destruct n as [|k]; [lia|]. replace (S k - 1)%nat with k in * by lia.
    destruct (retried_failed_attempts k w Hfail) as [Hc Ht].
    rewrite after_last. unfold outcome_of in *.
    destruct (operation_step (after operation k w))
      as (e & [(name & message & Hop)|(us & Hne & Hall & Hop)]);
      rewrite Hop in *; cbn [fst snd reported toError cache trace]; rewrite Hc, Ht.
    + left. do 2 eexists. split; [reflexivity|].
      split; [specialize (Hlast eq_refl); lia|]. split; [reflexivity|].
      cbn [repeat]. rewrite repeat_cons, !app_assoc. reflexivity.
    + right. exists us. split; [reflexivity|]. split; [lia|]. split; [exact Hne|].
      split; [exact Hall|]. split; [reflexivity|].
      cbn [repeat]. rewrite repeat_cons, !app_assoc. reflexivity.
Qed.

End RetriedFetch.

Section FetchFacts.
Context {Env Num Weather : Type} {platform : Platform} {config : Config} {services : Services Env Num Weather}.
Import CacheManager CacheSpec.

Lemma validated_list items vs :
  items <> [] ->
  Forall2 (fun item v => Schemas.validateUser item = Return v) items vs ->
  vs <> [] /\ Forall (fun u => exists raw, Schemas.validateUser raw = Return u) vs.
Proof.
  intros Hne Hall. split.
  - destruct Hall; [congruence | discriminate].
  - clear Hne. induction Hall; constructor; eauto.
Qed.

Lemma ts_response_users data r :
  Schemas.validateApiResponse data = Return r ->
  results r <> [] /\
  Forall (fun u => exists raw, Schemas.validateUser raw = Return u) (results r).
Proof.
  unfold Schemas.validateApiResponse, parse, Schemas.UserApiResponseSchema, z_object, field.
  destruct data; try discriminate.
  destruct (z_array_min Schemas.UserSchema 1 _ (obj_get fields "results")) as [vs|] eqn:Hvs;
    cbn; [|discriminate].
  intros [= <-]. apply users_array_Valid in Hvs as (items & _ & Hne & Hall).
  cbn. eauto using validated_list.
Qed.

Lemma dist_response_users data r :
  DistResponse.validateApiResponse data = Return r ->
  DistResponse.results r <> [] /\
  Forall (fun u => exists raw, Schemas.validateUser raw = Return u) (DistResponse.results r).
Proof.
  unfold DistResponse.validateApiResponse, parse, DistResponse.UserApiResponseSchema,
    z_object, field.
  change DistSchemas.UserSchema with Schemas.UserSchema.
  destruct data; try discriminate.
  destruct (z_array_min Schemas.UserSchema 1 _ (obj_get fields "results")) as [vs|] eqn:Hvs;
    cbn; [|destruct (DistResponse.z_optional _ _ _); discriminate].
  destruct (DistResponse.z_optional _ _ _); cbn; [|discriminate].
  intros [= <-]. apply users_array_Valid in Hvs as (items & _ & Hne & Hall).
  cbn. eauto using validated_list.
Qed.

(** One run of the TypeScript operation. *)
Lemma ts_operation_step count (w : World Env) :
  exists e,
    (exists name message,
        UserService.fetchFreshUsers_operation count w
        = (Throw (TErr (Err name message)),
           mkWorld (cache w) e (trace w ++ [EvFetch (UserService.users_url count)]))) \/
    (exists us,
        us <> [] /\
        Forall (fun u => exists raw, Schemas.validateUser raw = Return u) us /\
        UserService.fetchFreshUsers_operation count w
        = (Return us,
           mkWorld (<[USERS := JArr (map json_of_user us)]> (cache w)) e
                   ((trace w ++ [EvFetch (UserService.users_url count)])
                    ++ [EvSet USERS (JArr (map json_of_user us))]))).
Proof.
  unfold UserService.fetchFreshUsers_operation, APIHelper.fetchData, APIHelper.platform_fetch,
    setItem.
  eff_unfold.
  destruct (fetch (UserService.users_url count) (env w)) as [[response|t] e] eqn:Hf;
    exists e; cbn.
  - destruct (ok response); cbn.
    + destruct (json response) as [data|t]; cbn.
      * destruct (Schemas.validateApiResponse data) as [resp|t] eqn:Hv; cbn.
        -- right. exists (results resp). apply ts_response_users in Hv as [Hne Hall]. auto.
        -- left. unfold Schemas.validateApiResponse, parse in Hv.
           destruct (Schemas.UserApiResponseSchema [] data); [discriminate|].
           injection Hv as <-. eauto.
      * left. destruct t as [[]|]; cbn; eauto.
    + left. eauto.
  - left. destruct t as [[]|]; cbn; eauto.
Qed.

(** One run of the compiled operation. *)
Lemma dist_operation_step count (w : World Env) :
  exists e,
    (exists name message,
        DistUserFetch.fetchFreshUsers_operation count w
        = (Throw (TErr (Err name message)),
           mkWorld (cache w) e (trace w ++ [EvFetch (UserService.users_url count)]))) \/
    (exists us,
        us <> [] /\
        Forall (fun u => exists raw, Schemas.validateUser raw = Return u) us /\
        DistUserFetch.fetchFreshUsers_operation count w
        = (Return us,
           mkWorld (<[USERS := JArr (map json_of_user us)]> (cache w)) e
                   ((trace w ++ [EvFetch (UserService.users_url count)])
                    ++ [EvSet USERS (JArr (map json_of_user us))]))).
Proof.
  unfold DistUserFetch.fetchFreshUsers_operation, APIHelper.fetchData,
    APIHelper.platform_fetch, setItem.
  eff_unfold. fold (UserService.users_url count).
  destruct (fetch (UserService.users_url count) (env w)) as [[response|t] e] eqn:Hf;
    exists e; cbn.
  - destruct (ok response); cbn.
    + destruct (json response) as [data|t]; cbn.
      * destruct (DistResponse.validateApiResponse data) as [resp|t] eqn:Hv; cbn.
        -- right. exists (DistResponse.results resp).
           apply dist_response_users in Hv as [Hne Hall]. auto.
        -- left. unfold DistResponse.validateApiResponse, parse in Hv.
           destruct (DistResponse.UserApiResponseSchema [] data); [discriminate|].
           injection Hv as <-. eauto.
      * left. destruct t as [[]|]; cbn; eauto.
    + left. eauto.
  - left. destruct t as [[]|]; cbn; eauto.
Qed.

Lemma validated_trimmed us :
  Forall (fun u => exists raw, Schemas.validateUser raw = Return u) us ->
  Forall User_trimmed us /\ Forall (fun u => isUrl (large (picture u)) = true) us.
Proof.
  intros Hall. split; eapply Forall_impl; try exact Hall; cbn;
    intros u (raw & Hraw); eauto using validateUser_trimmed, validateUser_url.
Qed.

(** What a cached list of validated users looks like to the TypeScript
    first-element check. *)
Lemma looksLikeUsers_json us :
  us <> [] -> UserService.looksLikeUsers (map json_of_user us) = Return true.
Proof. destruct us as [|u rest]; [congruence | reflexivity]. Qed.

End FetchFacts.

Section FetchExtras.
Context {Env Num Weather : Type} {platform : Platform} {config : Config} {services : Services Env Num Weather}.
Import CacheManager CacheSpec.

(** The whole of a [fetchFreshUsers], TypeScript or compiled, from the run
    of its retry loop in the world without the users entry. *)
Lemma fresh_users_run (operation : Eff (World Env) (list User)) options operationName
    count (w : World Env) :
  (forall w0 : World Env, exists e,
      (exists name message,
          operation w0
          = (Throw (TErr (Err name message)),
             mkWorld (cache w0) e (trace w0 ++ [EvFetch (UserService.users_url count)]))) \/
      (exists us,
          us <> [] /\
          Forall (fun u => exists raw, Schemas.validateUser raw = Return u) us /\
          operation w0
          = (Return us,
             mkWorld (<[USERS := JArr (map json_of_user us)]> (cache w0)) e
                     ((trace w0 ++ [EvFetch (UserService.users_url count)])
                      ++ [EvSet USERS (JArr (map json_of_user us))])))) ->
  exists n r w',
    (removeItem USERS ;;;
     (fun w0 =>
        let '(r, w', _) := RetryHelper.retryApiCall operation options operationName w0 in
        (r, w'))) w = (r, w') /\
    Z.of_nat n <= Z.max 0 (maxAttempts options) /\
    ((exists name message,
         r = Throw (TErr (Err name message)) /\
         Z.of_nat n = Z.max 0 (maxAttempts options) /\
         cache w' = delete USERS (cache w) /\
         trace w' = trace w ++ EvRemove USERS :: repeat (EvFetch (UserService.users_url count)) n) \/
     (exists us,
         r = Return us /\ (1 <= n)%nat /\ us <> [] /\
         Forall (fun u => exists raw, Schemas.validateUser raw = Return u) us /\
         cache w' = <[USERS := JArr (map json_of_user us)]> (cache w) /\
         trace w' = trace w ++ EvRemove USERS :: repeat (EvFetch (UserService.users_url count)) n
                    ++ [EvSet USERS (JArr (map json_of_user us))])).
Proof.
  intros Hstep. unfold removeItem. eff_unfold.
  set (w1 := mkWorld (delete USERS (cache w)) (env w) (trace w ++ [EvRemove USERS])).
  destruct (retried_fetch_run operation (UserService.users_url count) Hstep
              options operationName w1)
    as (n & r & w' & events & Hrun & _ & Hn & Hcases).
  rewrite Hrun. exists n, r, w'. split; [reflexivity|]. split; [exact Hn|].
  destruct Hcases as [(name & message & -> & Hmax & Hc & Ht)
                     |(us & -> & Hpos & Hne & Hall & Hc & Ht)].
  - left. exists name, message. rewrite Hc, Ht. unfold w1. cbn [cache trace].
    rewrite <- app_assoc. auto.
  - right. exists us. rewrite Hc, Ht. unfold w1. cbn [cache trace].
    rewrite <- app_assoc, insert_delete_eq. auto 10.
Qed.

(** X7. The TypeScript [fetchFreshUsers] rejects only with a plain Error
    object: never with a ZodError (a validation failure is rewrapped) and
    never with a value that is no Error. When it returns, the list is not
    empty, every user in it has trimmed name and location strings and a
    picture the URL check accepts, the users entry of the cache is that
    list, and no other entry has changed. *)
Theorem fetchFreshUsers_outcomes count (w : World Env) :
  (forall t w',
      UserService.fetchFreshUsers count w = (Throw t, w') ->
      exists name message, t = TErr (Err name message)) /\
  (forall us w',
      UserService.fetchFreshUsers count w = (Return us, w') ->
      us <> [] /\
      Forall User_trimmed us /\
      Forall (fun u => isUrl (large (picture u)) = true) us /\
      cache w' !! USERS = Some (JArr (map json_of_user us)) /\
      (forall key, key <> USERS -> cache w' !! key = cache w !! key)).
Proof.
  destruct (fresh_users_run (UserService.fetchFreshUsers_operation count)
              UserService.fetchFreshUsers_options "User API with validation" count w
              (ts_operation_step count))
    as (n & r & w1 & Hrun & _ & Hcases).
  change (UserService.fetchFreshUsers count w = (r, w1)) in Hrun. rewrite Hrun. split.
  - intros t w' [= -> ->].
    destruct Hcases as [(name & message & [= ->] & _)|(us & Hr & _)]; [eauto | discriminate].
  - intros us w' [= -> ->].
    destruct Hcases as [(name & message & Hr & _)|(us' & [= <-] & _ & Hne & Hall & Hc & _)];
      [discriminate|].
    destruct (validated_trimmed us Hall) as [Ht Hu].
    split; [exact Hne|]. split; [exact Ht|]. split; [exact Hu|]. rewrite Hc.
    split; [apply lookup_insert_eq|]. intros key Hkey. apply lookup_insert_ne. congruence.
Qed.

(** X8. What the TypeScript [fetchFreshUsers] stores, the cache readers
    give back: after a fetch that returned [us], [getCachedUsers] returns
    that list, and [getUsers k] for any [k] up to its length returns
    [slice(0, k)] of it, both without a request or a cache write. *)
Theorem fetch_then_getUsers count (w : World Env) us w' k :
  UserService.fetchFreshUsers count w = (Return us, w') ->
  k <= Z.of_nat (length us) ->
  UserService.getCachedUsers w' = (Return (Some (map json_of_user us)), w') /\
  UserService.getUsers k w' = (Return (js_slice0 (map json_of_user us) k), w').
Proof.
  intros Hfetch Hk.
  destruct (fresh_users_run (UserService.fetchFreshUsers_operation count)
              UserService.fetchFreshUsers_options "User API with validation" count w
              (ts_operation_step count))
    as (n & r & w1 & Hrun & _ & Hcases).
  change (UserService.fetchFreshUsers count w = (r, w1)) in Hrun.
  rewrite Hfetch in Hrun. injection Hrun as <- <-.
  destruct Hcases as [(name & message & Hr & _)|(us' & [= <-] & _ & Hne & _ & Hc & _)];
    [discriminate|].
  assert (Hcached : UserService.getCachedUsers w' = (Return (Some (map json_of_user us)), w')).
  { rewrite ts_getCachedUsers, Hc, lookup_insert_eq. cbn.
    rewrite (looksLikeUsers_json us Hne). reflexivity. }
  split; [exact Hcached|].
  unfold UserService.getUsers. unfold bind at 1. rewrite Hcached.
  rewrite length_map. destruct (Z.geb_spec (Z.of_nat (length us)) k); [reflexivity | lia].
Qed.

(** X9. The compiled [fetchFreshUsers] keeps the discipline of the
    TypeScript one. It removes the users entry before anything else. When
    it rejects, it rejects with a plain Error object, the cache holds no
    users entry, and what happened after the removal is one request per
    attempt. When it returns, the list is not empty, its users are
    trimmed, the users entry is that list, and at least one request was
    made. No other entry changes either way. *)
Theorem dist_fetchFreshUsers_discipline count (w : World Env) :
  (exists rest,
      trace (snd (DistUserFetch.fetchFreshUsers count w)) = trace w ++ EvRemove USERS :: rest) /\
  (forall t w',
      DistUserFetch.fetchFreshUsers count w = (Throw t, w') ->
      (exists name message, t = TErr (Err name message)) /\
      cache w' !! USERS = None /\
      (forall key, key <> USERS -> cache w' !! key = cache w !! key) /\
      exists n,
        Z.of_nat n = Z.max 0 DEFAULT_RETRY_ATTEMPTS /\
        trace w' = trace w ++ EvRemove USERS :: repeat (EvFetch (UserService.users_url count)) n) /\
  (forall us w',
      DistUserFetch.fetchFreshUsers count w = (Return us, w') ->
      us <> [] /\
      Forall User_trimmed us /\
      cache w' !! USERS = Some (JArr (map json_of_user us)) /\
      (forall key, key <> USERS -> cache w' !! key = cache w !! key) /\
      exists n,
        (1 <= n)%nat /\ Z.of_nat n <= DEFAULT_RETRY_ATTEMPTS /\
        trace w' = trace w ++ EvRemove USERS :: repeat (EvFetch (UserService.users_url count)) n
                   ++ [EvSet USERS (JArr (map json_of_user us))]).
Proof.
  destruct (fresh_users_run (DistUserFetch.fetchFreshUsers_operation count)
              {| maxAttempts := DEFAULT_RETRY_ATTEMPTS;
                 baseDelay := DEFAULT_RETRY_DELAY;
                 maxDelay := 5000 |}
              "User API with Zod validation" count w (dist_operation_step count))
    as (n & r & w1 & Hrun & Hn & Hcases).
  change (DistUserFetch.fetchFreshUsers count w = (r, w1)) in Hrun. rewrite Hrun.
  cbn [maxAttempts] in *. split; [|split].
  - cbn [snd].
    destruct Hcases as [(name & message & _ & _ & _ & Ht)|(us & _ & _ & _ & _ & _ & Ht)];
      rewrite Ht; eauto.
  - intros t w' [= -> ->].
    destruct Hcases as [(name & message & [= ->] & Hmax & Hc & Ht)|(us & Hr & _)];
      [|discriminate].
    split; [eauto|]. rewrite Hc. split; [apply lookup_delete_eq|].
    split; [intros key Hkey; apply lookup_delete_ne; congruence|]. eauto.
  - intros us w' [= -> ->].
    destruct Hcases as [(name & message & Hr & _)|(us' & [= <-] & Hpos & Hne & Hall & Hc & Ht)];
      [discriminate|].
    destruct (validated_trimmed us Hall) as [Htrim _].
    split; [exact Hne|]. split; [exact Htrim|]. rewrite Hc.
    split; [apply lookup_insert_eq|].
    split; [intros key Hkey; apply lookup_insert_ne; congruence|].
    exists n. split; [exact Hpos|]. split; [lia | exact Ht].
Qed.

(** X10. What the compiled [fetchFreshUsers] stores, the compiled
    [getCachedUsers] validates again. After a fetch that returned [us] it
    gives [us] back, with no cache write, when no user has an empty name
    or location string. When one has (the API sent a string of white
    space only, which validation trimmed to nothing), it returns null and
    removes the entry that was just written. *)
Theorem dist_fetch_then_getCachedUsers count (w : World Env) us w' :
  DistUserFetch.fetchFreshUsers count w = (Return us, w') ->
  (Forall (fun u => first (name u) <> "" /\ last (name u) <> "" /\
                    city (location u) <> "" /\ country (location u) <> "") us ->
   DistUserService.getCachedUsers w' = (Return (Some us), w')) /\
  (Exists (fun u => first (name u) = "" \/ last (name u) = "" \/
                    city (location u) = "" \/ country (location u) = "") us ->
   DistUserService.getCachedUsers w' = (Return None, removed w')).
Proof.
  intros Hfetch.
  destruct (fresh_users_run (DistUserFetch.fetchFreshUsers_operation count)
              {| maxAttempts := DEFAULT_RETRY_ATTEMPTS;
                 baseDelay := DEFAULT_RETRY_DELAY;
                 maxDelay := 5000 |}
              "User API with Zod validation" count w (dist_operation_step count))
    as (n & r & w1 & Hrun & _ & Hcases).
  change (DistUserFetch.fetchFreshUsers count w = (r, w1)) in Hrun.
  rewrite Hfetch in Hrun. injection Hrun as <- <-.
  destruct Hcases as [(name & message & Hr & _)|(us' & [= <-] & _ & Hne & Hall & Hc & _)];
    [discriminate|].
  destruct (validated_trimmed us Hall) as [Htrim Hurl].
  rewrite dist_getCachedUsers, Hc, lookup_insert_eq. cbn [truthy negb]. split.
  - intros Hfull.
    assert (Hvs : DistSchemas.validateUsers (JArr (map json_of_user us)) = Return us).
    { unfold DistSchemas.validateUsers, parse, DistSchemas.UsersArraySchema.
      change DistSchemas.UserSchema with Schemas.UserSchema.
      rewrite (proj2 (users_array_Valid [] (JArr (map json_of_user us)) us)); [reflexivity|].
      exists (map json_of_user us). split; [reflexivity|].
      split; [destruct us; [congruence | discriminate]|].
      clear Hne Hc Hall Hfetch. induction us as [|u rest IH]; [constructor|].
      inversion Htrim; inversion Hurl; inversion Hfull; subst.
      constructor; [|auto]. apply revalidate_trimmed; assumption. }
    rewrite Hvs. reflexivity.
  - intros Hblank.
    destruct (DistSchemas.validateUsers (JArr (map json_of_user us))) as [vs|t] eqn:Hvs;
      [|reflexivity].
    exfalso. apply validateUsers_Return in Hvs as (items & [= <-] & _ & Hitems).
    clear Hne Hc Hall Hfetch. revert vs Hitems.
    induction Hblank as [u rest Hu|u rest _ IH]; intros vs Hitems;
      inversion Hitems as [|? v ? vs' Hv Hrest]; subst;
      inversion Htrim; inversion Hurl; subst.
    + destruct (revalidate_trimmed u) as [_ Hthrow]; try assumption.
      specialize (Hthrow Hu). rewrite Hv in Hthrow. discriminate.
    + eauto.
Qed.

End FetchExtras.

(** With the user API up, one fetch fills the cache and the next
    [getUsers 1] is served from it. *)
Lemma fetch_then_getUsers_witness :
  let run :=
    UserService.fetchFreshUsers (platform := Samples.samplePlatform)
      (config := Samples.sampleConfig) (services := Samples.servicesUp) 1 Samples.emptyWorld in
  UserService.getUsers (platform := Samples.samplePlatform) (config := Samples.sampleConfig)
    (services := Samples.servicesUp) 1 (snd run)
  = (Return [Samples.john], snd run).
Proof.
  cbv zeta.
  match goal with
  | |- _ = (_, snd ?run) =>
      assert (Hrun : run = (Return [Build_User (Build_UserName "John" "Doe")
                                      (Build_UserLocation "New York" "United States")
                                      (Build_UserPicture Samples.portrait)], snd run))
        by (rewrite (surjective_pairing run) at 1; f_equal)
  end.
  destruct (fetch_then_getUsers (platform := Samples.samplePlatform)
              (config := Samples.sampleConfig) (services := Samples.servicesUp)
              1 Samples.emptyWorld _ _ 1 Hrun ltac:(cbn; lia)) as [_ Hget].
  exact Hget.
Defined.

(** A user API that sends a first name of one space: the compiled fetch
    returns the user with an empty first name and stores it, and the
    compiled cache reader then rejects the entry and removes it. *)
Lemma dist_fetch_then_getCachedUsers_witness :
  let run :=
    DistUserFetch.fetchFreshUsers (platform := Samples.samplePlatform)
      (config := Samples.sampleConfig) (services := Samples.servicesBlank) 1 Samples.emptyWorld in
  fst run = Return [Build_User (Build_UserName "" "Doe")
                      (Build_UserLocation "New York" "United States")
                      (Build_UserPicture Samples.portrait)] /\
  DistUserService.getCachedUsers (platform := Samples.samplePlatform)
    (config := Samples.sampleConfig) (snd run)
  = (Return None, CacheSpec.removed (config := Samples.sampleConfig) (snd run)).
Proof.
  cbv zeta.
  match goal with
  | |- fst ?run = ?r /\ _ =>
      assert (Hrun : run = (r, snd run))
        by (rewrite (surjective_pairing run) at 1; f_equal)
  end.
  destruct (dist_fetch_then_getCachedUsers (platform := Samples.samplePlatform)
              (config := Samples.sampleConfig) (services := Samples.servicesBlank)
              1 Samples.emptyWorld _ _ Hrun) as [_ Hblank].
  split; [rewrite Hrun at 1; reflexivity|].
  apply Hblank. constructor. left. reflexivity.
Defined.

(* ===================================================================== *)
(** * Further properties: the compiled user service *)
(* ===================================================================== *)

Section DistServiceExtras.
Context {Env Num Weather : Type} {platform : Platform} {config : Config} {services : Services Env Num Weather}.
Import CacheManager CacheSpec.

Lemma validateUsers_trimmed stored vs :
  DistSchemas.validateUsers stored = Return vs -> Forall User_trimmed vs.
Proof.
  intros Hvs. apply validateUsers_Return in Hvs as (items & _ & _ & Hall).
  induction Hall; constructor; eauto using validateUser_trimmed.
Qed.

Lemma js_slice0_Forall {A} (P : A -> Prop) l count : Forall P l -> Forall P (js_slice0 l count).
Proof. intros Hl. unfold js_slice0. apply Forall_take, Hl. Qed.

(** X11. The compiled [getUsers] serves the cache only after validating
    it: a stored value that validates to at least [count] users gives
    [slice(0, count)] of the validated users and leaves the world as it
    was; one that validates to fewer, a missing or a falsy one gives
    [fetchFreshUsers count]; one that does not validate is removed first.
    Whatever it returns, every user has trimmed name and location
    strings. *)
Theorem dist_getUsers_validated count (w : World Env) :
  (forall stored vs,
      cache w !! USERS = Some stored ->
      DistSchemas.validateUsers stored = Return vs ->
      (count <= Z.of_nat (length vs) ->
       DistUserFetch.getUsers count w = (Return (js_slice0 vs count), w)) /\
      (Z.of_nat (length vs) < count ->
       DistUserFetch.getUsers count w = DistUserFetch.fetchFreshUsers count w)) /\
  (forall stored,
      cache w !! USERS = Some stored ->
      is_throw (DistSchemas.validateUsers stored) = true ->
      DistUserFetch.getUsers count w
      = DistUserFetch.fetchFreshUsers count (if truthy stored then removed w else w)) /\
  (cache w !! USERS = None ->
   DistUserFetch.getUsers count w = DistUserFetch.fetchFreshUsers count w) /\
  (forall us w',
      DistUserFetch.getUsers count w = (Return us, w') -> Forall User_trimmed us).
Proof.
  split; [|split; [|split]].
  - intros stored vs Hc Hvs.
    split; intros Hlen; unfold DistUserFetch.getUsers; unfold bind at 1;
      rewrite dist_getCachedUsers, Hc, Hvs;
      apply validateUsers_Return in Hvs as (items & -> & _); cbn [truthy negb];
      destruct (Z.geb_spec (Z.of_nat (length vs)) count); reflexivity || lia.
  - intros stored Hc Hbad.
    unfold DistUserFetch.getUsers. unfold bind at 1. rewrite dist_getCachedUsers, Hc.
    destruct (truthy stored); cbn [negb]; [|reflexivity].
    destruct (DistSchemas.validateUsers stored); [discriminate | reflexivity].
  - intros Hc. unfold DistUserFetch.getUsers. unfold bind at 1.
    rewrite dist_getCachedUsers, Hc. reflexivity.
  - intros us w'. unfold DistUserFetch.getUsers. unfold bind at 1.
    rewrite dist_getCachedUsers.
    assert (Hfetch : forall w0 : World Env,
               DistUserFetch.fetchFreshUsers count w0 = (Return us, w') ->
               Forall User_trimmed us).
    { intros w0 Hrun0.
      destruct (fresh_users_run (DistUserFetch.fetchFreshUsers_operation count)
                  {| maxAttempts := DEFAULT_RETRY_ATTEMPTS;
                     baseDelay := DEFAULT_RETRY_DELAY;
                     maxDelay := 5000 |}
                  "User API with Zod validation" count w0 (dist_operation_step count))
        as (n & r & w1 & Hrun & _ & Hcases).
      change (DistUserFetch.fetchFreshUsers count w0 = (r, w1)) in Hrun.
      rewrite Hrun0 in Hrun. injection Hrun as <- <-.
      destruct Hcases as [(name & message & Hr & _)|(us' & [= <-] & _ & _ & Hall & _)];
        [discriminate|].
      apply validated_trimmed, Hall. }
    destruct (cache w !! USERS) as [stored|]; [|apply Hfetch].
    destruct (negb (truthy stored)); [apply Hfetch|].
    destruct (DistSchemas.validateUsers stored) as [vs|t] eqn:Hvs; [|apply Hfetch].
    destruct (Z.of_nat (length vs) >=? count); [|apply Hfetch].
    intros [= <- <-]. apply js_slice0_Forall. eauto using validateUsers_trimmed.
Qed.

(** X12. The two single-user validators of the compiled service accept
    the same inputs, the ones [validateUser] accepts, and return the same
    user. On any other input [validateSingleUser] throws a plain Error
    whose message is "Invalid user data: " and the ZodError's message,
    never the ZodError itself, and [safeValidateSingleUser] reports
    "User validation failed: " and that message. *)
Theorem validateSingleUser_agrees userData :
  (forall u,
      DistUserFetch.validateSingleUser userData = Return u <->
      Schemas.validateUser userData = Return u) /\
  (forall u,
      DistUserFetch.safeValidateSingleUser userData = Success u <->
      Schemas.validateUser userData = Return u) /\
  (is_throw (Schemas.validateUser userData) = true ->
   exists issues,
     issues <> [] /\
     DistUserFetch.validateSingleUser userData
     = Throw (TErr (Err "Error" ("Invalid user data: " +:+ zodMessage issues))) /\
     DistUserFetch.safeValidateSingleUser userData
     = Failure ("User validation failed: " +:+ zodMessage issues)).
Proof.
  unfold DistUserFetch.validateSingleUser, DistUserFetch.safeValidateSingleUser,
    DistSchemas.safeValidateUser, DistSchemas.validateUser, Schemas.validateUser,
    parse, safeParse.
  change DistSchemas.UserSchema with Schemas.UserSchema.
  pose proof (has_issues_UserSchema [] userData) as Hissues.
  destruct (Schemas.UserSchema [] userData) as [v|issues]; cbn in *.
  - split; [|split]; try discriminate.
    + intros u. split; intros [= <-]; reflexivity.
    + intros u. split; intros [= <-]; reflexivity.
  - split; [|split].
    + intros u. split; discriminate.
    + intros u. split; discriminate.
    + intros _. exists issues. auto.
Qed.

End DistServiceExtras.

(* ===================================================================== *)
(** * Further properties: the converters *)
(* ===================================================================== *)

Section ConverterExtras.
Context {Env Num Weather : Type} {platform : Platform} {services : Services Env Num Weather}.
Import ConvertSpec ServiceCalls.

(** Unfolds the two converters down to the validation of the argument. *)
Ltac converters_unfold :=
  unfold UserWeatherConverter.convertUserToUserWeatherData,
    DistUserWeatherConverter.convertUserToUserWeatherData;
  eff_unfold;
  unfold DistSchemas.getFullName, DistSchemas.getLocationQuery, DistSchemas.validateUser;
  change DistSchemas.UserSchema with Schemas.UserSchema;
  change (parse Schemas.UserSchema) with Schemas.validateUser.

(** X13. The two converters return the same result and leave the same
    world behind whenever the argument fails validation, and whenever its
    validated form validates again. When the validated form does not
    validate again, the compiled converter gives up before any service
    call: it returns the argument with a null weather and the world
    untouched. *)
Theorem converters_agree raw (w : World Env) :
  (is_throw (Schemas.validateUser raw) = true ->
   DistUserWeatherConverter.convertUserToUserWeatherData raw w
   = UserWeatherConverter.convertUserToUserWeatherData raw w) /\
  (forall v,
      Schemas.validateUser raw = Return v ->
      (Schemas.validateUser (json_of_user v) = Return v ->
       DistUserWeatherConverter.convertUserToUserWeatherData raw w
       = UserWeatherConverter.convertUserToUserWeatherData raw w) /\
      (is_throw (Schemas.validateUser (json_of_user v)) = true ->
       DistUserWeatherConverter.convertUserToUserWeatherData raw w
       = (Return (Build_UserWeatherData raw None), w))).
Proof.
  converters_unfold.
  destruct (Schemas.validateUser raw) as [v|t] eqn:Hv; cbn.
  - split; [discriminate|]. intros v0 [= <-]. split.
    + intros Hv'. rewrite Hv'. cbn. fold (Schemas.getLocationQuery v).
      destruct (getCoordinates (Schemas.getLocationQuery v) (env w)) as [[g|t] e1]; cbn.
      * destruct (getCurrentWeather (lat g) (lng g) e1) as [[wd|t] e2]; cbn; [reflexivity|].
        destruct (instanceof_ZodError t); cbn; rewrite ?Hv; reflexivity.
      * destruct (instanceof_ZodError t); cbn; rewrite ?Hv; reflexivity.
    + destruct (Schemas.validateUser (json_of_user v)) as [v'|t] eqn:Hv'; [discriminate|].
      intros _. destruct (validateUser_throws_ZodError _ _ Hv') as (issues & _ & ->).
      reflexivity.
  - destruct (validateUser_throws_ZodError _ _ Hv) as (issues & _ & ->). cbn.
    split; [reflexivity | discriminate].
Qed.

(** The runs of the TypeScript converter: no call, one call or two. *)
Lemma ts_convert_run raw (w : World Env)
    (P : Outcome (UserWeatherData Weather) * World Env -> Prop) :
  (is_throw (Schemas.validateUser raw) = true -> P (Return (Build_UserWeatherData raw None), w)) ->
  (forall v e,
      Schemas.validateUser raw = Return v ->
      P (Return (Build_UserWeatherData raw None),
         mkWorld (cache w) e (trace w ++ [EvGeocode (Schemas.getLocationQuery v)]))) ->
  (forall v e r,
      Schemas.validateUser raw = Return v ->
      P (Return r,
         mkWorld (cache w) e (trace w ++ [EvGeocode (Schemas.getLocationQuery v); EvWeather]))) ->
  P (UserWeatherConverter.convertUserToUserWeatherData raw w).
Proof.
  intros Hzero Hone Htwo. converters_unfold.
  destruct (Schemas.validateUser raw) as [v|t] eqn:Hv; cbn.
  - destruct (getCoordinates (Schemas.getLocationQuery v) (env w)) as [[g|t] e1]; cbn.
    + destruct (getCurrentWeather (lat g) (lng g) e1) as [[wd|t] e2]; cbn;
        rewrite <- app_assoc; eapply Htwo; reflexivity.
    + eapply Hone. reflexivity.
  - apply Hzero. reflexivity.
Qed.

(** The runs of the compiled converter: the same, with no call either
    when the validated user does not validate again. *)
Lemma dist_convert_run raw (w : World Env)
    (P : Outcome (UserWeatherData Weather) * World Env -> Prop) :
  (is_throw (Schemas.validateUser raw) = true \/
   (exists v, Schemas.validateUser raw = Return v /\
              is_throw (Schemas.validateUser (json_of_user v)) = true) ->
   P (Return (Build_UserWeatherData raw None), w)) ->
  (forall v e,
      Schemas.validateUser raw = Return v ->
      P (Return (Build_UserWeatherData raw None),
         mkWorld (cache w) e (trace w ++ [EvGeocode (Schemas.getLocationQuery v)]))) ->
  (forall v e r,
      Schemas.validateUser raw = Return v ->
      P (Return r,
         mkWorld (cache w) e (trace w ++ [EvGeocode (Schemas.getLocationQuery v); EvWeather]))) ->
  P (DistUserWeatherConverter.convertUserToUserWeatherData raw w).
Proof.
  intros Hzero Hone Htwo. converters_unfold.
  destruct (Schemas.validateUser raw) as [v|t] eqn:Hv; cbn.
  - destruct (Schemas.validateUser (json_of_user v)) as [v'|t] eqn:Hv'; cbn.
    + assert (v' = v) as -> by eauto using revalidate_same, validateUser_trimmed.
      fold (Schemas.getLocationQuery v).
      destruct (getCoordinates (Schemas.getLocationQuery v) (env w)) as [[g|t] e1]; cbn.
      * destruct (getCurrentWeather (lat g) (lng g) e1) as [[wd|t] e2]; cbn.
        -- rewrite <- app_assoc. eapply Htwo. reflexivity.
        -- destruct (instanceof_ZodError t); cbn; rewrite ?Hv; cbn;
             rewrite <- app_assoc; eapply Htwo; reflexivity.
      * destruct (instanceof_ZodError t); cbn; rewrite ?Hv; cbn; eapply Hone; reflexivity.
    + destruct (validateUser_throws_ZodError _ _ Hv') as (issues & _ & ->). cbn.
      apply Hzero. right. exists v. rewrite Hv'. auto.
  - destruct (validateUser_throws_ZodError _ _ Hv) as (issues & _ & ->). cbn.
    apply Hzero. left. reflexivity.
Qed.

(** X14. A conversion never touches the cache, and the only things it
    does to the outside are a geocoding call for "<city>, <country>" of
    the validated user, followed by at most one weather call. An argument
    that fails validation causes no call at all; a result with a weather
    reading took both calls. *)
Theorem convert_service_calls raw (w : World Env) :
  let ts := UserWeatherConverter.convertUserToUserWeatherData raw w in
  let dist := DistUserWeatherConverter.convertUserToUserWeatherData raw w in
  cache (snd ts) = cache w /\ cache (snd dist) = cache w /\
  (is_throw (Schemas.validateUser raw) = true ->
   trace (snd ts) = trace w /\ trace (snd dist) = trace w) /\
  (forall v,
      Schemas.validateUser raw = Return v ->
      let query := Schemas.getLocationQuery v in
      (trace (snd ts) = trace w ++ [EvGeocode query] \/
       trace (snd ts) = trace w ++ [EvGeocode query; EvWeather]) /\
      (trace (snd dist) = trace w \/
       trace (snd dist) = trace w ++ [EvGeocode query] \/
       trace (snd dist) = trace w ++ [EvGeocode query; EvWeather]) /\
      (forall r w', ts = (Return r, w') -> weather r <> None ->
                    trace w' = trace w ++ [EvGeocode query; EvWeather]) /\
      (forall r w', dist = (Return r, w') -> weather r <> None ->
                    trace w' = trace w ++ [EvGeocode query; EvWeather])).
Proof.
  cbv zeta. split; [|split; [|split]].
  - apply ts_convert_run; reflexivity.
  - apply dist_convert_run; reflexivity.
  - intros Hbad. split.
    + apply ts_convert_run; [reflexivity | |]; intros v e; intros;
        destruct (Schemas.validateUser raw); discriminate.
    + apply dist_convert_run; [reflexivity | |]; intros v e; intros;
        destruct (Schemas.validateUser raw); discriminate.
  - intros v Hv. split; [|split; [|split]].
    + apply ts_convert_run.
      * rewrite Hv. discriminate.
      * intros v0 e Hv0. rewrite Hv in Hv0. injection Hv0 as <-. auto.
      * intros v0 e r Hv0. rewrite Hv in Hv0. injection Hv0 as <-. auto.
    + apply dist_convert_run.
      * auto.
      * intros v0 e Hv0. rewrite Hv in Hv0. injection Hv0 as <-. auto.
      * intros v0 e r Hv0. rewrite Hv in Hv0. injection Hv0 as <-. auto.
    + apply ts_convert_run.
      * intros _ r w' [= <- <-] Hsome. contradiction.
      * intros v0 e _ r w' [= <- <-] Hsome. contradiction.
      * intros v0 e r Hv0 r0 w' [= <- <-] _.
        rewrite Hv in Hv0. injection Hv0 as <-. reflexivity.
    + apply dist_convert_run.
      * intros _ r w' [= <- <-] Hsome. contradiction.
      * intros v0 e _ r w' [= <- <-] Hsome. contradiction.
      * intros v0 e r Hv0 r0 w' [= <- <-] _.
        rewrite Hv in Hv0. injection Hv0 as <-. reflexivity.
Qed.

End ConverterExtras.

Section BatchExtras.
Context {Env Num Weather : Type} {platform : Platform} {services : Services Env Num Weather}.
Import ConvertSpec ServiceCalls.

Lemma geocoding_queries_length (vs : list User) :
  (length (geocoding_queries vs) <= length vs)%nat.
Proof.
  induction vs as [|v rest IH]; [reflexivity|].
  rewrite geocoding_queries_cons, length_app. unfold geocoding_queries at 1.
  cbn [omap list_omap length].
  destruct (is_throw (Schemas.validateUser (json_of_user v))); cbn [length]; lia.
Qed.

(** X15. A batch conversion never touches the cache, and a list that
    fails validation causes no call at all. For a list that validates,
    whatever the order in which the answers arrive: first one geocoding
    call for each user that validates again, in list order, for its
    "<city>, <country>"; only then the weather calls, at most one for
    each geocoding call; and nothing else. *)
Theorem convertUsers_service_calls arrival users (w : World Env) :
  let run := DistUserWeatherConverter.convertUsersToUserWeatherData arrival users w in
  cache (snd run) = cache w /\
  (is_throw (DistSchemas.validateUsers users) = true -> trace (snd run) = trace w) /\
  (forall vs,
      DistSchemas.validateUsers users = Return vs ->
      exists m,
        trace (snd run)
        = trace w ++ map EvGeocode (geocoding_queries vs) ++ repeat EvWeather m /\
        (m <= length (geocoding_queries vs) <= length vs)%nat).
Proof.
  cbv zeta. unfold DistUserWeatherConverter.convertUsersToUserWeatherData. eff_unfold.
  destruct (DistSchemas.validateUsers users) as [vs|t] eqn:Hvs; cbn.
  - assert (Htrim : Forall User_trimmed vs) by eauto using validateUsers_trimmed.
    destruct (promise_all_validated arrival vs w Htrim)
      as (results & w' & m & Hrun & _ & Hc & Ht & Hm).
    rewrite Hrun. cbn. split; [exact Hc|]. split; [discriminate|].
    intros vs0 [= <-]. exists m. split; [exact Ht|].
    pose proof (geocoding_queries_length vs). lia.
  - apply validateUsers_Throw in Hvs as (issues & ->). cbn.
    split; [reflexivity|]. split; [reflexivity | discriminate].
Qed.

(** X16. [safeConvertUserToUserWeatherData] never rejects, and its
    [success] says whether the input validated, not whether there is a
    weather reading. An input that fails validation gives
    [{success: false}] without any service call, with the prefix
    "User validation failed: " twice in the message. An input that
    validates gives [{success: true}] with the conversion of the
    validated user: its [user] is always the validated user, and its
    [weather] is null when the validated user does not validate again or
    a service call fails. *)
Theorem safeConvert_reports_validation userData (w : World Env) :
  (is_throw (Schemas.validateUser userData) = true ->
   exists issues,
     DistConverterRest.safeConvertUserToUserWeatherData userData w
     = (Return (Failure ("User validation failed: "
                         +:+ ("User validation failed: " +:+ zodMessage issues))), w)) /\
  (forall v,
      Schemas.validateUser userData = Return v ->
      exists d w',
        DistConverterRest.safeConvertUserToUserWeatherData userData w
        = (Return (Success d), w') /\
        DistUserWeatherConverter.convertUserToUserWeatherData (json_of_user v) w
        = (Return d, w') /\
        user d = json_of_user v /\
        (weather d = None <->
           is_throw (Schemas.validateUser (json_of_user v)) = true \/
           geocoding_fails v w \/ weather_fails v w)).
Proof.
  unfold DistConverterRest.safeConvertUserToUserWeatherData, DistSchemas.safeValidateUser,
    safeParse.
  change DistSchemas.UserSchema with Schemas.UserSchema.
  unfold Schemas.validateUser at 1 2, parse.
  destruct (Schemas.UserSchema [] userData) as [v|issues] eqn:Hs; cbn.
  - split; [discriminate|]. intros v0 [= <-].
    assert (Hv : Schemas.validateUser userData = Return v)
      by (unfold Schemas.validateUser, parse; rewrite Hs; reflexivity).
    destruct (dist_convert_validated v w (validateUser_trimmed _ _ Hv))
      as (d & w' & Hrun & Huser & Hweather).
    exists d, w'. eff_unfold. rewrite Hrun. auto.
  - split; [|discriminate]. intros _. exists issues. reflexivity.
Qed.

(** X17. What the compiled converter returns with a weather reading
    passes [validateUserWeatherData] unchanged. Only a result with a null
    weather can fail it, and then the error is a plain Error whose message
    is "Invalid UserWeatherData: " and the ZodError's message. *)
Theorem converted_revalidates raw (w : World Env) r w' :
  DistUserWeatherConverter.convertUserToUserWeatherData raw w = (Return r, w') ->
  (weather r <> None -> DistConverterRest.validateUserWeatherData r = Return r) /\
  (forall t,
      DistConverterRest.validateUserWeatherData r = Throw t ->
      weather r = None /\
      exists issues,
        t = TErr (Err "Error" ("Invalid UserWeatherData: " +:+ zodMessage issues))).
Proof.
  intros Hrun.
  destruct (dist_convert raw w) as (r0 & w0 & Hrun0 & Hiff & _ & Hsome).
  rewrite Hrun in Hrun0. injection Hrun0 as <- <-.
  assert (Hkeep : weather r <> None -> DistConverterRest.validateUserWeatherData r = Return r).
  { intros Hw. destruct (Hsome Hw) as (v & Hv & Huser).
    unfold DistConverterRest.validateUserWeatherData, DistSchemas.validateUser.
    change DistSchemas.UserSchema with Schemas.UserSchema.
    change (parse Schemas.UserSchema) with Schemas.validateUser. rewrite Huser.
    destruct (Schemas.validateUser (json_of_user v)) as [v'|t] eqn:Hv'.
    - rewrite (revalidate_same v v' (validateUser_trimmed _ _ Hv) Hv').
      destruct r as [u wd]. cbn in *. congruence.
    - exfalso. apply Hw, Hiff. right. exists v. rewrite Hv'. auto. }
  split; [exact Hkeep|]. intros t Ht. split.
  - destruct (weather r) eqn:Hw; [|reflexivity].
    rewrite Hkeep in Ht by congruence. discriminate.
  - revert Ht. unfold DistConverterRest.validateUserWeatherData, DistSchemas.validateUser.
    change DistSchemas.UserSchema with Schemas.UserSchema.
    change (parse Schemas.UserSchema) with Schemas.validateUser.
    destruct (Schemas.validateUser (user r)) as [v|t0] eqn:Hv; [discriminate|].
    destruct (validateUser_throws_ZodError _ _ Hv) as (issues & _ & ->).
    intros [= <-]. eauto.
Qed.

End BatchExtras.

(** The conversion of the sample user, with the services up, passes the
    re-validation as it is. *)
Lemma converted_revalidates_witness :
  DistConverterRest.validateUserWeatherData (platform := Samples.samplePlatform)
    (Build_UserWeatherData Samples.john (Some Samples.sunny))
  = Return (Build_UserWeatherData Samples.john (Some Samples.sunny)).
Proof.
  pose (run :=
    DistUserWeatherConverter.convertUserToUserWeatherData (platform := Samples.samplePlatform)
      (services := Samples.servicesUp) Samples.john Samples.emptyWorld).
  assert (Hrun : run = (Return (Build_UserWeatherData Samples.john (Some Samples.sunny)),
                        snd run))
    by (rewrite (surjective_pairing run) at 1; f_equal).
  destruct (converted_revalidates (platform := Samples.samplePlatform)
              (services := Samples.servicesUp) Samples.john Samples.emptyWorld _ _ Hrun)
    as [Hkeep _].
  apply Hkeep. discriminate.
Defined.

(* ===================================================================== *)
(** * Further properties: what [getUsers] leaves alone *)
(* ===================================================================== *)

Section FrameExtras.
Context {Env Num Weather : Type} {platform : Platform} {config : Config} {services : Services Env Num Weather}.
Import CacheManager CacheSpec.

(** A [fetchFreshUsers], started in [w] or after the removal of the users
    entry of [w], changes no other entry of [w] and only removes the
    entry, requests the users and sets the entry. *)
Lemma fresh_users_frame (operation : Eff (World Env) (list User)) options operationName
    count (w w0 : World Env) :
  (forall w1 : World Env, exists e,
      (exists name message,
          operation w1
          = (Throw (TErr (Err name message)),
             mkWorld (cache w1) e (trace w1 ++ [EvFetch (UserService.users_url count)]))) \/
      (exists us,
          us <> [] /\
          Forall (fun u => exists raw, Schemas.validateUser raw = Return u) us /\
          operation w1
          = (Return us,
             mkWorld (<[USERS := JArr (map json_of_user us)]> (cache w1)) e
                     ((trace w1 ++ [EvFetch (UserService.users_url count)])
                      ++ [EvSet USERS (JArr (map json_of_user us))])))) ->
  w0 = w \/ w0 = removed w ->
  let w' :=
    snd ((removeItem USERS ;;;
          (fun w1 =>
             let '(r, w2, _) := RetryHelper.retryApiCall operation options operationName w1 in
             (r, w2))) w0) in
  (forall key, key <> USERS -> cache w' !! key = cache w !! key) /\
  exists events,
    trace w' = trace w ++ events /\
    Forall (fun ev => ev = EvRemove USERS \/ ev = EvFetch (UserService.users_url count) \/
                      exists value, ev = EvSet USERS value) events.
Proof.
  intros Hstep Hw0. cbv zeta.
  destruct (fresh_users_run operation options operationName count w0 Hstep)
    as (n & r & w' & Hrun & _ & Hcases).
  rewrite Hrun. cbn [snd].
  assert (Hrepeat : forall k,
             Forall (fun ev => ev = EvRemove USERS \/
                               ev = EvFetch (UserService.users_url count) \/
                               exists value, ev = EvSet USERS value)
               (repeat (EvFetch (UserService.users_url count)) k)).
  { intros k. induction k; cbn [repeat]; constructor; auto. }
  assert (Hbase : (forall key, key <> USERS -> cache w0 !! key = cache w !! key) /\
                  exists events0,
                    trace w0 = trace w ++ events0 /\
                    Forall (fun ev => ev = EvRemove USERS \/
                                      ev = EvFetch (UserService.users_url count) \/
                                      exists value, ev = EvSet USERS value) events0).
  { destruct Hw0 as [-> | ->].
    - split; [reflexivity|]. exists []. rewrite app_nil_r. auto.
    - split; [intros key Hkey; apply lookup_delete_ne; congruence|].
      exists [EvRemove USERS]. split; [reflexivity|]. repeat constructor. }
  destruct Hbase as (Hkeys & events0 & Ht0 & Hev0).
  destruct Hcases as [(name & message & _ & _ & Hc & Ht)|(us & _ & _ & _ & _ & Hc & Ht)];
    rewrite Hc, Ht, Ht0.
  - split.
    + intros key Hkey. rewrite lookup_delete_ne by congruence. auto.
    + eexists. rewrite <- app_assoc. split; [reflexivity|].
      apply Forall_app. split; [exact Hev0|]. constructor; auto.
  - split.
    + intros key Hkey. rewrite lookup_insert_ne by congruence. auto.
    + eexists. rewrite <- app_assoc. split; [reflexivity|].
      apply Forall_app. split; [exact Hev0|]. constructor; [auto|].
      apply Forall_app. split; [apply Hrepeat|].
      constructor; [right; right; eauto | constructor].
Qed.

(** X18. [getUsers], TypeScript or compiled, touches one cache entry
    only, the users entry: every other entry is afterwards what it was.
    All it does besides is remove that entry, request
    [randomuser.me/api/?results=<count>&inc=name,location,picture] and
    set that entry. *)
Theorem getUsers_frame count (w : World Env) :
  let ts := snd (UserService.getUsers count w) in
  let dist := snd (DistUserFetch.getUsers count w) in
  (forall key,
      key <> USERS ->
      cache ts !! key = cache w !! key /\ cache dist !! key = cache w !! key) /\
  (exists events,
      trace ts = trace w ++ events /\
      Forall (fun ev => ev = EvRemove USERS \/ ev = EvFetch (UserService.users_url count) \/
                        exists value, ev = EvSet USERS value) events) /\
  (exists events,
      trace dist = trace w ++ events /\
      Forall (fun ev => ev = EvRemove USERS \/ ev = EvFetch (UserService.users_url count) \/
                        exists value, ev = EvSet USERS value) events).
Proof.
  cbv zeta.
  pose (P := fun w' : World Env =>
          (forall key, key <> USERS -> cache w' !! key = cache w !! key) /\
          exists events,
            trace w' = trace w ++ events /\
            Forall (fun ev => ev = EvRemove USERS \/
                              ev = EvFetch (UserService.users_url count) \/
                              exists value, ev = EvSet USERS value) events).
  assert (Hsame : P w).
  { split; [reflexivity|]. exists []. rewrite app_nil_r. auto. }
  assert (Hts : forall w0 : World Env,
             w0 = w \/ w0 = removed w ->
             P (snd ((users <- UserService.fetchFreshUsers count ;;
                      ret (map json_of_user users)) w0))).
  { intros w0 Hw0.
    pose proof (fresh_users_frame (UserService.fetchFreshUsers_operation count)
                  UserService.fetchFreshUsers_options "User API with validation" count w w0
                  (ts_operation_step count) Hw0) as Hframe.
    cbv zeta in Hframe.
    change (removeItem USERS ;;; _) with (UserService.fetchFreshUsers count) in Hframe.
    unfold bind at 1.
    destruct (UserService.fetchFreshUsers count w0) as [[us|t] w1]; exact Hframe. }
  assert (Hdist : forall w0 : World Env,
             w0 = w \/ w0 = removed w -> P (snd (DistUserFetch.fetchFreshUsers count w0))).
  { intros w0 Hw0.
    exact (fresh_users_frame (DistUserFetch.fetchFreshUsers_operation count)
             {| maxAttempts := DEFAULT_RETRY_ATTEMPTS;
                baseDelay := DEFAULT_RETRY_DELAY;
                maxDelay := 5000 |}
             "User API with Zod validation" count w w0 (dist_operation_step count) Hw0). }
  assert (Hts_all : P (snd (UserService.getUsers count w))).
  { unfold UserService.getUsers. unfold bind at 1. rewrite ts_getCachedUsers.
    destruct (cache w !! USERS) as [stored|]; [|apply Hts; auto].
    destruct (negb (truthy stored) || negb (isArray stored)); [apply Hts; auto|].
    destruct (UserService.looksLikeUsers (items_of stored)) as [[|]|];
      try (apply Hts; auto).
    destruct (Z.of_nat (length (items_of stored)) >=? count); [exact Hsame | apply Hts; auto]. }
  assert (Hdist_all : P (snd (DistUserFetch.getUsers count w))).
  { unfold DistUserFetch.getUsers. unfold bind at 1. rewrite dist_getCachedUsers.
    destruct (cache w !! USERS) as [stored|]; [|apply Hdist; auto].
    destruct (negb (truthy stored)); [apply Hdist; auto|].
    destruct (DistSchemas.validateUsers stored) as [vs|t]; [|apply Hdist; auto].
    destruct (Z.of_nat (length vs) >=? count); [exact Hsame | apply Hdist; auto]. }
  destruct Hts_all as [Hk1 He1]. destruct Hdist_all as [Hk2 He2]. auto.
Qed.

End FrameExtras.

(* ===================================================================== *)
(** * Further properties: the helpers of the compiled schemas module *)
(* ===================================================================== *)

Section UserUtilsExtras.
Context {platform : Platform}.

(** Each helper of [UserUtils] is the TypeScript helper after a
    validation of its argument. *)
Lemma UserUtils_validate_first raw :
  match Schemas.validateUser raw with
  | Return v =>
      DistSchemas.getFullName raw = Return (Schemas.getFullName v) /\
      DistSchemas.getLocationQuery raw = Return (Schemas.getLocationQuery v) /\
      DistResponse.getLocationDisplay raw = Return (Schemas.getLocationDisplay v) /\
      DistResponse.sanitizeUserData raw = Return v
  | Throw t =>
      DistSchemas.getFullName raw = Throw t /\
      DistSchemas.getLocationQuery raw = Throw t /\
      DistResponse.getLocationDisplay raw = Throw t /\
      DistResponse.sanitizeUserData raw = Throw t
  end.
Proof.
  unfold DistSchemas.getFullName, DistSchemas.getLocationQuery, DistResponse.getLocationDisplay,
    DistResponse.sanitizeUserData, DistSchemas.validateUser.
  change DistSchemas.UserSchema with Schemas.UserSchema.
  change (parse Schemas.UserSchema) with Schemas.validateUser.
  destruct (Schemas.validateUser raw); auto.
Qed.

(** X19. The helpers of the compiled [UserUtils] validate their argument
    before they use it. On an input that validates they return what the
    TypeScript helpers return on the validated user. Handed that
    validated user, as the repository's examples do, they return the same
    again when none of its name and location strings is empty, and throw
    when one is. *)
Theorem UserUtils_on_validated raw v :
  Schemas.validateUser raw = Return v ->
  (DistSchemas.getFullName raw = Return (Schemas.getFullName v) /\
   DistSchemas.getLocationQuery raw = Return (Schemas.getLocationQuery v) /\
   DistResponse.getLocationDisplay raw = Return (Schemas.getLocationDisplay v) /\
   DistResponse.sanitizeUserData raw = Return v) /\
  (first (name v) <> "" /\ last (name v) <> "" /\
   city (location v) <> "" /\ country (location v) <> "" ->
   DistSchemas.getFullName (json_of_user v) = Return (Schemas.getFullName v) /\
   DistSchemas.getLocationQuery (json_of_user v) = Return (Schemas.getLocationQuery v) /\
   DistResponse.getLocationDisplay (json_of_user v) = Return (Schemas.getLocationDisplay v) /\
   DistResponse.sanitizeUserData (json_of_user v) = Return v) /\
  (first (name v) = "" \/ last (name v) = "" \/
   city (location v) = "" \/ country (location v) = "" ->
   is_throw (DistSchemas.getFullName (json_of_user v)) = true /\
   is_throw (DistSchemas.getLocationQuery (json_of_user v)) = true /\
   is_throw (DistResponse.getLocationDisplay (json_of_user v)) = true /\
   is_throw (DistResponse.sanitizeUserData (json_of_user v)) = true).
Proof.
  intros Hv.
  destruct (revalidate_trimmed v (validateUser_trimmed _ _ Hv) (validateUser_url _ _ Hv))
    as [Hfull Hblank].
  split; [|split].
  - pose proof (UserUtils_validate_first raw) as Hraw. rewrite Hv in Hraw. exact Hraw.
  - intros Hne. pose proof (UserUtils_validate_first (json_of_user v)) as Hagain.
    rewrite (Hfull Hne) in Hagain. exact Hagain.
  - intros He. pose proof (UserUtils_validate_first (json_of_user v)) as Hagain.
    specialize (Hblank He).
    destruct (Schemas.validateUser (json_of_user v)) as [v'|t]; [discriminate|].
    destruct Hagain as (-> & -> & -> & ->). auto.
Qed.

End UserUtilsExtras.

(** The padded sample user: the helpers give the trimmed name and place,
    on the raw input and on its validated form. *)
Lemma UserUtils_on_validated_witness :
  DistSchemas.getFullName (platform := Samples.samplePlatform) Samples.padded_john
  = Return "John Doe" /\
  DistSchemas.getFullName (platform := Samples.samplePlatform) Samples.john
  = Return "John Doe" /\
  DistResponse.getLocationDisplay (platform := Samples.samplePlatform) Samples.john
  = Return "New York, United States".
Proof.
  destruct (UserUtils_on_validated (platform := Samples.samplePlatform) Samples.padded_john
              (Build_User (Build_UserName "John" "Doe")
                          (Build_UserLocation "New York" "United States")
                          (Build_UserPicture Samples.portrait)) eq_refl)
    as ((Hname & _) & Hagain & _).
  destruct Hagain as (Hname' & _ & Hdisplay & _); [cbn; repeat split; discriminate|].
  split; [exact Hname|]. split; [exact Hname' | exact Hdisplay].
Defined.
